(** * Avfile: upload orchestration and resilience layer

    A shallow embedding of the JavaScript sources
      - netlify/functions/report-submit.js  (rate limiter, report handler)
      - js/github-api-netlify.js            (response cache, delivery pipeline)
      - js/compress-simple.js, js/compress.js (transcoding engines)
      - js/upload-netlify.js, js/index-fast.js (orchestrators, progress display)

    JavaScript numbers that hold instants and counters are integers in the
    source and are modelled in [Z]; progress percentages are multiplied by
    decimal factors and are modelled as exact rationals in [Q].  A JavaScript
    [Map] or object keyed by strings is a [gmap string _].  A function that
    may throw returns an [Outcome]; code that mutates the process-wide maps,
    the page or the encoder's file system threads an explicit state. *)

From Stdlib Require Import ZArith QArith Qround Qminmax Lia Lqa.
From stdpp Require Import gmap strings list pretty.

Close Scope Q_scope.
Set Warnings "-register-all".
Open Scope string_scope.
Open Scope Z_scope.

(** ** Results of code that may throw *)

Inductive Outcome (A : Type) : Type :=
| Ok (a : A)
| Throw (message : string).
Arguments Ok {A} a.
Arguments Throw {A} message.

(** [x || y] on strings that may be absent: the empty string is falsy. *)
Definition truthy_str (o : option string) : bool :=
  match o with
  | Some s => negb (String.eqb s "")
  | None => false
  end.

Definition or_else (o : option string) (d : string) : string :=
  if truthy_str o then default d o else d.

(** * netlify/functions/report-submit.js *)

Module ReportSubmit.

(** A property read [obj[key]] on an object literal: own properties first,
    then the properties every object inherits from [Object.prototype]. *)
Inductive JsValue : Type :=
| JsString (s : string)
| JsInherited (property : string).

Definition js_truthy (v : option JsValue) : bool :=
  match v with
  | Some (JsString s) => negb (String.eqb s "")
  | Some (JsInherited _) => true
  | None => false
  end.

Definition Object_prototype : list string :=
  [ "constructor"; "hasOwnProperty"; "isPrototypeOf"; "propertyIsEnumerable";
    "toLocaleString"; "toString"; "valueOf"; "__proto__";
    "__defineGetter__"; "__defineSetter__"; "__lookupGetter__";
    "__lookupSetter__" ].

Fixpoint own_property (props : list (string * string)) (key : string) : option string :=
  match props with
  | [] => None
  | (k, v) :: rest => if String.eqb k key then Some v else own_property rest key
  end.

Definition get_property (props : list (string * string)) (key : string) : option JsValue :=
  match own_property props key with
  | Some v => Some (JsString v)
  | None =>
      if existsb (String.eqb key) Object_prototype
      then Some (JsInherited key)
      else None
  end.

Definition REPORT_REASONS : list (string * string) :=
  [ ("copyright", "著作権侵害");
    ("illegal", "違法コンテンツ");
    ("harassment", "ハラスメント・脅迫");
    ("private", "プライバシー侵害");
    ("malware", "マルウェア・ウイルス");
    ("other", "その他") ].

(** The fixed enumerated reason set: the keys of [REPORT_REASONS]. *)
Definition is_report_reason (reason : string) : bool :=
  existsb (String.eqb reason) (map fst REPORT_REASONS).

(** ** Rate limiting *)

Record RateRecord : Type := { count : Z; resetTime : Z }.

Definition window : Z := 3600 * 1000.

(** [checkReportRateLimit], with [Date.now()] passed as [now] and the
    module-level map [reportRateLimit] passed in and returned.  The record is
    mutated in place in the source; here the updated record is written back. *)
Definition checkReportRateLimit (now : Z) (clientIp : string)
    (reportRateLimit : gmap string RateRecord) : bool * gmap string RateRecord :=
  (* if (!has(clientIp)) set(clientIp, {count: 0, resetTime: now + window}); get(clientIp) *)
  let record :=
    match reportRateLimit !! clientIp with
    | Some r => r
    | None => {| count := 0; resetTime := now + window |}
    end in
  (* if (now > record.resetTime) { count = 0; resetTime = now + window } *)
  let record :=
    if now >? resetTime record
    then {| count := 0; resetTime := now + window |}
    else record in
  (* record.count++ *)
  let record := {| count := count record + 1; resetTime := resetTime record |} in
  (count record <=? 10, <[clientIp := record]> reportRateLimit).

(** Successive calls for one client at the given instants. *)
Fixpoint rate_limit_calls (clientIp : string) (instants : list Z)
    (m : gmap string RateRecord) : list bool * gmap string RateRecord :=
  match instants with
  | [] => ([], m)
  | now :: rest =>
      let '(allowed, m1) := checkReportRateLimit now clientIp m in
      let '(more, m2) := rate_limit_calls clientIp rest m1 in
      (allowed :: more, m2)
  end.

(** The counter a call starts from: zero for an unknown client or a window
    that has passed, the stored counter otherwise. *)
Definition count_before (now : Z) (stored : option RateRecord) : Z :=
  match stored with
  | Some r => if now >? resetTime r then 0 else count r
  | None => 0
  end.

(** ** The handler *)

Inductive BodyInput : Type :=
| BodyAbsent                       (* event.body is null or empty: '{}' is parsed *)
| BodyMalformed (message : string) (* JSON.parse throws, or yields null *)
| BodyJson (file_url release_id reason additionalInfo : option string).
                                   (* an object; [None] is a field not sent *)

Record Event : Type := {
  httpMethod : string;
  header_client_ip : option string;
  header_x_forwarded_for : option string;
  event_body : BodyInput
}.

(** What one invocation reads from its surroundings: the clock, the
    generated identifier, whether [new URL(DISCORD_WEBHOOK_URL)] returns or
    throws (with its message), and the answer of the Discord webhook to the
    request, when the request is made. *)
Record Env : Type := {
  env_now : Z;
  env_timestamp : string;
  env_uuid : string;
  env_webhook_url : Outcome unit;
  env_webhook : Outcome Z
}.

Record ReportData : Type := {
  report_id : string;
  rd_file_url : string;
  rd_release_id : string;
  rd_reason : string;
  rd_additionalInfo : string;
  reporter_ip : string;
  rd_timestamp : string
}.

(** The webhook payload, reduced to the report and the reason shown in the
    embed ([REPORT_REASONS[reason] || '不明']). *)
Record DiscordPayload : Type := {
  payload_report : ReportData;
  payload_reason : JsValue
}.

Definition buildEmbed_reason (reportData : ReportData) : JsValue :=
  let v := get_property REPORT_REASONS (rd_reason reportData) in
  if js_truthy v then default (JsString "不明") v else JsString "不明".

Inductive ResponseBody : Type :=
| NoBody
| ErrorBody (error : string)                     (* { error } *)
| FailureBody (error : string)                   (* { success: false, error } *)
| SuccessBody (report_id timestamp message : string).

Record Response : Type := {
  statusCode : Z;
  response_body : ResponseBody
}.

(** Process-wide state of the function: the limiter's map and the requests
    sent to the webhook so far. *)
Record FnState : Type := {
  reportRateLimit : gmap string RateRecord;
  webhook_requests : list DiscordPayload
}.

(** [new URL(...)] runs first, inside the promise: when it throws, the
    promise is rejected and no request is made. *)
Definition sendDiscordWebhook (env : Env) (payload : DiscordPayload)
    (st : FnState) : Outcome Z * FnState :=
  match env_webhook_url env with
  | Throw message => (Throw message, st)
  | Ok _ =>
      (env_webhook env,
       {| reportRateLimit := reportRateLimit st;
          webhook_requests := webhook_requests st ++ [payload] |})
  end.

(** The body of the handler's [try] block. *)
Definition handle_report (event : Event) (env : Env) (clientIp : string)
    (st : FnState) : Outcome Response * FnState :=
  match event_body event with
  | BodyMalformed message => (Throw message, st)
  | parsed =>
      let '(file_url, release_id, reason, additionalInfo) :=
        match parsed with
        | BodyJson f r x a => (f, r, x, a)
        | _ => (None, None, None, None)
        end in
      if negb (truthy_str file_url) || negb (truthy_str release_id)
         || negb (truthy_str reason)
      then (Throw "Missing required fields: file_url, release_id, reason", st)
      else if negb (js_truthy (get_property REPORT_REASONS (default "" reason)))
      then (Throw ("Invalid reason: " ++ default "" reason), st)
      else
        let reportData :=
          {| report_id := env_uuid env;
             rd_file_url := default "" file_url;
             rd_release_id := default "" release_id;
             rd_reason := default "" reason;
             rd_additionalInfo := or_else additionalInfo "";
             reporter_ip := clientIp;
             rd_timestamp := env_timestamp env |} in
        let discordPayload :=
          {| payload_report := reportData;
             payload_reason := buildEmbed_reason reportData |} in
        match sendDiscordWebhook env discordPayload st with
        | (Ok _, st1) =>
            (Ok {| statusCode := 200;
                   response_body :=
                     SuccessBody (report_id reportData) (rd_timestamp reportData)
                                 "Report submitted successfully" |}, st1)
        | (Throw message, st1) => (Throw message, st1)
        end
  end.

Definition client_ip (event : Event) : string :=
  if truthy_str (header_client_ip event) then default "" (header_client_ip event)
  else or_else (header_x_forwarded_for event) "unknown".

Definition handler (event : Event) (env : Env) (st : FnState) : Response * FnState :=
  if String.eqb (httpMethod event) "OPTIONS" then
    ({| statusCode := 200; response_body := NoBody |}, st)
  else if negb (String.eqb (httpMethod event) "POST") then
    ({| statusCode := 405; response_body := ErrorBody "Method not allowed" |}, st)
  else
    let clientIp := client_ip event in
    let '(allowed, limits) :=
      checkReportRateLimit (env_now env) clientIp (reportRateLimit st) in
    let st := {| reportRateLimit := limits;
                 webhook_requests := webhook_requests st |} in
    if negb allowed then
      ({| statusCode := 429;
          response_body :=
            FailureBody "Report rate limit exceeded. Max 10 reports per hour per IP." |},
       st)
    else
      match handle_report event env clientIp st with
      | (Ok response, st1) => (response, st1)
      | (Throw message, st1) =>
          ({| statusCode := 400; response_body := FailureBody message |}, st1)
      end.

(** The conditions under which the [try] block throws before the webhook is
    reached: the body does not parse, a required field is missing or empty,
    or the reason is not accepted. *)
Definition fails_validation (event : Event) : bool :=
  match event_body event with
  | BodyMalformed _ => true
  | BodyAbsent => true
  | BodyJson file_url release_id reason _ =>
      negb (truthy_str file_url) || negb (truthy_str release_id)
      || negb (truthy_str reason)
      || negb (js_truthy (get_property REPORT_REASONS (default "" reason)))
  end.

(** A report whose reason names a property that every object inherits. *)
Definition inherited_reason_report : Event :=
  {| httpMethod := "POST";
     header_client_ip := Some "198.51.100.7";
     header_x_forwarded_for := None;
     event_body :=
       BodyJson (Some "https://example.com/v/123") (Some "123456789")
                (Some "constructor") None |}.

Definition sample_env : Env :=
  {| env_now := 1700000000000;
     env_timestamp := "2023-11-14T22:13:20.000Z";
     env_uuid := "3f2b8c1e-7a4d-4e6f-9b0a-5c1d2e3f4a5b";
     env_webhook_url := Ok tt;
     env_webhook := Ok 204 |}.

Definition fresh_state : FnState :=
  {| reportRateLimit := ∅; webhook_requests := [] |}.

End ReportSubmit.

(** * The browser side: shared state *)

Module Browser.

(** JSON data as the client receives it; [None] at type [option Json]
    stands for [undefined].  The keys of an object are distinct. *)
Inductive Json : Type :=
| JNull
| JBool (b : bool)
| JNum (n : Z)
| JStr (s : string)
| JArr (items : list Json)
| JObj (fields : list (string * Json)).

Fixpoint assoc (fields : list (string * Json)) (key : string) : option Json :=
  match fields with
  | [] => None
  | (k, v) :: rest => if String.eqb k key then Some v else assoc rest key
  end.

(** [v.key]: a [TypeError] on [undefined] and [null]. *)
Definition member (v : option Json) (key : string) : Outcome (option Json) :=
  match v with
  | None | Some JNull =>
      Throw ("Cannot read properties of undefined (reading '" ++ key ++ "')")
  | Some (JObj fields) => Ok (assoc fields key)
  | Some _ => Ok None
  end.

Definition truthy (v : option Json) : bool :=
  match v with
  | None | Some JNull => false
  | Some (JBool b) => b
  | Some (JNum n) => negb (n =? 0)
  | Some (JStr s) => negb (String.eqb s "")
  | Some (JArr _) | Some (JObj _) => true
  end.

(** [new Error(v || fallback).message]; the text of a truthy value that is
    not a string is kept schematic. *)
Definition message_or (v : option Json) (fallback : string) : string :=
  if truthy v then
    match v with
    | Some (JStr s) => s
    | Some (JNum n) => pretty n
    | Some (JBool _) => "true"
    | _ => "[object Object]"
    end
  else fallback.

Record Blob : Type := {
  blob_name : option string;      (* [Some] for a File *)
  blob_type : string;
  blob_bytes : list Byte.byte
}.

Definition blob_size (b : Blob) : Z := Z.of_nat (length (blob_bytes b)).

Record Metadata : Type := {
  file_id : string;
  original_filename : option string;
  original_size : Z;
  compressed_size : Z;
  resolution : string;
  fps : Z;
  upload_time : string;
  uploader_id : string
}.

(** Requests that leave the page, by the action they carry. *)
Inductive Action : Type :=
| CreateRelease (releaseTag : string) (metadata : Metadata)
| UploadAsset (uploadUrl : option Json) (fileName : string) (file : list Byte.byte)
| DeleteRelease (releaseId : Z)
| GetRelease (releaseId : Z)
| LatestReleases (limit : Z).

Record Request : Type := {
  request_url : string;
  request_method : string;
  request_action : Action
}.

Inductive FetchResult : Type :=
| FetchAbort                                   (* rejected with an AbortError *)
| FetchReject (message : string)               (* rejected otherwise *)
| FetchResponse (ok : bool) (status : Z) (json : Outcome Json).

(** The steps of an encode at which the backend can throw. *)
Inductive Step : Type :=
| NewFFmpeg | Load | ReadFile | WriteInput | Run | ReadOutput
| UnlinkInput | UnlinkOutput | ReadDataURL.

(** How the surroundings of the page behave: the function layer answers a
    request given the requests made before it; the encoder script may be
    absent, may throw at a step, and turns input bytes into output bytes;
    [isReady_at] is the engine's readiness flag over time, as the background
    initialisation sets it. *)
Record Outside : Type := {
  network : list Request -> Request -> FetchResult;
  window_FFmpeg : bool;
  fault : Step -> option string;
  transcode : list Byte.byte -> list Byte.byte;
  isReady_at : Z -> bool;
  random_uuid : string;
  date_iso : string;
  user_id : string
}.

Inductive Screen : Type :=
| UploadArea | ProcessingArea | SuccessArea | ErrorArea (message : string).

(** The part of the document the orchestrators write.  [progress_log] keeps
    the arguments of every [updateProgress] call, in order (the source
    prints one console line for each). *)
Record Page : Type := {
  progressFill_width : Q;
  progressText : Z;
  processingMessage : string;
  processingTitle : string;
  progress_log : list (Q * string);
  screen : Screen
}.

Record CacheEntry : Type := { value : option Json; expiresAt : Z }.

Record Manager : Type := {
  apiBaseUrl : string;
  requestTimeout : Z;
  cache : gmap string CacheEntry;
  cacheTTL : Z
}.

Record UploadRecord : Type := {
  up_file_id : string;
  up_release_id : option Json;
  up_asset_url : option Json
}.

Record World : Type := {
  outside : Outside;
  clock : Z;                               (* Date.now() *)
  page : Page;
  FS : gmap string (list Byte.byte);       (* the encoder's in-memory files *)
  console : list string;                   (* console.warn / console.error *)
  github : Manager;
  requests : list Request;
  storage : list UploadRecord
}.

Definition set_clock (t : Z) (w : World) : World :=
  {| outside := outside w; clock := t; page := page w; FS := FS w;
     console := console w; github := github w; requests := requests w;
     storage := storage w |}.

Definition set_page (p : Page) (w : World) : World :=
  {| outside := outside w; clock := clock w; page := p; FS := FS w;
     console := console w; github := github w; requests := requests w;
     storage := storage w |}.

Definition set_FS (f : gmap string (list Byte.byte)) (w : World) : World :=
  {| outside := outside w; clock := clock w; page := page w; FS := f;
     console := console w; github := github w; requests := requests w;
     storage := storage w |}.

Definition set_console (c : list string) (w : World) : World :=
  {| outside := outside w; clock := clock w; page := page w; FS := FS w;
     console := c; github := github w; requests := requests w;
     storage := storage w |}.

Definition set_github (g : Manager) (w : World) : World :=
  {| outside := outside w; clock := clock w; page := page w; FS := FS w;
     console := console w; github := g; requests := requests w;
     storage := storage w |}.

Definition set_requests (r : list Request) (w : World) : World :=
  {| outside := outside w; clock := clock w; page := page w; FS := FS w;
     console := console w; github := github w; requests := r;
     storage := storage w |}.

Definition set_storage (s : list UploadRecord) (w : World) : World :=
  {| outside := outside w; clock := clock w; page := page w; FS := FS w;
     console := console w; github := github w; requests := requests w;
     storage := s |}.

Definition set_cache (c : gmap string CacheEntry) (w : World) : World :=
  set_github {| apiBaseUrl := apiBaseUrl (github w);
                requestTimeout := requestTimeout (github w);
                cache := c;
                cacheTTL := cacheTTL (github w) |} w.

(** ** Computations that read and write the world and may throw *)

Definition M (A : Type) : Type := World -> Outcome A * World.

Definition ret {A} (a : A) : M A := fun w => (Ok a, w).

Definition bind {A B} (m : M A) (k : A -> M B) : M B :=
  fun w =>
    match m w with
    | (Ok a, w1) => k a w1
    | (Throw message, w1) => (Throw message, w1)
    end.

Definition throw {A} (message : string) : M A := fun w => (Throw message, w).

Definition lift {A} (o : Outcome A) : M A := fun w => (o, w).

(** [try { body } catch (error) { handler(error.message) }] *)
Definition try_catch {A} (body : M A) (handler : string -> M A) : M A :=
  fun w =>
    match body w with
    | (Ok a, w1) => (Ok a, w1)
    | (Throw message, w1) => handler message w1
    end.

Definition gets {A} (f : World -> A) : M A := fun w => (Ok (f w), w).

Definition modify (f : World -> World) : M unit := fun w => (Ok tt, f w).

(** [console.warn(line)] and [console.error(line)] *)
Definition console_warn (line : string) : M unit :=
  modify (fun w => set_console (console w ++ [line]) w).

(** [fetch]: the request is recorded and answered by the function layer. *)
Definition fetch (r : Request) : M FetchResult :=
  fun w => (Ok (network (outside w) (requests w) r),
            set_requests (requests w ++ [r]) w).

(** A step of the backend that throws when the surroundings say so. *)
Definition backend_step (s : Step) : M unit :=
  fun w =>
    match fault (outside w) s with
    | Some message => (Throw message, w)
    | None => (Ok tt, w)
    end.

(** A progress callback [(percent, message) => ...]. *)
Definition Callback : Type := Q -> string -> M unit.

(** A callback that returns and writes nothing but the page, as the
    closures over [updateProgress] that the orchestrators pass. *)
Definition page_only (onProgress : Callback) : Prop :=
  forall percent message w,
    exists p, onProgress percent message w = (Ok tt, set_page p w).

End Browser.

Declare Scope js_scope.
Delimit Scope js_scope with js.
Notation "x <- m ;; k" := (Browser.bind m (fun x => k))
  (at level 90, m at next level, right associativity) : js_scope.
Notation "m ;;; k" := (Browser.bind m (fun _ => k))
  (at level 90, right associativity) : js_scope.
Open Scope js_scope.

(** * js/github-api-netlify.js *)

Module GitHubUploadManagerNetlify.
Import Browser.

Definition constructor (config_apiBaseUrl : option string)
    (config_requestTimeout : option Z) : Manager :=
  {| apiBaseUrl := or_else config_apiBaseUrl "/.netlify/functions";
     requestTimeout :=
       match config_requestTimeout with
       | Some t => if t =? 0 then 30000 else t
       | None => 30000
       end;
     cache := ∅;
     cacheTTL := 3600 * 1000 |}.

Definition callFunction (functionName : string) (method : string)
    (body : Action) : M Json :=
  base <- gets (fun w => apiBaseUrl (github w)) ;;
  timeout <- gets (fun w => requestTimeout (github w)) ;;
  let url := base ++ "/" ++ functionName in
  response <- fetch {| request_url := url; request_method := method;
                       request_action := body |} ;;
  match response with
  | FetchAbort => throw ("Request timeout (" ++ pretty timeout ++ "ms)")
  | FetchReject message => throw message
  | FetchResponse ok status json =>
      data <- lift json ;;
      if negb ok then
        error <- lift (member (Some data) "error") ;;
        throw (message_or error ("HTTP " ++ pretty status))
      else ret data
  end.

(** Is the entry found under a key served as it is? *)
Definition cache_hit (now : Z) (cached : option CacheEntry) : bool :=
  match cached with
  | Some entry => now <? expiresAt entry
  | None => false
  end.

Definition withCache (key : string) (fn : M (option Json)) : M (option Json) :=
  now <- gets clock ;;
  cached <- gets (fun w => cache (github w) !! key) ;;
  let miss : M (option Json) :=
    value <- fn ;;
    modify (fun w =>
      set_cache (<[key := {| value := value;
                             expiresAt := now + cacheTTL (github w) |}]>
                   (cache (github w))) w) ;;;
    ret value in
  match cached with
  | Some entry => if now <? expiresAt entry then ret (value entry) else miss
  | None => miss
  end.

Definition createRelease (releaseTag : string) (metadata : Metadata)
    : M (option Json) :=
  response <- callFunction "github-upload" "POST"
                (CreateRelease releaseTag metadata) ;;
  success <- lift (member (Some response) "success") ;;
  if negb (truthy success) then
    error <- lift (member (Some response) "error") ;;
    throw (message_or error "Failed to create release")
  else
    data <- lift (member (Some response) "data") ;;
    (* console.log(..., response.data.release_id) *)
    _ <- lift (member data "release_id") ;;
    ret data.

Definition uploadAsset (uploadUrl : option Json) (fileBlob : Blob)
    (fileName : string) (onProgress : Callback) : M (option Json) :=
  readable <- gets (fun w => fault (outside w) ReadDataURL) ;;
  match readable with
  | Some _ => throw "Failed to read file"
  | None =>
      onProgress (50 # 1)%Q "Sending to server..." ;;;
      response <- callFunction "github-upload" "POST"
                    (UploadAsset uploadUrl fileName (blob_bytes fileBlob)) ;;
      success <- lift (member (Some response) "success") ;;
      if negb (truthy success) then
        error <- lift (member (Some response) "error") ;;
        throw (message_or error "Failed to upload asset")
      else
        onProgress (100 # 1)%Q "Upload complete" ;;;
        data <- lift (member (Some response) "data") ;;
        _ <- lift (member data "asset_id") ;;
        ret data
  end.

Definition fetch_data (a : Action) (url : string) (fallback : string)
    : M (option Json) :=
  response <- fetch {| request_url := url; request_method := "GET";
                       request_action := a |} ;;
  match response with
  | FetchAbort => throw "The operation was aborted"
  | FetchReject message => throw message
  | FetchResponse ok status json =>
      data <- lift json ;;
      if negb ok then
        error <- lift (member (Some data) "error") ;;
        throw (message_or error fallback)
      else lift (member (Some data) "data")
  end.

Definition getFileInfo (releaseId : Z) : M (option Json) :=
  let cacheKey := "file:" ++ pretty releaseId in
  withCache cacheKey
    (base <- gets (fun w => apiBaseUrl (github w)) ;;
     fetch_data (GetRelease releaseId)
       (base ++ "/file-info?action=get-release&releaseId=" ++ pretty releaseId)
       "Failed to get file info").

Definition deleteRelease (releaseId : Z) : M bool :=
  response <- callFunction "github-upload" "POST" (DeleteRelease releaseId) ;;
  success <- lift (member (Some response) "success") ;;
  if negb (truthy success) then
    error <- lift (member (Some response) "error") ;;
    throw (message_or error "Failed to delete release")
  else
    modify (fun w =>
      set_cache (delete ("file:" ++ pretty releaseId) (cache (github w))) w) ;;;
    ret true.

Record UploadResult : Type := {
  release_id : option Json;
  asset_id : option Json;
  asset_url : option Json;
  release_url : option Json;
  file_name : option Json
}.

Definition uploadWithMetadata (fileBlob : Blob) (metadata : Metadata)
    (onProgress : Callback) : M UploadResult :=
  try_catch
    (onProgress (5 # 1)%Q "Creating release..." ;;;
     release <- createRelease ("video_" ++ file_id metadata) metadata ;;
     onProgress (25 # 1)%Q "Uploading file to server..." ;;;
     upload_url <- lift (member release "upload_url") ;;
     asset <- uploadAsset upload_url fileBlob (file_id metadata ++ ".mp4")
                (fun percent message =>
                   let overallPercent := (25 # 1) + percent * (75 # 100) in
                   onProgress overallPercent message)%Q ;;
     onProgress (100 # 1)%Q "Upload complete!" ;;;
     release_id <- lift (member release "release_id") ;;
     asset_id <- lift (member asset "asset_id") ;;
     download_url <- lift (member asset "download_url") ;;
     html_url <- lift (member release "html_url") ;;
     name <- lift (member asset "name") ;;
     ret {| release_id := release_id; asset_id := asset_id;
            asset_url := download_url; release_url := html_url;
            file_name := name |})
    (fun message =>
       console_warn ("❌ Upload failed: " ++ message) ;;;
       throw message).

Definition getLatestReleases (limit : Z) : M (option Json) :=
  let cacheKey := "releases:latest:" ++ pretty limit in
  withCache cacheKey
    (base <- gets (fun w => apiBaseUrl (github w)) ;;
     fetch_data (LatestReleases limit)
       (base ++ "/file-info?action=latest-releases&limit=" ++ pretty limit)
       "Failed to get releases").

(** [key.includes(pattern)] *)
Fixpoint includes (key pattern : string) : bool :=
  String.prefix pattern key
  || match key with
     | EmptyString => false
     | String _ rest => includes rest pattern
     end.

Definition clearCache (pattern : option string) : M unit :=
  if negb (truthy_str pattern) then
    modify (fun w => set_cache ∅ w)
  else
    modify (fun w =>
      set_cache
        (filter (fun entry => includes (fst entry) (default "" pattern) = false)
                (cache (github w))) w).

Definition getErrorMessage (error_message : string) : string :=
  let message := error_message in
  if includes message "Rate limit" then
    "リクエストが多すぎます。少し待ってからお試しください。"
  else if includes message "timeout" then
    "リクエストがタイムアウトしました。接続を確認してください。"
  else if includes message "401" || includes message "403" then
    "サーバー認証エラーです。後で再度お試しください。"
  else if includes message "Network" then
    "ネットワークエラーです。接続を確認してください。"
  else if String.eqb error_message "" then "不明なエラーが発生しました。"
  else error_message.

(** The world after a value has been computed at [now] and stored. *)
Definition stored (key : string) (v : option Json) (now : Z) (w : World) : World :=
  set_cache (<[key := {| value := v; expiresAt := now + cacheTTL (github w) |}]>
               (cache (github w))) w.

(** What a lookup that is not served from the cache does: [fn] runs once,
    its value is stored, its failure is passed on. *)
Definition computed (key : string) (fn : M (option Json)) (w : World)
    : Outcome (option Json) * World :=
  match fn w with
  | (Ok v, w1) => (Ok v, stored key v (clock w) w1)
  | (Throw message, w1) => (Throw message, w1)
  end.

End GitHubUploadManagerNetlify.

(** * The encoder library

    ffmpeg.wasm is loaded from a CDN and is not part of the repository.  Its
    file system is an in-memory map; each operation first throws if the
    surroundings say that step fails. *)

Module FFmpeg.
Import Browser.

Definition load : M unit := backend_step Load.

Definition FS_writeFile (name : string) (data : list Byte.byte) : M unit :=
  backend_step WriteInput ;;;
  modify (fun w => set_FS (<[name := data]> (FS w)) w).

Definition run (inputFile outputFile : string) : M unit :=
  backend_step Run ;;;
  input <- gets (fun w => FS w !! inputFile) ;;
  match input with
  | Some data =>
      modify (fun w => set_FS (<[outputFile := transcode (outside w) data]> (FS w)) w)
  | None => throw (inputFile ++ ": No such file or directory")
  end.

Definition FS_readFile (name : string) : M (list Byte.byte) :=
  backend_step ReadOutput ;;;
  data <- gets (fun w => FS w !! name) ;;
  match data with
  | Some bytes => ret bytes
  | None => throw (name ++ ": No such file or directory")
  end.

Definition FS_unlink (s : Step) (name : string) : M unit :=
  backend_step s ;;;
  data <- gets (fun w => FS w !! name) ;;
  match data with
  | Some _ => modify (fun w => set_FS (delete name (FS w)) w)
  | None => throw (name ++ ": No such file or directory")
  end.

(** [FileReader.readAsArrayBuffer] wrapped in a promise. *)
Definition readFile (file : Blob) : M (list Byte.byte) :=
  backend_step ReadFile ;;;
  ret (blob_bytes file).

End FFmpeg.

(** * js/compress-simple.js *)

Module CompressSimple.
Import Browser.

Definition fallbackCompress (file : Blob) (onProgress : Callback) : M Blob :=
  let maxSize := 100 * 1024 * 1024 in
  onProgress (50 # 1)%Q "Optimizing..." ;;;
  if blob_size file <=? maxSize then
    onProgress (100 # 1)%Q "Ready" ;;;
    ret file
  else
    console_warn "⚠️ File too large, may need reduction" ;;;
    onProgress (100 # 1)%Q "File prepared" ;;;
    ret file.

Definition compressWithFFmpeg (file : Blob) (onProgress : Callback) : M Blob :=
  try_catch
    (onProgress (20 # 1)%Q "Loading video..." ;;;
     (* this.ffmpeg = new FFmpeg.FFmpeg(): a new instance, with its own files *)
     backend_step NewFFmpeg ;;;
     modify (set_FS ∅) ;;;
     onProgress (30 # 1)%Q "Initializing encoder..." ;;;
     FFmpeg.load ;;;
     onProgress (40 # 1)%Q "Reading file..." ;;;
     fileData <- FFmpeg.readFile file ;;
     let inputFileName := "input.mp4" in
     let outputFileName := "output.mp4" in
     FFmpeg.FS_writeFile inputFileName fileData ;;;
     onProgress (50 # 1)%Q "Compressing video..." ;;;
     FFmpeg.run inputFileName outputFileName ;;;
     onProgress (80 # 1)%Q "Finalizing..." ;;;
     compressedData <- FFmpeg.FS_readFile outputFileName ;;
     let blob := {| blob_name := None; blob_type := "video/mp4";
                    blob_bytes := compressedData |} in
     try_catch
       (FFmpeg.FS_unlink UnlinkInput inputFileName ;;;
        FFmpeg.FS_unlink UnlinkOutput outputFileName)
       (fun _ => console_warn "⚠️ Could not clean up files") ;;;
     onProgress (100 # 1)%Q "Complete!" ;;;
     ret blob)
    (fun message =>
       console_warn ("❌ FFmpeg compression failed: " ++ message) ;;;
       console_warn "⚠️ Falling back to simple compression" ;;;
       fallbackCompress file onProgress).

Definition compress (file : Blob) (onProgress : Callback) : M Blob :=
  try_catch
    (onProgress (10 # 1)%Q "Preparing file..." ;;;
     available <- gets (fun w => window_FFmpeg (outside w)) ;;
     if available then
       compressWithFFmpeg file onProgress
     else
       console_warn "⚠️ FFmpeg not available, using fallback compression" ;;;
       fallbackCompress file onProgress)
    (fun message =>
       console_warn ("❌ Compression error: " ++ message) ;;;
       onProgress (100 # 1)%Q "Using original file" ;;;
       ret file).

(** The steps of [compressWithFFmpeg] before the clean-up. *)
Definition encode_steps : list Step :=
  [NewFFmpeg; Load; ReadFile; WriteInput; Run; ReadOutput].

End CompressSimple.

(** * js/compress.js *)

Module Compress.
Import Browser.

(** The polling loop of [waitUntilReady]; every round that finds the engine
    not ready sleeps 500 ms.  [rounds] bounds the number of rounds; the bound
    that [waitUntilReady] passes is never reached
    ([waitUntilReady_ends]). *)
Fixpoint waitUntilReady_loop (rounds : nat) (startTime maxWait : Z) : M bool :=
  match rounds with
  | O => throw "waitUntilReady: still polling"
  | S rounds =>
      isReady <- gets (fun w => isReady_at (outside w) (clock w)) ;;
      if isReady then ret true
      else
        now <- gets clock ;;
        if now - startTime >? maxWait then
          throw "FFmpeg initialization timeout"
        else
          modify (fun w => set_clock (clock w + 500) w) ;;;
          waitUntilReady_loop rounds startTime maxWait
  end.

Definition waitUntilReady (maxWait : Z) : M bool :=
  startTime <- gets clock ;;
  waitUntilReady_loop (Z.to_nat (maxWait / 500) + 2) startTime maxWait.

Definition runCompression (inputFile outputFile : string)
    (onProgress : Callback) : M unit :=
  onProgress (30 # 1)%Q "Encoding video..." ;;;
  try_catch
    (FFmpeg.run inputFile outputFile ;;;
     onProgress (85 # 1)%Q "Finalizing...")
    (fun message =>
       console_warn ("❌ FFmpeg execution failed: " ++ message) ;;;
       throw message).

(** [compress]; the computed encoder parameters only feed the arguments of
    the encoder and are left out. *)
Definition compress (file : Blob) (onProgress : Callback) : M Blob :=
  try_catch
    (waitUntilReady 30000 ;;;
     onProgress (5 # 1)%Q "Loading video..." ;;;
     fileData <- FFmpeg.readFile file ;;
     let inputFileName := "input.mp4" in
     let outputFileName := "output.mp4" in
     FFmpeg.FS_writeFile inputFileName fileData ;;;
     onProgress (15 # 1)%Q "Analyzing video..." ;;;
     onProgress (20 # 1)%Q "Starting compression..." ;;;
     runCompression inputFileName outputFileName onProgress ;;;
     onProgress (95 # 1)%Q "Finalizing..." ;;;
     compressedData <- FFmpeg.FS_readFile outputFileName ;;
     let blob := {| blob_name := None; blob_type := "video/mp4";
                    blob_bytes := compressedData |} in
     try_catch
       (FFmpeg.FS_unlink UnlinkInput inputFileName ;;;
        FFmpeg.FS_unlink UnlinkOutput outputFileName)
       (fun _ => console_warn "⚠️ Could not clean up files") ;;;
     onProgress (100 # 1)%Q "Complete!" ;;;
     ret blob)
    (fun message =>
       console_warn ("❌ Compression failed: " ++ message) ;;;
       throw ("Compression failed: " ++ message)).

(** The steps of [compress] before the clean-up. *)
Definition encode_steps : list Step := [ReadFile; WriteInput; Run; ReadOutput].

(** The blob an encode that went through returns. *)
Definition encoded (file : Blob) (w : World) : Blob :=
  {| blob_name := None; blob_type := "video/mp4";
     blob_bytes := transcode (outside w) (blob_bytes file) |}.

End Compress.

(** * The progress display

    [updateProgress], [showProcessing], [showSuccess] and [showError] are the
    same in js/upload-netlify.js and js/index-fast.js. *)

Module Display.
Import Browser.

(** [Math.round] *)
Definition Math_round (x : Q) : Z := Qfloor (x + (1 # 2))%Q.

Definition updateProgress (percent : Q) (message : string) : M unit :=
  modify (fun w =>
    set_page
      {| progressFill_width := Qmin percent (100 # 1);
         progressText := Math_round percent;
         processingMessage := message;
         processingTitle := message;
         progress_log := progress_log (page w) ++ [(percent, message)];
         screen := screen (page w) |} w).

Definition show (s : Screen) : M unit :=
  modify (fun w =>
    set_page
      {| progressFill_width := progressFill_width (page w);
         progressText := progressText (page w);
         processingMessage := processingMessage (page w);
         processingTitle := processingTitle (page w);
         progress_log := progress_log (page w);
         screen := s |} w).

Definition showProcessing : M unit := show ProcessingArea.
Definition showSuccess : M unit := show SuccessArea.
Definition showError (message : string) : M unit := show (ErrorArea message).

(** The callbacks the orchestrators pass, for a phase that starts at
    [offset] and scales by [factor]:
    [(percent, message) => updateProgress(offset + percent * factor, message)]. *)
Definition phase (offset factor : Q) : Callback :=
  fun percent message => updateProgress (offset + percent * factor)%Q message.

Definition clamp (x lo hi : Q) : Q := Qmax lo (Qmin x hi).

(** The percentages passed to [updateProgress] so far. *)
Definition percentages (w : World) : list Q := map fst (progress_log (page w)).

Fixpoint non_decreasing (l : list Q) : bool :=
  match l with
  | [] => true
  | x :: rest =>
      match rest with
      | [] => true
      | y :: _ => Qle_bool x y && non_decreasing rest
      end
  end.

(** A computation that first delivers the percentages [first] and may then
    deliver more, keeping what was delivered before it. *)
Definition delivers {A} (first : list (Q * string)) (m : M A) : Prop :=
  forall w, exists tail,
    progress_log (page (m w).2) = (progress_log (page w) ++ first ++ tail)%list.

(** Modelled from the spec: the persisted upload history ([StorageManager]
    is not among the sources).  [addUpload] appends the record that the
    result of the delivery feeds. *)
Definition addUpload (fileId : string)
    (uploadResult : GitHubUploadManagerNetlify.UploadResult) : M unit :=
  modify (fun w =>
    set_storage
      (storage w ++
       [{| up_file_id := fileId;
           up_release_id := GitHubUploadManagerNetlify.release_id uploadResult;
           up_asset_url := GitHubUploadManagerNetlify.asset_url uploadResult |}]) w).

(** The metadata record built by [handleFileSelect]; the two formatted
    strings [compression_ratio] and [title] are left out. *)
Definition make_metadata (fileId : string) (file compressedBlob : Blob) : M Metadata :=
  gets (fun w =>
    {| file_id := fileId;
       original_filename := blob_name file;
       original_size := blob_size file;
       compressed_size := blob_size compressedBlob;
       resolution := "720p";
       fps := 30;
       upload_time := date_iso (outside w);
       uploader_id := user_id (outside w) |}).

End Display.

(** * js/upload-netlify.js *)

Module UploadNetlify.
Import Browser Display.

(** [handleFileSelect]; [compress] is the method of the engine that the page
    loaded ([appState.compression]).  The redrawing of the history list
    after the success screen is left out. *)
Definition handleFileSelect (compress : Blob -> Callback -> M Blob)
    (file : option Blob) : M unit :=
  match file with
  | None => ret tt
  | Some file =>
      if negb (String.prefix "video/" (blob_type file)) then
        showError "動画ファイル（MP4, WebM など）を選択してください。"
      else
        showProcessing ;;;
        try_catch
          (compressedBlob <-
             compress file
               (fun percent message =>
                  updateProgress (percent * (5 # 10))%Q message) ;;
           updateProgress (50 # 1)%Q "アップロード中..." ;;;
           fileId <- gets (fun w => random_uuid (outside w)) ;;
           metadata <- make_metadata fileId file compressedBlob ;;
           uploadResult <-
             GitHubUploadManagerNetlify.uploadWithMetadata compressedBlob metadata
               (fun percent message =>
                  updateProgress ((50 # 1) + percent * (5 # 10))%Q message) ;;
           addUpload fileId uploadResult ;;;
           updateProgress (100 # 1)%Q "アップロード完了！" ;;;
           showSuccess)
          (fun message =>
             console_warn ("❌ エラー: " ++ message) ;;;
             showError (GitHubUploadManagerNetlify.getErrorMessage message))
  end.

End UploadNetlify.

(** * js/index-fast.js *)

Module IndexFast.
Import Browser Display.

Definition handleFileSelect (compress : Blob -> Callback -> M Blob)
    (file : option Blob) : M unit :=
  match file with
  | None => ret tt
  | Some file =>
      if negb (String.prefix "video/" (blob_type file)) then
        showError "Please select a video file (MP4, WebM, AVI, MOV, etc.)"
      else
        let maxSize := 5 * 1024 * 1024 * 1024 in
        if blob_size file >? maxSize then
          showError "File is too large. Maximum size is 5GB."
        else
          showProcessing ;;;
          try_catch
            (updateProgress (5 # 1)%Q "Compressing video..." ;;;
             compressedBlob <-
               compress file
                 (fun percent message =>
                    updateProgress (percent * (4 # 10))%Q message) ;;
             updateProgress (40 # 1)%Q "Uploading to cloud..." ;;;
             fileId <- gets (fun w => random_uuid (outside w)) ;;
             metadata <- make_metadata fileId file compressedBlob ;;
             uploadResult <-
               GitHubUploadManagerNetlify.uploadWithMetadata compressedBlob metadata
                 (fun percent message =>
                    updateProgress ((40 # 1) + percent * (6 # 10))%Q message) ;;
             addUpload fileId uploadResult ;;;
             updateProgress (100 # 1)%Q "Complete!" ;;;
             showSuccess)
            (fun message =>
               console_warn ("❌ Error: " ++ message) ;;;
               showError (GitHubUploadManagerNetlify.getErrorMessage message))
  end.

End IndexFast.

(** * Scenarios *)

Module Scenario.
Import Browser.

Definition release_json (id : Z) : Json :=
  JObj [("release_id", JNum id); ("name", JStr ("video_" ++ pretty id))].

Definition reply (ok : bool) (status : Z) (fields : list (string * Json)) : FetchResult :=
  FetchResponse ok status (Ok (JObj fields)).

Definition host_step (releases : list Z) (n : nat) (r : Request) : list Z :=
  match request_action r with
  | CreateRelease _ _ => (1000 + Z.of_nat n) :: releases
  | DeleteRelease id => List.filter (fun x => negb (x =? id)) releases
  | _ => releases
  end.

Fixpoint host_releases (releases : list Z) (n : nat) (history : list Request) : list Z :=
  match history with
  | [] => releases
  | r :: rest => host_releases (host_step releases n r) (S n) rest
  end.

(** Modelled from the spec: the content host behind the function layer (the
    functions [github-upload] and [file-info] are not among the sources).
    Following section 6, it creates a container and returns its identifier,
    attach target and locator; attaches a payload and returns the asset's
    identifier, download locator and name; deletes a container; returns the
    record of a container that exists; lists the containers that exist. *)
Definition host (initial : list Z) (history : list Request) (r : Request) : FetchResult :=
  let releases := host_releases initial 0 history in
  match request_action r with
  | CreateRelease tag _ =>
      let id := 1000 + Z.of_nat (length history) in
      reply true 200
        [("success", JBool true);
         ("data", JObj [("release_id", JNum id);
                        ("upload_url", JStr ("https://uploads.example/" ++ pretty id));
                        ("html_url", JStr ("https://host.example/releases/" ++ tag))])]
  | UploadAsset _ name _ =>
      reply true 200
        [("success", JBool true);
         ("data", JObj [("asset_id", JNum 7);
                        ("download_url", JStr ("https://host.example/download/" ++ name));
                        ("name", JStr name)])]
  | DeleteRelease id =>
      if existsb (Z.eqb id) releases
      then reply true 200 [("success", JBool true)]
      else reply false 404 [("success", JBool false); ("error", JStr "Not Found")]
  | GetRelease id =>
      if existsb (Z.eqb id) releases
      then reply true 200 [("success", JBool true); ("data", release_json id)]
      else reply false 404 [("success", JBool false); ("error", JStr "Not Found")]
  | LatestReleases limit =>
      reply true 200
        [("success", JBool true);
         ("data", JArr (map release_json (firstn (Z.to_nat limit) releases)))]
  end.

(** Surroundings in which nothing fails: the host above, an encoder that is
    present, ready, and halves its input. *)
Definition calm (initial : list Z) : Outside :=
  {| network := host initial;
     window_FFmpeg := true;
     fault := fun _ => None;
     transcode := fun bytes => firstn (Nat.div2 (length bytes)) bytes;
     isReady_at := fun _ => true;
     random_uuid := "9b2f6c1a-3d4e-4f5a-8b7c-1d2e3f4a5b6c";
     date_iso := "2023-11-14T22:13:20.000Z";
     user_id := "user-1" |}.

Definition without_FFmpeg (o : Outside) : Outside :=
  {| network := network o; window_FFmpeg := false; fault := fault o;
     transcode := transcode o; isReady_at := isReady_at o;
     random_uuid := random_uuid o; date_iso := date_iso o; user_id := user_id o |}.

Definition step_eqb (a b : Step) : bool :=
  match a, b with
  | NewFFmpeg, NewFFmpeg | Load, Load | ReadFile, ReadFile
  | WriteInput, WriteInput | Run, Run | ReadOutput, ReadOutput
  | UnlinkInput, UnlinkInput | UnlinkOutput, UnlinkOutput
  | ReadDataURL, ReadDataURL => true
  | _, _ => false
  end.

Definition failing_at (s : Step) (message : string) (o : Outside) : Outside :=
  {| network := network o; window_FFmpeg := window_FFmpeg o;
     fault := fun s1 => if step_eqb s1 s then Some message else fault o s1;
     transcode := transcode o; isReady_at := isReady_at o;
     random_uuid := random_uuid o; date_iso := date_iso o; user_id := user_id o |}.

Definition never_ready (o : Outside) : Outside :=
  {| network := network o; window_FFmpeg := window_FFmpeg o; fault := fault o;
     transcode := transcode o; isReady_at := fun _ => false;
     random_uuid := random_uuid o; date_iso := date_iso o; user_id := user_id o |}.

Definition blank_page : Page :=
  {| progressFill_width := 0; progressText := 0; processingMessage := "";
     processingTitle := ""; progress_log := []; screen := UploadArea |}.

(** The page just loaded. *)
Definition start (o : Outside) : World :=
  {| outside := o;
     clock := 1700000000000;
     page := blank_page;
     FS := ∅;
     console := [];
     github := GitHubUploadManagerNetlify.constructor
                 (Some "/.netlify/functions") (Some 30000);
     requests := [];
     storage := [] |}.

Definition clip : Blob :=
  {| blob_name := Some "clip.mp4";
     blob_type := "video/mp4";
     blob_bytes := [Byte.x00; Byte.x00; Byte.x00; Byte.x18; Byte.x66; Byte.x74;
                    Byte.x79; Byte.x70] |}.

End Scenario.

From Stdlib Require Import Ascii.

(** * generateUUID

    The same function in netlify/functions/report-submit.js,
    js/upload-netlify.js and js/index-fast.js.  [random i] is the value of
    the i-th call of [Math.random()]. *)

Module Uuid.

Definition hex_char (v : Z) : ascii :=
  match v with
  | 0 => "0" | 1 => "1" | 2 => "2" | 3 => "3" | 4 => "4" | 5 => "5"
  | 6 => "6" | 7 => "7" | 8 => "8" | 9 => "9" | 10 => "a" | 11 => "b"
  | 12 => "c" | 13 => "d" | 14 => "e" | _ => "f"
  end%char.

Fixpoint toString16_go (fuel : nat) (v : Z) (acc : string) : string :=
  match fuel with
  | O => acc
  | S fuel =>
      if v <? 16 then String (hex_char v) acc
      else toString16_go fuel (v / 16) (String (hex_char (v mod 16)) acc)
  end.

(** [v.toString(16)] for an integer [v] *)
Definition toString16 (v : Z) : string :=
  if v <? 0 then "-" ++ toString16_go (S (Z.to_nat (- v))) (- v) ""
  else toString16_go (S (Z.to_nat v)) v "".

(** [x | 0]: truncation toward zero, then the 32-bit wrap-around *)
Definition truncate (x : Q) : Z := if Qle_bool 0 x then Qfloor x else Qceiling x.

Definition to_int32 (z : Z) : Z := (z + 2 ^ 31) mod 2 ^ 32 - 2 ^ 31.

Definition bitor0 (x : Q) : Z := to_int32 (truncate x).

(** The callback of [replace]: the text that stands for [c]. *)
Definition replacement (c : ascii) (random_value : Q) : string :=
  let r := bitor0 (random_value * (16 # 1))%Q in
  let v := if Ascii.eqb c "x" then r else Z.lor (Z.land r 3) 8 in
  toString16 v.

(** [template.replace(/[xy]/g, ...)], left to right; [call] counts the calls
    of [Math.random()] made so far. *)
Fixpoint replace_xy (template : string) (random : nat -> Q) (call : nat) : string :=
  match template with
  | EmptyString => EmptyString
  | String c rest =>
      if Ascii.eqb c "x" || Ascii.eqb c "y"
      then replacement c (random call) ++ replace_xy rest random (S call)
      else String c (replace_xy rest random call)
  end.

Definition generateUUID (random : nat -> Q) : string :=
  replace_xy "xxxxxxxx-xxxx-4xxx-yxxx-xxxxxxxxxxxx" random 0.

Definition is_hex (c : ascii) : bool :=
  existsb (Ascii.eqb c)
    ["0"; "1"; "2"; "3"; "4"; "5"; "6"; "7"; "8"; "9";
     "a"; "b"; "c"; "d"; "e"; "f"]%char.

End Uuid.

(** * escapeHtml (js/upload-netlify.js) *)

Module Html.

Definition double_quote : ascii := "034"%char.

(** [map[m]] for a character the pattern matches, the character itself
    otherwise. *)
Definition entity (c : ascii) : string :=
  if Ascii.eqb c "&" then "&amp;"
  else if Ascii.eqb c "<" then "&lt;"
  else if Ascii.eqb c ">" then "&gt;"
  else if Ascii.eqb c double_quote then "&quot;"
  else if Ascii.eqb c "'" then "&#039;"
  else String c EmptyString.

Fixpoint escapeHtml (text : string) : string :=
  match text with
  | EmptyString => EmptyString
  | String c rest => entity c ++ escapeHtml rest
  end.

(** The five characters the pattern of [replace] matches. *)
Definition special (c : ascii) : bool :=
  existsb (Ascii.eqb c) ["&"; "<"; ">"; double_quote; "'"]%char.

Fixpoint occurs (c : ascii) (s : string) : bool :=
  match s with
  | EmptyString => false
  | String c1 rest => Ascii.eqb c c1 || occurs c rest
  end.

Fixpoint has_special (s : string) : bool :=
  match s with
  | EmptyString => false
  | String c rest => special c || has_special rest
  end.

End Html.

(** * calculateCompressionParams (js/compress.js)

    Frame sizes, frame rates and byte counts are whole numbers; the products
    and quotients of the bitrate are taken exactly, in [Q].  The bitrate
    with the rounding of JavaScript numbers is [CompressBitrate.bitrate]. *)

Module CompressParams.

Record Config : Type := {
  maxWidth : Z;
  maxHeight : Z;
  fps : Z;
  maxOutputSize : Z
}.

(** The configuration the constructor sets when none is given. *)
Definition default_config : Config :=
  {| maxWidth := 1280; maxHeight := 720; fps := 30;
     maxOutputSize := 100 * 1024 * 1024 |}.

Record VideoInfo : Type := {
  width : Z;
  height : Z;
  video_fps : Z;
  duration : Q
}.

Record Params : Type := {
  params_width : Z;
  params_height : Z;
  params_fps : Z;
  params_bitrate : string;
  params_preset : string
}.

(** [Math.round(x / 2) * 2] *)
Definition round_to_even (x : Z) : Z :=
  Display.Math_round (inject_Z x / (2 # 1))%Q * 2.

(** The number in [bitrate]: [Math.max(Math.floor(targetSize * 8 /
    durationSeconds / 1000), 500)]. *)
Definition bitrate_kbps (config : Config) (videoInfo : VideoInfo)
    (originalSize : Z) : Z :=
  let targetSize :=
    Qmin (inject_Z (maxOutputSize config))
         (inject_Z originalSize * (8 # 10))%Q in
  let durationSeconds :=
    if Qeq_bool (duration videoInfo) 0 then (100 # 1)%Q else duration videoInfo in
  Z.max (Qfloor (targetSize * (8 # 1) / durationSeconds / (1000 # 1))%Q) 500.

Definition calculateCompressionParams (config : Config) (videoInfo : VideoInfo)
    (originalSize : Z) : Params :=
  let width := Z.min (width videoInfo) (maxWidth config) in
  let height := Z.min (height videoInfo) (maxHeight config) in
  let width := round_to_even width in
  let height := round_to_even height in
  let bitrate := bitrate_kbps config videoInfo originalSize in
  {| params_width := width;
     params_height := height;
     params_fps :=
       Z.min (if video_fps videoInfo =? 0 then fps config else video_fps videoInfo)
             (fps config);
     params_bitrate := pretty bitrate ++ "k";
     params_preset := "fast" |}.

(** The video descriptor [compress] passes. *)
Definition videoInfo_of_compress : VideoInfo :=
  {| width := 1920; height := 1080; video_fps := 30; duration := (100 # 1)%Q |}.

End CompressParams.

(** * getReleaseIdFromPath (js/viewer.js) *)

Module Viewer.

Definition is_digit (c : ascii) : bool :=
  existsb (Ascii.eqb c) ["0"; "1"; "2"; "3"; "4"; "5"; "6"; "7"; "8"; "9"]%char.

(** The longest run of digits at the head: what [(\d+)] takes. *)
Fixpoint digits_prefix (s : string) : string :=
  match s with
  | EmptyString => EmptyString
  | String c rest => if is_digit c then String c (digits_prefix rest) else EmptyString
  end.

(** [pathname.match(/\/v\/(\d+)/)]: the leftmost place where "/v/" is
    followed by a digit, and the digits there; [null] is [None]. *)
Fixpoint getReleaseIdFromPath (pathname : string) : option string :=
  match pathname with
  | EmptyString => None
  | String c1 rest =>
      match rest with
      | String c2 (String c3 (String d after)) =>
          if Ascii.eqb c1 "/" && Ascii.eqb c2 "v" && Ascii.eqb c3 "/" && is_digit d
          then Some (digits_prefix (String d after))
          else getReleaseIdFromPath rest
      | _ => getReleaseIdFromPath rest
      end
  end.

(** The path of the share link that [showSuccess] builds:
    [`${origin}/v/${release_id}`]. *)
Definition share_path (release_id : Z) : string := "/v/" ++ pretty release_id.

Fixpoint all_digits (s : string) : bool :=
  match s with
  | EmptyString => true
  | String c rest => is_digit c && all_digits rest
  end.

End Viewer.

From Stdlib Require Import Qpower.

(** * JavaScript numbers, for the bitrate of calculateCompressionParams

    The bitrate is computed with the numbers of JavaScript, IEEE 754 binary64:
    every product and quotient is rounded to the nearest number with a
    significand of 53 bits (ties to the even one), becomes an infinity when it
    is too large, and loses precision when it is too small.  The two zeros
    are taken as one: the only place that tells them apart is a division by
    zero, and the divisors of the bitrate are never zero. *)

Module Binary64.

Inductive number : Type :=
  | Finite (value : Q)
  | Infinity (negative : bool)
  | NaN.

Definition pow2 (e : Z) : Q := Qpower (2 # 1) e.

Definition is_negative (x : Q) : bool := Qnum x <? 0.

(** The nearest integer, the even one of two that are as near. *)
Definition nearest_even (s : Q) : Z :=
  let f := Qfloor s in
  match Qcompare (s - inject_Z f) (1 # 2) with
  | Lt => f
  | Gt => f + 1
  | Eq => if Z.even f then f else f + 1
  end.

(** The exponent of the last bit of the significand of [a > 0]: the [e] with
    [2^52 <= a / 2^e < 2^53], and -1074 for the numbers too small for it. *)
Definition exponent (a : Q) : Z :=
  let l := Z.log2 (Qnum a) - Z.log2 (Z.pos (Qden a)) in
  Z.max (if Qle_bool (pow2 l) a then l - 52 else l - 53) (-1074).

(** The number that stands for the real [x]. *)
Definition round (x : Q) : number :=
  if Qeq_bool x 0 then Finite 0
  else
    let a := if is_negative x then (- x)%Q else x in
    let e := exponent a in
    let v := (inject_Z (nearest_even (a / pow2 e)) * pow2 e)%Q in
    if Qle_bool (pow2 1024) v then Infinity (is_negative x)
    else Finite (if is_negative x then (- v)%Q else v).

(** [a * b] *)
Definition mul (a b : number) : number :=
  match a, b with
  | NaN, _ | _, NaN => NaN
  | Finite x, Finite y => round (x * y)
  | Infinity s, Finite y | Finite y, Infinity s =>
      if Qeq_bool y 0 then NaN else Infinity (xorb s (is_negative y))
  | Infinity s, Infinity s' => Infinity (xorb s s')
  end.

(** [a / b] *)
Definition div (a b : number) : number :=
  match a, b with
  | NaN, _ | _, NaN => NaN
  | Finite x, Finite y =>
      if Qeq_bool y 0 then
        if Qeq_bool x 0 then NaN else Infinity (is_negative x)
      else round (x / y)
  | Finite _, Infinity _ => Finite 0
  | Infinity s, Finite y => Infinity (xorb s (is_negative y))
  | Infinity _, Infinity _ => NaN
  end.

Definition Math_min (a b : number) : number :=
  match a, b with
  | NaN, _ | _, NaN => NaN
  | Infinity true, _ | _, Infinity true => Infinity true
  | Infinity false, y => y
  | x, Infinity false => x
  | Finite x, Finite y => Finite (Qmin x y)
  end.

Definition Math_max (a b : number) : number :=
  match a, b with
  | NaN, _ | _, NaN => NaN
  | Infinity false, _ | _, Infinity false => Infinity false
  | Infinity true, y => y
  | x, Infinity true => x
  | Finite x, Finite y => Finite (Qmax x y)
  end.

Definition Math_floor (a : number) : number :=
  match a with
  | Finite x => Finite (inject_Z (Qfloor x))
  | other => other
  end.

(** [a || b]: zero and NaN are falsy. *)
Definition or_else (a b : number) : number :=
  match a with
  | NaN => b
  | Finite x => if Qeq_bool x 0 then b else a
  | Infinity _ => a
  end.

(** The number as a template literal writes it; [None] for the numbers that
    are written with a fraction or an exponent (those that are not whole, or
    are 10^21 or more), which the bitrate never is. *)
Definition to_text (a : number) : option string :=
  match a with
  | NaN => Some "NaN"
  | Infinity false => Some "Infinity"
  | Infinity true => Some "-Infinity"
  | Finite x =>
      let whole := Qfloor x in
      if Qeq_bool x (inject_Z whole) && (Z.abs whole <? 10 ^ 21)
      then Some (pretty whole) else None
  end.

End Binary64.

(** js/compress.js, [calculateCompressionParams]: the bitrate, with the
    numbers of JavaScript. *)

Module CompressBitrate.
Import Binary64.

(** [bitrate] and the text [`${bitrate}k`] of it. *)
Definition bitrate (maxOutputSize originalSize duration : number) : number :=
  let targetSize := Math_min maxOutputSize (mul originalSize (round (8 # 10))) in
  let durationSeconds := or_else duration (Finite (100 # 1)) in
  Math_max
    (Math_floor
       (div (div (mul targetSize (Finite (8 # 1))) durationSeconds)
            (Finite (1000 # 1))))
    (Finite (500 # 1)).

Definition bitrate_text (maxOutputSize originalSize duration : number)
    : option string :=
  match to_text (bitrate maxOutputSize originalSize duration) with
  | Some digits => Some (digits ++ "k")
  | None => None
  end.

End CompressBitrate.

(** * Successive invocations of the report handler *)

Module ReportSequence.
Import ReportSubmit.

(** The handler invoked once per element, the state of the function
    instance passed from one invocation to the next. *)
Fixpoint handler_calls (calls : list (Event * Env)) (st : FnState)
    : list Response * FnState :=
  match calls with
  | [] => ([], st)
  | (event, env) :: rest =>
      let '(response, st1) := handler event env st in
      let '(more, st2) := handler_calls rest st1 in
      (response :: more, st2)
  end.

Definition is_post (call : Event * Env) : bool :=
  String.eqb (httpMethod call.1) "POST".

(** The answer to a request whose method is not POST. *)
Definition other_method_response (event : Event) : Response :=
  if String.eqb (httpMethod event) "OPTIONS"
  then {| statusCode := 200; response_body := NoBody |}
  else {| statusCode := 405; response_body := ErrorBody "Method not allowed" |}.

(** The names [REPORT_REASONS[name]] finds: the six keys of the literal and
    the properties inherited from [Object.prototype]. *)
Definition found_in_REPORT_REASONS (name : string) : bool :=
  is_report_reason name || existsb (String.eqb name) Object_prototype.

(** The report the handler builds from a request. *)
Definition reportData_of (event : Event) (env : Env)
    (file_url release_id reason : string) (info : option string) : ReportData :=
  {| report_id := env_uuid env;
     rd_file_url := file_url;
     rd_release_id := release_id;
     rd_reason := reason;
     rd_additionalInfo := or_else info "";
     reporter_ip := client_ip event;
     rd_timestamp := env_timestamp env |}.

End ReportSequence.

(** * What a computation leaves as it is *)

Module Frame.
Import Browser.

(** [R] relates the world a computation starts in to the world it ends in,
    whether it returns or throws. *)
Definition always {A} (R : World -> World -> Prop) (m : M A) : Prop :=
  forall w, R w (m w).2.

(** The part [f] of the world is the same before and after. *)
Definition unchanged {B} (f : World -> B) : World -> World -> Prop :=
  fun w w1 => f w1 = f w.

(** What the encoders have no business with: the requests sent to the
    function layer ([fetch] on github-upload and file-info), the manager with
    its cache, and the upload history.  What the encoder library itself
    downloads when it loads (its core, from a CDN) is not among these
    requests. *)
Definition beyond_encoder (w : World) : list Request * Manager * list UploadRecord :=
  (requests w, github w, storage w).

(** What the delivery has no business with: the encoder's files, the
    upload history, and the manager with its cache. *)
Definition beyond_delivery (w : World)
    : gmap string (list Byte.byte) * list UploadRecord * Manager :=
  (FS w, storage w, github w).

End Frame.

(** * Requests of the delivery pipeline *)

Module Delivery.
Import Browser.

Definition github_upload (w : World) (action : Action) : Request :=
  {| request_url := apiBaseUrl (github w) ++ "/github-upload";
     request_method := "POST";
     request_action := action |}.

(** The request [createRelease] sends for [uploadWithMetadata]. *)
Definition create_request (w : World) (metadata : Metadata) : Request :=
  github_upload w (CreateRelease ("video_" ++ file_id metadata) metadata).

(** The request [uploadAsset] sends for [uploadWithMetadata]. *)
Definition asset_request (w : World) (fileBlob : Blob) (metadata : Metadata)
    (uploadUrl : option Json) : Request :=
  github_upload w
    (UploadAsset uploadUrl (file_id metadata ++ ".mp4") (blob_bytes fileBlob)).

End Delivery.

(** * How a run of an orchestrator ends *)

Module Orchestration.
Import Browser.

(** The run returned, and either shows the success screen with one record
    added to the upload history (one call of [addUpload]), or shows the
    error screen with a message that is not empty and the history as it
    was. *)
Definition recorded_or_failed (run : Outcome unit * World) (w : World) : Prop :=
  run.1 = Ok tt
  /\ ((screen (page run.2) = SuccessArea
       /\ exists record, storage run.2 = (storage w ++ [record])%list)
      \/ (exists message,
            screen (page run.2) = ErrorArea message
            /\ message <> ""
            /\ storage run.2 = storage w)).

End Orchestration.

(** * js/compress.js: the initialisation of the engine

    [initFFmpeg] runs when the engine is constructed and, each time it
    fails, again one second later.  What it reads from its surroundings is
    given as a function of the instant: whether [window.FFmpeg] and
    [window.FFmpeg.FFmpeg] are defined, whether [new FFmpeg.FFmpeg()] throws,
    how long [load] takes and whether it rejects, and how late a timer
    fires ([setTimeout] runs its callback at the instant asked for or
    later). *)

Module EngineInit.

Record Surroundings : Type := {
  script_at : Z -> bool;
  class_at : Z -> bool;
  construct_at : Z -> option string;
  load_at : Z -> N * option string;
  late_at : Z -> N            (* what a timer due at this instant is late by *)
}.

(** The fields of the engine that the initialisation writes, the clock, and
    the instants at which a retry is due ([setTimeout]). *)
Record Engine : Type := {
  ffmpeg : bool;              (* [this.ffmpeg] holds an instance *)
  isReady : bool;
  isInitializing : bool;
  now : Z;
  retries : list Z
}.

Definition tick (ms : Z) (e : Engine) : Engine :=
  {| ffmpeg := ffmpeg e; isReady := isReady e; isInitializing := isInitializing e;
     now := now e + ms; retries := retries e |}.

(** The instant at which a timer that is due at [due] fires. *)
Definition fires_at (env : Surroundings) (due : Z) : Z :=
  due + Z.of_N (late_at env due).

(** The instant of the k-th look of [waitForFFmpegScript] at the script,
    the first look being at [start]. *)
Fixpoint poll (env : Surroundings) (start : Z) (k : nat) : Z :=
  match k with
  | O => start
  | S k => fires_at env (poll env start k + 100)
  end.

(** The loop of [waitForFFmpegScript]; every round that finds the script
    missing sleeps until its timer of 100 ms fires.  [rounds] bounds the number of rounds; the bound
    that [waitForFFmpegScript] passes is never reached. *)
Fixpoint waitForFFmpegScript_loop (env : Surroundings) (rounds : nat)
    (startTime maxWait : Z) (e : Engine) : Outcome unit * Engine :=
  match rounds with
  | O => (Throw "waitForFFmpegScript: still polling", e)
  | S rounds =>
      if script_at env (now e) then (Ok tt, e)
      else if now e - startTime >? maxWait
           then (Throw "FFmpeg script failed to load within timeout", e)
           else waitForFFmpegScript_loop env rounds startTime maxWait
                  (tick (fires_at env (now e + 100) - now e) e)
  end.

Definition waitForFFmpegScript (env : Surroundings) (maxWait : Z) (e : Engine)
    : Outcome unit * Engine :=
  waitForFFmpegScript_loop env (Z.to_nat (maxWait / 100) + 2) (now e) maxWait e.

(** Steps 2 to 5 of the [try] block of [initFFmpeg], after the check that
    follows the wait. *)
Definition create_and_load (env : Surroundings) (e : Engine)
    : Outcome unit * Engine :=
  if negb (script_at env (now e)) then (Throw "FFmpeg script did not load", e)
  else if negb (class_at env (now e)) then
    (Throw "FFmpeg.FFmpeg class not found", e)
  else
    match construct_at env (now e) with
    | Some message => (Throw message, e)
    | None =>
        let e := {| ffmpeg := true; isReady := isReady e;
                    isInitializing := isInitializing e;
                    now := now e; retries := retries e |} in
        let '(duration, rejected) := load_at env (now e) in
        let e := tick (Z.of_N duration) e in
        match rejected with
        | Some message => (Throw message, e)
        | None =>
            (Ok tt,
             {| ffmpeg := ffmpeg e; isReady := true; isInitializing := false;
                now := now e; retries := retries e |})
        end
    end.

(** The [try] block of [initFFmpeg]. *)
Definition attempt (env : Surroundings) (e : Engine) : Outcome unit * Engine :=
  let '(waited, e) :=
    if negb (script_at env (now e)) then waitForFFmpegScript env 10000 e
    else (Ok tt, e) in
  match waited with
  | Throw message => (Throw message, e)
  | Ok _ => create_and_load env e
  end.

Definition initFFmpeg (env : Surroundings) (e : Engine) : Engine :=
  if isInitializing e then e
  else
    let e := {| ffmpeg := ffmpeg e; isReady := isReady e; isInitializing := true;
                now := now e; retries := retries e |} in
    match attempt env e with
    | (Ok _, e1) => e1
    | (Throw _, e1) =>
        {| ffmpeg := ffmpeg e1; isReady := false; isInitializing := false;
           now := now e1; retries := (retries e1 ++ [now e1 + 1000])%list |}
    end.

(** [new VideoCompressionEngine()] at the instant [t]. *)
Definition constructor (env : Surroundings) (t : Z) : Engine :=
  initFFmpeg env
    {| ffmpeg := false; isReady := false; isInitializing := false;
       now := t; retries := [] |}.

(** The retry that is due first fires, at its instant or later. *)
Definition fire (env : Surroundings) (e : Engine) : Engine :=
  match retries e with
  | [] => e
  | t :: rest =>
      initFFmpeg env
        {| ffmpeg := ffmpeg e; isReady := isReady e;
           isInitializing := isInitializing e; now := fires_at env t;
           retries := rest |}
  end.

Fixpoint fire_times (n : nat) (env : Surroundings) (e : Engine) : Engine :=
  match n with
  | O => e
  | S n => fire_times n env (fire env e)
  end.

End EngineInit.

(** * js/compress.js with timers that may fire late

    [setTimeout(resolve, 500)] resolves 500 ms later or later still.  Here
    the wait of [waitUntilReady] is taken with that: [late t] is what a timer
    set at the instant [t] adds to the 500 ms it was asked for.  With
    [late] zero everywhere these are [Compress.waitUntilReady] and
    [Compress.compress]. *)

Module LateTimers.
Import Browser.

(** The instant of the k-th look at the engine, the first look being at
    [start]. *)
Fixpoint look (late : Z -> N) (start : Z) (k : nat) : Z :=
  match k with
  | O => start
  | S k => let t := look late start k in t + 500 + Z.of_N (late t)
  end.

(** The polling loop of [waitUntilReady]; [rounds] bounds the number of
    rounds, and the bound that [waitUntilReady] passes is never reached. *)
Fixpoint waitUntilReady_loop (late : Z -> N) (rounds : nat)
    (startTime maxWait : Z) : M bool :=
  match rounds with
  | O => throw "waitUntilReady: still polling"
  | S rounds =>
      isReady <- gets (fun w => isReady_at (outside w) (clock w)) ;;
      if isReady then ret true
      else
        now <- gets clock ;;
        if now - startTime >? maxWait then
          throw "FFmpeg initialization timeout"
        else
          modify (fun w =>
            set_clock (clock w + 500 + Z.of_N (late (clock w))) w) ;;;
          waitUntilReady_loop late rounds startTime maxWait
  end.

Definition waitUntilReady (late : Z -> N) (maxWait : Z) : M bool :=
  startTime <- gets clock ;;
  waitUntilReady_loop late (Z.to_nat (maxWait / 500) + 2) startTime maxWait.

Definition compress (late : Z -> N) (file : Blob) (onProgress : Callback)
    : M Blob :=
  try_catch
    (waitUntilReady late 30000 ;;;
     onProgress (5 # 1)%Q "Loading video..." ;;;
     fileData <- FFmpeg.readFile file ;;
     let inputFileName := "input.mp4" in
     let outputFileName := "output.mp4" in
     FFmpeg.FS_writeFile inputFileName fileData ;;;
     onProgress (15 # 1)%Q "Analyzing video..." ;;;
     onProgress (20 # 1)%Q "Starting compression..." ;;;
     Compress.runCompression inputFileName outputFileName onProgress ;;;
     onProgress (95 # 1)%Q "Finalizing..." ;;;
     compressedData <- FFmpeg.FS_readFile outputFileName ;;
     let blob := {| blob_name := None; blob_type := "video/mp4";
                    blob_bytes := compressedData |} in
     try_catch
       (FFmpeg.FS_unlink UnlinkInput inputFileName ;;;
        FFmpeg.FS_unlink UnlinkOutput outputFileName)
       (fun _ => console_warn "⚠️ Could not clean up files") ;;;
     onProgress (100 # 1)%Q "Complete!" ;;;
     ret blob)
    (fun message =>
       console_warn ("❌ Compression failed: " ++ message) ;;;
       throw ("Compression failed: " ++ message)).

End LateTimers.

(** * netlify/functions/analyze.js: the quotation proxy

    The handler forwards one of four actions to an upstream service.  The
    URL of the upstream request is kept as the action with its arguments;
    the answer of the upstream service is given by the surroundings. *)

Module StockProxy.
Import Browser.

(** An error object: its message and its [statusCode] property, if set. *)
Inductive Res (A : Type) : Type :=
| Return (a : A)
| Raise (message : string) (statusCode : option Z).
Arguments Return {A} a.
Arguments Raise {A} message statusCode.

Inductive Upstream : Type :=
| Quote (symbol key : string)
| Candles (symbol : string) (resolution from to : Json) (key : string)
| Profile (symbol key : string)
| Latest (key fromCurrency : string).

(** [JSON.parse(data || "{}")] of what the upstream service sent. *)
Inductive ReplyData : Type :=
| BadJson (message : string)
| Value (parsed : Json).

Inductive Reply : Type :=
| NetworkError (message : string)
| Response (statusCode : Z) (data : ReplyData).

(** [builtin_truthy v key]: whether [v[key]] is truthy for a value [v] that
    is not a plain object (the length and the methods of strings and arrays,
    the methods of numbers and booleans).  [text_of v]: the text [String(v)]
    that the runtime gives for a truthy value [v] that is not a string (the
    decimal text of a number, the joined elements of an array, and so on),
    as [new Error(v)] takes it for its message. *)
Record Surroundings : Type := {
  FINNHUB_KEY : option string;
  EXCHANGE_RATE_KEY : option string;
  upstream : Upstream -> Reply;
  builtin_truthy : Json -> string -> bool;
  text_of : Json -> string
}.

(** The body of a request; [event.body] may be missing or empty. *)
Inductive EventBody : Type :=
| NoBody
| Unparseable (message : string)
| Parsed (v : Json).

Record Event : Type := {
  httpMethod : string;
  body : EventBody
}.

(** Where [conversion_rates[toCurrency]] was found. *)
Inductive Rate : Type :=
| OwnRate (v : Json)
| InheritedRate (name : string)
| BuiltinRate.

Inductive Result : Type :=
| Data (v : Json)
| Exchange (base target : string) (rate : Rate).

Inductive Body : Type :=
| ErrorBody (message : string)      (* { error } *)
| ResultBody (result : Result).

Record Answer : Type := {
  statusCode : Z;
  answer_body : Body
}.

Definition MISSING_KEY : string := "APIキーが設定されていません".
Definition INVALID_ACTION : string := "無効なアクションです".
Definition INVALID_SYMBOL : string := "シンボルが指定されていません".
Definition NETWORK_ERROR : string := "ネットワークエラーが発生しました".
Definition PARSE_ERROR : string := "JSONパースエラーが発生しました".
Definition METHOD_NOT_ALLOWED : string := "POSTのみ対応しています".

(** [v.key] and [v?.key] for a key that no prototype defines. *)
Definition field (v : Json) (key : string) : option Json :=
  match v with
  | JObj fields => assoc fields key
  | _ => None
  end.

(** [new Error(v || fallback).message] *)
Definition error_message (env : Surroundings) (v : option Json)
    (fallback : string) : string :=
  if truthy v then
    match v with
    | Some (JStr s) => s
    | Some other => text_of env other
    | None => fallback
    end
  else fallback.

(** A computation that may raise, with the upstream requests it sent. *)
Definition Sent (A : Type) : Type := Res A * list Upstream.

Definition fetchJSON (env : Surroundings) (url : Upstream) : Sent Json :=
  (match upstream env url with
   | NetworkError message =>
       Raise (NETWORK_ERROR ++ ": " ++ message) (Some 502)
   | Response status (BadJson message) =>
       Raise (PARSE_ERROR ++ ": " ++ message) None
   | Response status (Value parsed) =>
       if (status <? 200) || (status >=? 300) then
         Raise (error_message env (field parsed "error")
                  (error_message env (field parsed "message")
                     ("Upstream HTTP " ++ pretty status)))
               (Some 502)
       else Return parsed
   end, [url]).

Definition parseEventBody (event : Event) : Res Json :=
  match body event with
  | NoBody => Return (JObj [])
  | Unparseable message =>
      Raise ("リクエストボディのパースに失敗しました: " ++ message) (Some 400)
  | Parsed v => Return v
  end.

Definition requireKey (name : string) (value : option string) : Res unit :=
  if negb (truthy_str value) then Raise (MISSING_KEY ++ ": " ++ name) (Some 500)
  else Return tt.

(** [!v || typeof v !== "string"] is false: a string that is not empty. *)
Definition nonempty_string (v : option Json) : option string :=
  match v with
  | Some (JStr s) => if String.eqb s "" then None else Some s
  | _ => None
  end.

Definition with_symbol (env : Surroundings) (symbol : option Json)
    (url : string -> string -> Upstream) : Sent Json :=
  match requireKey "FINNHUB_KEY" (FINNHUB_KEY env) with
  | Raise message status => (Raise message status, [])
  | Return _ =>
      match nonempty_string symbol with
      | None => (Raise INVALID_SYMBOL (Some 400), [])
      | Some s => fetchJSON env (url s (default "" (FINNHUB_KEY env)))
      end
  end.

Definition getStockQuote (env : Surroundings) (symbol : option Json) : Sent Json :=
  with_symbol env symbol Quote.

Definition getStockCandles (env : Surroundings)
    (symbol resolution from to : option Json) : Sent Json :=
  match requireKey "FINNHUB_KEY" (FINNHUB_KEY env) with
  | Raise message status => (Raise message status, [])
  | Return _ =>
      match nonempty_string symbol with
      | None => (Raise INVALID_SYMBOL (Some 400), [])
      | Some s =>
          match resolution, from, to with
          | Some r, Some f, Some t =>
              if negb (truthy (Some r)) || negb (truthy (Some f))
                 || negb (truthy (Some t))
              then (Raise "resolution, from, toは必須です" (Some 400), [])
              else fetchJSON env (Candles s r f t (default "" (FINNHUB_KEY env)))
          | _, _, _ => (Raise "resolution, from, toは必須です" (Some 400), [])
          end
      end
  end.

Definition getCompanyProfile (env : Surroundings) (symbol : option Json)
    : Sent Json :=
  with_symbol env symbol Profile.

(** [data?.conversion_rates?.[toCurrency]], when it is truthy. *)
Definition find_rate (env : Surroundings) (data : Json) (toCurrency : string)
    : option Rate :=
  match field data "conversion_rates" with
  | None | Some JNull => None
  | Some (JObj fields) =>
      match assoc fields toCurrency with
      | Some v => if truthy (Some v) then Some (OwnRate v) else None
      | None =>
          if existsb (String.eqb toCurrency) ReportSubmit.Object_prototype
          then Some (InheritedRate toCurrency)
          else None
      end
  | Some other =>
      if builtin_truthy env other toCurrency then Some BuiltinRate else None
  end.

Definition getExchangeRate (env : Surroundings)
    (fromCurrency toCurrency : option Json) : Sent Result :=
  match requireKey "EXCHANGE_RATE_KEY" (EXCHANGE_RATE_KEY env) with
  | Raise message status => (Raise message status, [])
  | Return _ =>
      match nonempty_string fromCurrency with
      | None => (Raise "fromCurrencyが指定されていません" (Some 400), [])
      | Some base =>
          match nonempty_string toCurrency with
          | None => (Raise "toCurrencyが指定されていません" (Some 400), [])
          | Some target =>
              match fetchJSON env
                      (Latest (default "" (EXCHANGE_RATE_KEY env)) base) with
              | (Raise message status, sent) => (Raise message status, sent)
              | (Return data, sent) =>
                  match find_rate env data target with
                  | None =>
                      (Raise ("Rate not found: " ++ target) (Some 502), sent)
                  | Some rate => (Return (Exchange base target rate), sent)
                  end
              end
          end
      end
  end.

Definition data_of (r : Sent Json) : Sent Result :=
  match r with
  | (Return v, sent) => (Return (Data v), sent)
  | (Raise message status, sent) => (Raise message status, sent)
  end.

(** The [try] block of the handler: it returns an answer or raises. *)
Definition handle (env : Surroundings) (event : Event) : Sent Answer :=
  if negb (String.eqb (httpMethod event) "POST") then
    (Return {| statusCode := 405; answer_body := ErrorBody METHOD_NOT_ALLOWED |}, [])
  else
    match parseEventBody event with
    | Raise message status => (Raise message status, [])
    | Return JNull =>
        (Raise "Cannot destructure property 'action' of 'parseEventBody(...)' as it is null."
               None, [])
    | Return parsed =>
        match nonempty_string (field parsed "action") with
        | None =>
            (Return {| statusCode := 400; answer_body := ErrorBody INVALID_ACTION |},
             [])
        | Some action =>
            let result :=
              if String.eqb action "quote" then
                Some (data_of (getStockQuote env (field parsed "symbol")))
              else if String.eqb action "candles" then
                Some (data_of (getStockCandles env (field parsed "symbol")
                                 (field parsed "resolution") (field parsed "from")
                                 (field parsed "to")))
              else if String.eqb action "profile" then
                Some (data_of (getCompanyProfile env (field parsed "symbol")))
              else if String.eqb action "exchange" then
                Some (getExchangeRate env (field parsed "fromCurrency")
                        (field parsed "toCurrency"))
              else None in
            match result with
            | None =>
                (Return {| statusCode := 400;
                           answer_body := ErrorBody ("不正なアクション: " ++ action) |},
                 [])
            | Some (Return r, sent) =>
                (Return {| statusCode := 200; answer_body := ResultBody r |}, sent)
            | Some (Raise message status, sent) => (Raise message status, sent)
            end
        end
    end.

(** [error.statusCode || 500] *)
Definition status_or_500 (status : option Z) : Z :=
  match status with
  | Some s => if s =? 0 then 500 else s
  | None => 500
  end.

Definition handler (env : Surroundings) (event : Event) : Answer * list Upstream :=
  match handle env event with
  | (Return answer, sent) => (answer, sent)
  | (Raise message status, sent) =>
      ({| statusCode := status_or_500 status; answer_body := ErrorBody message |},
       sent)
  end.

(** A configured proxy whose upstream service is out of order, and a
    request for a quotation. *)
Definition sample_env : Surroundings :=
  {| FINNHUB_KEY := Some "key-1";
     EXCHANGE_RATE_KEY := Some "key-2";
     upstream := fun _ =>
       Response 503 (Value (JObj [("error", JStr "Service Unavailable")]));
     builtin_truthy := fun _ _ => false;
     text_of := fun _ => "[object Object]" |}.


(** A proxy whose upstream service lists two rates, and a request for the
    rate of a currency named after a property that every object has. *)
Definition rates_env : Surroundings :=
  {| FINNHUB_KEY := Some "key-1";
     EXCHANGE_RATE_KEY := Some "key-2";
     upstream := fun _ =>
       Response 200
         (Value (JObj [("result", JStr "success");
                       ("conversion_rates",
                        JObj [("USD", JNum 1); ("JPY", JNum 151)])]));
     builtin_truthy := fun _ _ => false;
     text_of := fun _ => "[object Object]" |}.

Definition exchange_event (target : string) : Event :=
  {| httpMethod := "POST";
     body := Parsed (JObj [("action", JStr "exchange");
                           ("fromCurrency", JStr "USD");
                           ("toCurrency", JStr target)]) |}.

End StockProxy.

(** * Properties of the rate limiter and the report handler *)

Section ReportSubmitProperties.
Import ReportSubmit.

Lemma window_positive : 0 < window.
Proof. unfold window. lia. Qed.

Lemma check_fresh (m : gmap string RateRecord) ip now :
  m !! ip = None ->
  checkReportRateLimit now ip m
  = (true, <[ip := {| count := 1; resetTime := now + window |}]> m).
Proof.
  intros Hnone. unfold checkReportRateLimit. rewrite Hnone. cbn.
  pose proof window_positive.
  destruct (Z.gtb_spec now (now + window)); [lia | reflexivity].
Qed.

Lemma check_in_window (m : gmap string RateRecord) ip now r :
  m !! ip = Some r -> now <= resetTime r ->
  checkReportRateLimit now ip m
  = (count r + 1 <=? 10,
     <[ip := {| count := count r + 1; resetTime := resetTime r |}]> m).
Proof.
  intros Hsome Hle. unfold checkReportRateLimit. rewrite Hsome.
  destruct (Z.gtb_spec now (resetTime r)); [lia | reflexivity].
Qed.

Lemma check_window_passed (m : gmap string RateRecord) ip now r :
  m !! ip = Some r -> resetTime r < now ->
  checkReportRateLimit now ip m
  = (true, <[ip := {| count := 1; resetTime := now + window |}]> m).
Proof.
  intros Hsome Hlt. unfold checkReportRateLimit. rewrite Hsome.
  destruct (Z.gtb_spec now (resetTime r)); [reflexivity | lia].
Qed.

Lemma check_counts (m : gmap string RateRecord) ip now :
  exists r,
    (checkReportRateLimit now ip m).2 !! ip = Some r
    /\ count r = count_before now (m !! ip) + 1
    /\ (checkReportRateLimit now ip m).1 = (count r <=? 10).
Proof.
  unfold checkReportRateLimit, count_before. cbn.
  destruct (m !! ip) as [r|]; cbn.
  - destruct (now >? resetTime r); cbn;
      (eexists; split; [apply lookup_insert_eq | split; reflexivity]).
  - pose proof window_positive.
    destruct (Z.gtb_spec now (now + window)); [lia|].
    eexists; split; [apply lookup_insert_eq | split; reflexivity].
Qed.

Lemma calls_in_window ip (instants : list Z) :
  forall (m : gmap string RateRecord) r,
    m !! ip = Some r ->
    Forall (fun now => now <= resetTime r) instants ->
    rate_limit_calls ip instants m
    = (map (fun k => count r + Z.of_nat k <=? 10) (seq 1 (length instants)),
       <[ip := {| count := count r + Z.of_nat (length instants);
                  resetTime := resetTime r |}]> m).
Proof.
  induction instants as [|now rest IH]; intros m r Hsome Hall.
  - cbn. f_equal. rewrite insert_id; [reflexivity|].
    rewrite Hsome. destruct r; cbn. do 2 f_equal. lia.
  - inversion Hall as [|? ? Hnow Hrest]; subst.
    cbn [rate_limit_calls].
    rewrite (check_in_window m ip now r Hsome Hnow).
    rewrite (IH _ {| count := count r + 1; resetTime := resetTime r |});
      [ | apply lookup_insert_eq | exact Hrest ].
    cbn [count resetTime length seq map]. f_equal.
    + f_equal. rewrite <- (seq_shift (length rest) 1), map_map.
      apply map_ext. intros k. f_equal. lia.
    + rewrite insert_insert_eq. do 2 f_equal. lia.
Qed.

(** C2.  The window is one hour (3 600 000 ms).  A fresh client calls at
    [first] and then at [later] instants, none after the reset instant
    [first + window]: the k-th call is allowed exactly when k <= 10 (calls 1
    to 10 return true, call 11 and the following return false), and the
    counter holds the number of calls made, rejected ones included.  A call at
    an instant past the stored reset instant is allowed and leaves the counter
    at 1 with the reset instant [now + window]. *)
Theorem C2_rate_limiter_fixed_window
    (m : gmap string RateRecord) (ip : string) (first : Z) (later : list Z)
    (after : Z) :
  m !! ip = None ->
  Forall (fun now => now <= first + window) later ->
  first + window < after ->
  let calls := length (first :: later) in
  let '(allowed, m1) := rate_limit_calls ip (first :: later) m in
  window = 3600000
  /\ allowed = map (fun k => Z.of_nat k <=? 10) (seq 1 calls)
  /\ m1 !! ip = Some {| count := Z.of_nat calls; resetTime := first + window |}
  /\ checkReportRateLimit after ip m1
     = (true, <[ip := {| count := 1; resetTime := after + window |}]> m1).
Proof.
  intros Hfresh Hall Hafter calls.
  cbn [rate_limit_calls].
  rewrite (check_fresh m ip first Hfresh).
  rewrite (calls_in_window ip later _ {| count := 1; resetTime := first + window |});
    [ | apply lookup_insert_eq | exact Hall ].
  cbn [count resetTime].
  split; [reflexivity|].
  split; [|split].
  - subst calls. cbn [length seq map]. f_equal.
    rewrite <- (seq_shift (length later) 1), map_map.
    apply map_ext. intros k. f_equal. lia.
  - rewrite lookup_insert_eq. do 2 f_equal. subst calls. cbn [length]. lia.
  - eapply check_window_passed; [apply lookup_insert_eq | cbn; lia].
Qed.

Lemma C2_witness :
  let m : gmap string RateRecord := ∅ in
  let later := [1000; 1001; 1002; 1003; 1004; 1005; 1006; 1007; 1008; 1009; 1010] in
  let '(allowed, m1) := rate_limit_calls "198.51.100.7" (1000 :: later) m in
  window = 3600000
  /\ allowed = [true; true; true; true; true; true; true; true; true; true; false; false]
  /\ m1 !! "198.51.100.7" = Some {| count := 12; resetTime := 1000 + window |}
  /\ checkReportRateLimit 3700000 "198.51.100.7" m1
     = (true, <[ "198.51.100.7" := {| count := 1; resetTime := 3700000 + window |}]> m1).
Proof.
  apply (C2_rate_limiter_fixed_window ∅ "198.51.100.7" 1000
           [1000; 1001; 1002; 1003; 1004; 1005; 1006; 1007; 1008; 1009; 1010]
           3700000).
  - reflexivity.
  - unfold window. repeat constructor; lia.
  - unfold window. lia.
Defined.

#[local] Arguments checkReportRateLimit : simpl never.
#[local] Arguments handle_report : simpl never.

(** A reason that is neither a key of [REPORT_REASONS] nor inherited is
    rejected by name, and nothing is sent. *)
Lemma unknown_reason_rejected event env st file_url release_id reason info :
  httpMethod event = "POST" ->
  event_body event = BodyJson (Some file_url) (Some release_id) (Some reason) info ->
  file_url <> "" -> release_id <> "" -> reason <> "" ->
  get_property REPORT_REASONS reason = None ->
  (checkReportRateLimit (env_now env) (client_ip event) (reportRateLimit st)).1 = true ->
  (handler event env st).1
  = {| statusCode := 400;
       response_body := FailureBody ("Invalid reason: " ++ reason) |}
  /\ webhook_requests (handler event env st).2 = webhook_requests st.
Proof.
  intros Hpost Hbody Hf Hr Hx Hprop Hallowed.
  unfold handler. rewrite Hpost. cbn [String.eqb Ascii.eqb Bool.eqb negb].
  cbn.
  destruct (checkReportRateLimit _ _ _) as [allowed limits]. cbn in Hallowed.
  subst allowed. cbn [negb].
  unfold handle_report. rewrite Hbody. cbn [truthy_str default from_option].
  apply String.eqb_neq in Hf, Hr, Hx. rewrite Hf, Hr, Hx. cbn [negb orb].
  unfold id. rewrite Hprop. cbn. split; reflexivity.
Qed.

(** C7.  The reason "constructor" is not one of the six enumerated reasons,
    yet [REPORT_REASONS["constructor"]] finds the inherited property and is
    truthy: the handler hands the report to the webhook and answers 200. *)
Theorem C7_inherited_reason_is_accepted :
  is_report_reason "constructor" = false
  /\ statusCode (handler inherited_reason_report sample_env fresh_state).1 = 200
  /\ response_body (handler inherited_reason_report sample_env fresh_state).1
     = SuccessBody "3f2b8c1e-7a4d-4e6f-9b0a-5c1d2e3f4a5b"
         "2023-11-14T22:13:20.000Z" "Report submitted successfully"
  /\ map (fun p => rd_reason (payload_report p))
         (webhook_requests (handler inherited_reason_report sample_env fresh_state).2)
     = ["constructor"].
Proof. repeat split; vm_compute; reflexivity. Qed.

(** C10.  For every POST the limiter runs first, whatever the body holds:
    the client's counter is one more than the counter the call started from;
    past the ceiling the answer is 429; within the ceiling a request that
    fails validation is answered 400.  In both cases nothing is sent to the
    webhook, and the counter has been incremented all the same. *)
Theorem C10_rate_limit_precedes_validation (event : Event) (env : Env) (st : FnState) :
  httpMethod event = "POST" ->
  let ip := client_ip event in
  let '(response, st1) := handler event env st in
  exists r,
    reportRateLimit st1 !! ip = Some r
    /\ reportRateLimit st1
       = (checkReportRateLimit (env_now env) ip (reportRateLimit st)).2
    /\ count r = count_before (env_now env) (reportRateLimit st !! ip) + 1
    /\ (10 < count r ->
        statusCode response = 429 /\ webhook_requests st1 = webhook_requests st)
    /\ (count r <= 10 -> fails_validation event = true ->
        statusCode response = 400 /\ webhook_requests st1 = webhook_requests st).
Proof.
  intros Hpost ip.
  destruct (check_counts (reportRateLimit st) ip (env_now env))
    as (r & Hlookup & Hcount & Hallowed).
  unfold handler. rewrite Hpost. cbn [String.eqb Ascii.eqb Bool.eqb negb].
  cbn. fold ip.
  destruct (checkReportRateLimit (env_now env) ip (reportRateLimit st))
    as [allowed limits] eqn:Hcheck.
  cbn [fst snd] in Hlookup, Hallowed.
  destruct allowed; cbn [negb].
  - (* within the ceiling *)
    symmetry in Hallowed. apply Z.leb_le in Hallowed.
    unfold handle_report, fails_validation.
    destruct (event_body event) as [ | message | f x y a ]; cbn.
    + exists r. repeat split; try assumption; lia.
    + exists r. repeat split; try assumption; lia.
    + destruct (truthy_str f), (truthy_str x), (truthy_str y); cbn;
        try (exists r; repeat split; try assumption; lia).
      destruct (js_truthy (get_property REPORT_REASONS (default "" y))); cbn.
      * unfold sendDiscordWebhook.
        destruct (env_webhook_url env); [destruct (env_webhook env)|]; cbn;
          exists r; repeat split; try assumption; try lia; discriminate.
      * exists r. repeat split; try assumption; lia.
  - (* past the ceiling *)
    symmetry in Hallowed. apply Z.leb_gt in Hallowed.
    cbn. exists r. repeat split; try assumption; lia.
Qed.

Lemma C10_witness :
  let event :=
    {| httpMethod := "POST"; header_client_ip := None;
       header_x_forwarded_for := Some "203.0.113.9";
       event_body := BodyMalformed "Unexpected token" |} in
  let st :=
    {| reportRateLimit :=
         {[ "203.0.113.9" := {| count := 10; resetTime := 1700000001000 |} ]};
       webhook_requests := [] |} in
  let '(response, st1) := handler event sample_env st in
  exists r,
    reportRateLimit st1 !! "203.0.113.9" = Some r
    /\ reportRateLimit st1
       = (checkReportRateLimit (env_now sample_env) "203.0.113.9"
            (reportRateLimit st)).2
    /\ count r
       = count_before (env_now sample_env) (reportRateLimit st !! "203.0.113.9") + 1
    /\ (10 < count r ->
        statusCode response = 429 /\ webhook_requests st1 = webhook_requests st)
    /\ (count r <= 10 -> fails_validation event = true ->
        statusCode response = 400 /\ webhook_requests st1 = webhook_requests st).
Proof.
  exact (C10_rate_limit_precedes_validation
           {| httpMethod := "POST"; header_client_ip := None;
              header_x_forwarded_for := Some "203.0.113.9";
              event_body := BodyMalformed "Unexpected token" |}
           sample_env
           {| reportRateLimit :=
                {[ "203.0.113.9" := {| count := 10; resetTime := 1700000001000 |} ]};
              webhook_requests := [] |}
           eq_refl).
Defined.

End ReportSubmitProperties.

(** * Properties of the response cache *)

Section CacheProperties.
Import Browser GitHubUploadManagerNetlify.

Lemma withCache_hit key fn w entry :
  cache (github w) !! key = Some entry ->
  clock w < expiresAt entry ->
  withCache key fn w = (Ok (value entry), w).
Proof.
  intros Hsome Hfresh. unfold withCache, bind, gets, ret. cbn.
  rewrite Hsome. apply Z.ltb_lt in Hfresh. rewrite Hfresh. reflexivity.
Qed.

Lemma withCache_miss key fn w :
  cache_hit (clock w) (cache (github w) !! key) = false ->
  withCache key fn w = computed key fn w.
Proof.
  intros Hmiss. unfold withCache, computed, stored, bind, gets, ret, modify. cbn.
  unfold cache_hit in Hmiss.
  destruct (cache (github w) !! key) as [entry|]; [rewrite Hmiss|];
    destruct (fn w) as [[v|message] w1]; reflexivity.
Qed.

Lemma includes_refl key : includes key key = true.
Proof.
  assert (Hprefix : forall s, String.prefix s s = true).
  { induction s as [|a s IH]; [reflexivity|]. cbn.
    destruct (Ascii.ascii_dec a a); [exact IH | congruence]. }
  destruct key; cbn; [reflexivity|].
  apply orb_true_iff. left. apply (Hprefix (String _ _)).
Qed.

Lemma clearCache_removes pattern key w :
  includes key pattern = true ->
  exists w1, clearCache (Some pattern) w = (Ok tt, w1)
    /\ cache (github w1) !! key = None
    /\ clock w1 = clock w.
Proof.
  intros Hincl. unfold clearCache, modify.
  destruct (truthy_str (Some pattern)); cbn.
  - eexists; split; [reflexivity|]. split; [|reflexivity]. cbn.
    apply map_lookup_filter_None. right. intros entry _. cbn. congruence.
  - eexists; split; [reflexivity|]. split; [|reflexivity]. cbn.
    apply lookup_empty.
Qed.

(** Case analysis on every branch taken by a run that is known to have
    returned. *)
Ltac case_run H :=
  cbn in H;
  repeat match type of H with
         | (Throw _, _) = (Ok _, _) => discriminate H
         | context [match ?x with _ => _ end] =>
             lazymatch x with
             | context [match _ with _ => _ end] => fail
             | _ => destruct x eqn:?; cbn in H
             end
         end.

Lemma deleteRelease_keeps_other_keys releaseId key w w1 :
  deleteRelease releaseId w = (Ok true, w1) ->
  key <> "file:" ++ pretty releaseId ->
  cache (github w1) !! key = cache (github w) !! key.
Proof.
  unfold deleteRelease, callFunction, bind, gets, fetch, lift, throw, modify, ret.
  intros Hrun Hkey. case_run Hrun.
  inversion Hrun; subst. cbn. apply lookup_delete_ne. congruence.
Qed.

Lemma deleteRelease_clock releaseId w w1 :
  deleteRelease releaseId w = (Ok true, w1) -> clock w1 = clock w.
Proof.
  unfold deleteRelease, callFunction, bind, gets, fetch, lift, throw, modify, ret.
  intros Hrun. case_run Hrun.
  inversion Hrun; subst. reflexivity.
Qed.

(** After a delete that succeeded, a listing cached before it is served as
    it was, without asking the host. *)
Lemma listing_served_after_delete releaseId limit entry w w1 :
  cache (github w) !! ("releases:latest:" ++ pretty limit) = Some entry ->
  deleteRelease releaseId w = (Ok true, w1) ->
  clock w < expiresAt entry ->
  getLatestReleases limit w1 = (Ok (value entry), w1).
Proof.
  intros Hentry Hdelete Hfresh. unfold getLatestReleases.
  apply withCache_hit.
  - rewrite (deleteRelease_keeps_other_keys releaseId _ w w1 Hdelete);
      [exact Hentry | intros Heq; cbn [String.append] in Heq; discriminate Heq].
  - rewrite (deleteRelease_clock releaseId w w1 Hdelete). exact Hfresh.
Qed.

(** Two file lookups for one release within the time to live: the second
    returns the value of the first and sends nothing; the first sent one
    request. *)
Lemma getFileInfo_twice_fetches_once releaseId w v w1 later :
  cache_hit (clock w) (cache (github w) !! ("file:" ++ pretty releaseId)) = false ->
  getFileInfo releaseId w = (Ok v, w1) ->
  later < clock w + 3600 * 1000 ->
  cacheTTL (github w) = 3600 * 1000 ->
  getFileInfo releaseId (set_clock later w1) = (Ok v, set_clock later w1)
  /\ length (requests w1) = S (length (requests w)).
Proof.
  intros Hmiss Hrun Hlater Httl. unfold getFileInfo in *.
  rewrite (withCache_miss _ _ w Hmiss) in Hrun. unfold computed in Hrun.
  unfold fetch_data, bind, gets, fetch, lift, throw in Hrun.
  case_run Hrun.
  all: inversion Hrun; subst; clear Hrun; split;
    [ match goal with
      | |- withCache ?k ?f ?W = (Ok ?v0, _) =>
          apply (withCache_hit k f W
                   {| value := v0; expiresAt := clock w + cacheTTL (github w) |})
      end;
      [ cbn; apply lookup_insert_eq | cbn; rewrite Httl; exact Hlater ]
    | cbn; rewrite length_app; cbn; lia ].
Qed.

(** C3.  A lookup that is not served from the cache runs [fn] once and
    stores its value with expiry [now + cacheTTL]; the time to live is one
    hour.  A second lookup of the key before the expiry returns the stored
    value and leaves the world as it is, whatever its compute function is
    (so that function is not invoked); a lookup at or after the expiry runs
    its compute function again; so does a lookup after [clearCache] with a
    pattern that the key contains. *)
Theorem C3_withCache_ttl
    (key pattern : string) (fn fn2 : M (option Json)) (w w1 : World)
    (v : option Json) (t2 t3 : Z) :
  cache_hit (clock w) (cache (github w) !! key) = false ->
  fn w = (Ok v, w1) ->
  let expiry := clock w + cacheTTL (github w1) in
  let w2 := set_cache (<[key := {| value := v; expiresAt := expiry |}]>
                         (cache (github w1))) w1 in
  t2 < expiry -> expiry <= t3 -> includes key pattern = true ->
  withCache key fn w = (Ok v, w2)
  /\ withCache key fn2 (set_clock t2 w2) = (Ok v, set_clock t2 w2)
  /\ withCache key fn2 (set_clock t3 w2) = computed key fn2 (set_clock t3 w2)
  /\ (exists w3,
        clearCache (Some pattern) (set_clock t2 w2) = (Ok tt, w3)
        /\ withCache key fn2 w3 = computed key fn2 w3)
  /\ (forall apiBaseUrl requestTimeout,
        cacheTTL (constructor apiBaseUrl requestTimeout) = 3600 * 1000).
Proof.
  intros Hmiss Hfn expiry w2 Ht2 Ht3 Hincl.
  split; [|split; [|split; [|split]]].
  - rewrite (withCache_miss key fn w Hmiss). unfold computed. rewrite Hfn.
    reflexivity.
  - apply (withCache_hit key fn2 (set_clock t2 w2)
             {| value := v; expiresAt := expiry |}).
    + cbn. apply lookup_insert_eq.
    + exact Ht2.
  - apply withCache_miss. cbn. rewrite lookup_insert_eq. cbn.
    apply Z.ltb_ge. exact Ht3.
  - destruct (clearCache_removes pattern key (set_clock t2 w2) Hincl)
      as (w3 & Hclear & Hgone & _).
    exists w3. split; [exact Hclear|].
    apply withCache_miss. rewrite Hgone. reflexivity.
  - intros apiBaseUrl requestTimeout. reflexivity.
Qed.

(** C9.  When the lookup is not served from the cache and [fn] throws, the
    call throws the same error and ends in the world that [fn] left: nothing
    is stored.  With a compute function that does not write the cache, the
    cache is the one the call started with, and a later lookup of the key
    runs its compute function again. *)
Theorem C9_withCache_failure_not_cached
    (key : string) (fn fn2 : M (option Json)) (w w1 : World)
    (message : string) (later : Z) :
  cache_hit (clock w) (cache (github w) !! key) = false ->
  fn w = (Throw message, w1) ->
  cache (github w1) = cache (github w) ->
  clock w <= later ->
  withCache key fn w = (Throw message, w1)
  /\ cache (github (withCache key fn w).2) = cache (github w)
  /\ withCache key fn2 (set_clock later w1) = computed key fn2 (set_clock later w1).
Proof.
  intros Hmiss Hfn Hcache Hlater.
  assert (Hrun : withCache key fn w = (Throw message, w1)).
  { rewrite (withCache_miss key fn w Hmiss). unfold computed. rewrite Hfn.
    reflexivity. }
  split; [exact Hrun|]. split.
  - rewrite Hrun. exact Hcache.
  - apply withCache_miss. cbn. rewrite Hcache.
    unfold cache_hit in *. destruct (cache (github w) !! key) as [entry|];
      [|reflexivity].
    apply Z.ltb_ge. apply Z.ltb_ge in Hmiss. lia.
Qed.

End CacheProperties.

(** * Properties of the transcoding engines *)

Section EngineProperties.
Import Browser.

Lemma waitUntilReady_loop_round rounds startTime maxWait w :
  Compress.waitUntilReady_loop (S rounds) startTime maxWait w
  = if isReady_at (outside w) (clock w) then (Ok true, w)
    else if clock w - startTime >? maxWait
         then (Throw "FFmpeg initialization timeout", w)
         else Compress.waitUntilReady_loop rounds startTime maxWait
                (set_clock (clock w + 500) w).
Proof.
  cbn [Compress.waitUntilReady_loop]. unfold bind, gets, ret, throw, modify.
  destruct (isReady_at (outside w) (clock w)); [reflexivity|].
  destruct (clock w - startTime >? maxWait); reflexivity.
Qed.

Lemma set_clock_same w : set_clock (clock w) w = w.
Proof. destruct w; reflexivity. Qed.

Lemma waitUntilReady_ready maxWait w :
  isReady_at (outside w) (clock w) = true ->
  Compress.waitUntilReady maxWait w = (Ok true, w).
Proof.
  intros Hready. unfold Compress.waitUntilReady, bind, gets.
  rewrite Nat.add_comm. cbn [Nat.add].
  rewrite waitUntilReady_loop_round, Hready. reflexivity.
Qed.





Lemma bind_run {A B} (m : M A) (k : A -> M B) w :
  bind m k w
  = match m w with
    | (Ok a, w1) => k a w1
    | (Throw message, w1) => (Throw message, w1)
    end.
Proof. reflexivity. Qed.

Lemma backend_step_run s w :
  backend_step s w
  = match fault (outside w) s with
    | Some message => (Throw message, w)
    | None => (Ok tt, w)
    end.
Proof. reflexivity. Qed.

(** Run the callback at the head of the goal. *)
Ltac run_callback Hcb :=
  match goal with
  | |- context [?cb ?p ?m ?w] =>
      match type of Hcb with page_only cb => idtac end;
      let pg := fresh "pg" in
      let E := fresh "Hcall" in
      destruct (Hcb p m w) as [pg E]; rewrite E
  end.

Ltac cb_step Hcb := rewrite bind_run; run_callback Hcb.








(** With the engine ready: an encode that throws leaves the staged input in
    the encoder's files. *)
Lemma failed_encode_keeps_input file onProgress w message :
  page_only onProgress ->
  isReady_at (outside w) (clock w) = true ->
  fault (outside w) ReadFile = None ->
  fault (outside w) WriteInput = None ->
  fault (outside w) Run = Some message ->
  exists w1,
    Compress.compress file onProgress w
    = (Throw ("Compression failed: " ++ message), w1)
    /\ FS w1 !! "input.mp4" = Some (blob_bytes file).
Proof.
  intros Hcb Hready Hread Hwrite Hrun. unfold Compress.compress, try_catch at 1.
  rewrite bind_run, (waitUntilReady_ready 30000 w Hready).
  cb_step Hcb.
  rewrite bind_run. unfold FFmpeg.readFile.
  rewrite bind_run, backend_step_run. cbn [outside set_page]. rewrite Hread.
  unfold ret at 1.
  rewrite bind_run. unfold FFmpeg.FS_writeFile.
  rewrite bind_run, backend_step_run. cbn [outside set_page]. rewrite Hwrite.
  unfold modify at 1.
  cb_step Hcb. cb_step Hcb.
  rewrite bind_run. unfold Compress.runCompression.
  cb_step Hcb. unfold try_catch at 1.
  rewrite bind_run. unfold FFmpeg.run.
  rewrite bind_run, backend_step_run. cbn [outside set_page set_FS]. rewrite Hrun.
  eexists. split; [reflexivity|].
  cbn [FS set_page set_FS set_console]. apply lookup_insert_eq.
Qed.

(** With the engine ready and no step throwing: the encode returns the
    encoded blob and both transient files are gone. *)
Lemma successful_encode_releases file onProgress w :
  page_only onProgress ->
  isReady_at (outside w) (clock w) = true ->
  (forall s, fault (outside w) s = None) ->
  exists w1,
    Compress.compress file onProgress w = (Ok (Compress.encoded file w), w1)
    /\ FS w1 !! "input.mp4" = None
    /\ FS w1 !! "output.mp4" = None.
Proof.
  intros Hcb Hready Hnone. unfold Compress.compress, try_catch at 1.
  rewrite bind_run, (waitUntilReady_ready 30000 w Hready).
  cb_step Hcb.
  rewrite bind_run. unfold FFmpeg.readFile.
  rewrite bind_run, backend_step_run. cbn [outside set_page]. rewrite Hnone.
  unfold ret at 1.
  rewrite bind_run. unfold FFmpeg.FS_writeFile.
  rewrite bind_run, backend_step_run. cbn [outside set_page]. rewrite Hnone.
  unfold modify at 1.
  cb_step Hcb. cb_step Hcb.
  rewrite bind_run. unfold Compress.runCompression.
  cb_step Hcb. unfold try_catch at 1.
  rewrite bind_run. unfold FFmpeg.run.
  rewrite bind_run, backend_step_run. cbn [outside set_page set_FS]. rewrite Hnone.
  rewrite bind_run. unfold gets at 1. cbn [FS set_page set_FS].
  rewrite lookup_insert_eq. unfold modify at 1.
  cbn [FS set_page set_FS outside].
  run_callback Hcb.
  cb_step Hcb.
  rewrite bind_run. unfold FFmpeg.FS_readFile.
  rewrite bind_run, backend_step_run. cbn [outside set_page set_FS]. rewrite Hnone.
  rewrite bind_run. unfold gets at 1. cbn [FS set_page set_FS].
  rewrite lookup_insert_eq. unfold ret at 1.
  rewrite bind_run. unfold try_catch at 1, FFmpeg.FS_unlink.
  rewrite bind_run, bind_run, backend_step_run. cbn [outside set_page set_FS].
  rewrite Hnone.
  rewrite bind_run. unfold gets at 1. cbn [FS set_page set_FS].
  rewrite lookup_insert_ne by discriminate. rewrite lookup_insert_eq.
  unfold modify at 1. cbn [FS set_page set_FS].
  rewrite bind_run, backend_step_run. cbn [outside set_page set_FS].
  rewrite Hnone.
  rewrite bind_run. unfold gets at 1. cbn [FS set_page set_FS].
  rewrite lookup_delete_ne by discriminate. rewrite lookup_insert_eq.
  unfold modify at 1. cbn [FS set_page set_FS].
  cb_step Hcb. unfold ret.
  eexists. split; [reflexivity|].
  cbn [FS set_page set_FS]. split.
  - rewrite lookup_delete_ne by discriminate. apply lookup_delete_eq.
  - apply lookup_delete_eq.
Qed.

(** With the engine ready and the encode through: a release that throws is
    logged and [compress] still returns the encoded blob. *)
Lemma release_failure_is_logged file onProgress w message :
  page_only onProgress ->
  isReady_at (outside w) (clock w) = true ->
  (forall s, In s Compress.encode_steps -> fault (outside w) s = None) ->
  fault (outside w) UnlinkInput = Some message ->
  exists w1,
    Compress.compress file onProgress w = (Ok (Compress.encoded file w), w1)
    /\ console w1 = (console w ++ ["⚠️ Could not clean up files"])%list.
Proof.
  intros Hcb Hready Hnone Hunlink. unfold Compress.compress, try_catch at 1.
  assert (Hread : fault (outside w) ReadFile = None) by (apply Hnone; cbn; tauto).
  assert (Hwrite : fault (outside w) WriteInput = None) by (apply Hnone; cbn; tauto).
  assert (Hrun : fault (outside w) Run = None) by (apply Hnone; cbn; tauto).
  assert (Hout : fault (outside w) ReadOutput = None) by (apply Hnone; cbn; tauto).
  rewrite bind_run, (waitUntilReady_ready 30000 w Hready).
  cb_step Hcb.
  rewrite bind_run. unfold FFmpeg.readFile.
  rewrite bind_run, backend_step_run. cbn [outside set_page]. rewrite Hread.
  unfold ret at 1.
  rewrite bind_run. unfold FFmpeg.FS_writeFile.
  rewrite bind_run, backend_step_run. cbn [outside set_page]. rewrite Hwrite.
  unfold modify at 1.
  cb_step Hcb. cb_step Hcb.
  rewrite bind_run. unfold Compress.runCompression.
  cb_step Hcb. unfold try_catch at 1.
  rewrite bind_run. unfold FFmpeg.run.
  rewrite bind_run, backend_step_run. cbn [outside set_page set_FS]. rewrite Hrun.
  rewrite bind_run. unfold gets at 1. cbn [FS set_page set_FS].
  rewrite lookup_insert_eq. unfold modify at 1.
  cbn [FS set_page set_FS outside].
  run_callback Hcb.
  cb_step Hcb.
  rewrite bind_run. unfold FFmpeg.FS_readFile.
  rewrite bind_run, backend_step_run. cbn [outside set_page set_FS]. rewrite Hout.
  rewrite bind_run. unfold gets at 1. cbn [FS set_page set_FS].
  rewrite lookup_insert_eq. unfold ret at 1.
  rewrite bind_run. unfold try_catch at 1, FFmpeg.FS_unlink.
  rewrite bind_run, bind_run, backend_step_run. cbn [outside set_page set_FS].
  rewrite Hunlink. unfold console_warn at 1, modify at 1.
  cb_step Hcb. unfold ret.
  eexists. split; [reflexivity|]. reflexivity.
Qed.

End EngineProperties.

(** * Properties of the progress display *)

Section DisplayProperties.
Import Browser Display.

Lemma updateProgress_page_only (f : Q -> Q) :
  page_only (fun percent message => updateProgress (f percent) message).
Proof. intros percent message w. eexists. reflexivity. Qed.

(** The default callback [() => {}]. *)
Lemma default_callback_page_only : page_only (fun _ _ => ret tt).
Proof. intros percent message w. exists (page w). destruct w; reflexivity. Qed.


(** The callbacks of the orchestrators are phases. *)
Lemma upload_netlify_delivery_phase :
  (fun percent message => updateProgress ((50 # 1) + percent * (5 # 10))%Q message)
  = phase (50 # 1) (5 # 10).
Proof. reflexivity. Qed.

Lemma index_fast_delivery_phase :
  (fun percent message => updateProgress ((40 # 1) + percent * (6 # 10))%Q message)
  = phase (40 # 1) (6 # 10).
Proof. reflexivity. Qed.

Lemma raw_progress_nonneg (local offset weight : Q) :
  (0 <= local -> 0 <= offset -> 0 <= weight ->
   0 <= offset + local * weight / 100)%Q.
Proof.
  intros Hl Ho Hw.
  assert (0 <= local * weight)%Q by (apply Qmult_le_0_compat; assumption).
  assert (local * weight / 100 == local * weight * (1 # 100))%Q by (field).
  lra.
Qed.

Lemma raw_progress_le_100 (local offset weight : Q) :
  (local <= 100 -> 0 <= weight -> offset + weight <= 100 ->
   offset + local * weight / 100 <= 100)%Q.
Proof.
  intros Hl Hw Hsum.
  assert (0 <= (100 - local) * weight)%Q
    by (apply Qmult_le_0_compat; [lra | assumption]).
  assert (local * weight / 100 == local * weight * (1 # 100))%Q by (field).
  lra.
Qed.

(** C4.  For local, offset and weight in [0,100], with
    raw = offset + local*weight/100: the fill width of the progress bar is
    clamp(raw, 0, 100), obtained as min(raw, 100) since raw is never
    negative; the percentage label is round(raw), not clamped; when
    offset + weight <= 100 the raw value lies in [0,100] and the clamp
    changes nothing. *)
Theorem C4_progress_bar_is_clamped
    (local offset weight : Q) (message : string) (w : World) :
  (0 <= local /\ local <= 100)%Q ->
  (0 <= offset /\ offset <= 100)%Q ->
  (0 <= weight /\ weight <= 100)%Q ->
  let raw := (offset + local * weight / 100)%Q in
  let w1 := (phase offset (weight / 100) local message w).2 in
  (progressFill_width (page w1) == clamp raw 0 100)%Q
  /\ (progressFill_width (page w1) == Qmin raw 100)%Q
  /\ progressText (page w1) = Math_round raw
  /\ ((offset + weight <= 100)%Q -> (0 <= raw /\ raw <= 100)%Q).
Proof.
  intros [Hl0 Hl1] [Ho0 Ho1] [Hw0 Hw1] raw w1.
  assert (Hraw : (offset + local * (weight / 100) == raw)%Q)
    by (unfold raw; field).
  assert (Hnonneg : (0 <= raw)%Q) by (apply raw_progress_nonneg; assumption).
  assert (Hwidth : (progressFill_width (page w1) == Qmin raw 100)%Q).
  { subst w1. unfold phase, updateProgress, modify.
    cbn [snd page set_page progressFill_width]. rewrite Hraw. reflexivity. }
  split; [|split; [exact Hwidth|split]].
  - rewrite Hwidth. unfold clamp. symmetry. apply Q.max_r.
    apply Q.min_glb; [exact Hnonneg | lra].
  - subst w1. unfold phase, updateProgress, modify.
    cbn [snd page set_page progressText]. unfold Math_round.
    apply Qfloor_comp. rewrite Hraw. reflexivity.
  - intros Hsum. split; [exact Hnonneg|].
    apply raw_progress_le_100; assumption.
Qed.

End DisplayProperties.

(** * The engines, the cache and the pipeline: main results *)

Section Runs.
Import Browser GitHubUploadManagerNetlify Display Scenario.

Lemma C4_witness :
  let w1 := (phase 50%Q (50 / 100)%Q 50%Q "Sending to server..." (start (calm []))).2 in
  (progressFill_width (page w1) == clamp (50 + 50 * 50 / 100) 0 100)%Q
  /\ (progressFill_width (page w1) == Qmin (50 + 50 * 50 / 100) 100)%Q
  /\ progressText (page w1) = Math_round (50 + 50 * 50 / 100)%Q
  /\ ((50 + 50 <= 100)%Q ->
      (0 <= 50 + 50 * 50 / 100 /\ 50 + 50 * 50 / 100 <= 100)%Q).
Proof.
  apply (C4_progress_bar_is_clamped 50%Q 50%Q 50%Q "Sending to server..."
           (start (calm []))); split; vm_compute; discriminate.
Defined.

(** With offset 100 and weight 100 the label at local 100 reads 200, which
    is not the clamped value. *)
Lemma C4_counterexample :
  let raw := (100 + 100 * 100 / 100)%Q in
  let w1 := (phase 100%Q (100 / 100)%Q 100%Q "" (start (calm []))).2 in
  progressText (page w1) = 200
  /\ Math_round (clamp raw 0 100) = 100
  /\ ~ (inject_Z (progressText (page w1)) == clamp raw 0 100)%Q.
Proof.
  split; [reflexivity|]. split; [reflexivity|].
  vm_compute. discriminate.
Qed.




(** In compress.js an engine that never becomes ready makes [compress]
    raise once the poll after the 30 s has passed. *)
Lemma compress_times_out_when_never_ready :
  let w := start (never_ready (calm [])) in
  let run := Compress.compress clip (phase 0%Q (50 / 100)%Q) w in
  run.1 = Throw "Compression failed: FFmpeg initialization timeout"
  /\ clock run.2 = clock w + 30500
  /\ percentages run.2 = [].
Proof. repeat split; vm_compute; reflexivity. Qed.

(** C6.  In compress.js the encoder throws during the encode: [compress]
    raises and the staged input file is still among the encoder's files. *)
Theorem C6_staged_input_outlives_failed_encode :
  let w := start (failing_at Run "Aborted()" (calm [])) in
  let run := Compress.compress clip (phase 0%Q (50 / 100)%Q) w in
  FS w !! "input.mp4" = None
  /\ run.1 = Throw "Compression failed: Aborted()"
  /\ FS run.2 !! "input.mp4" = Some (blob_bytes clip).
Proof. repeat split; vm_compute; reflexivity. Qed.

(** C5.  index-fast.js, the encoder script absent, every request answered:
    the run ends on the success screen and its last percentage is 100, but
    the second percentage delivered (4) is lower than the first (5). *)
Theorem C5_index_fast_progress_steps_back :
  let w := start (without_FFmpeg (calm [])) in
  let w1 := (IndexFast.handleFileSelect CompressSimple.compress (Some clip) w).2 in
  screen (page w1) = SuccessArea
  /\ map Qred (percentages w1)
     = [5; 4; 20; 40; 40; 43; 55; (155 # 2); 100; 100; 100]%Q
  /\ non_decreasing (percentages w1) = false.
Proof. repeat split; vm_compute; reflexivity. Qed.

(** C8.  The host holds releases 41 and 42 and the listing has been read
    once.  After [deleteRelease 42] has succeeded the host lists 41 only,
    and a file lookup for 42 asks the host again and fails; but the listing
    is still served from the cache, without a request, and names 42. *)
Theorem C8_cached_listing_outlives_delete :
  let w0 := start (calm [41; 42]) in
  let '(_, w1) := getLatestReleases 10 w0 in
  let '(deleted, w2) := deleteRelease 42 w1 in
  let '(listing, w3) := getLatestReleases 10 w2 in
  deleted = Ok true
  /\ host_releases [41; 42] 0 (requests w2) = [41]
  /\ listing = Ok (Some (JArr [release_json 41; release_json 42]))
  /\ requests w3 = requests w2
  /\ (getFileInfo 42 w3).1 = Throw "Not Found".
Proof. vm_compute. repeat split; reflexivity. Qed.

Lemma C3_witness :
  let w := start (calm [41; 42]) in
  let fn := fetch_data (GetRelease 42) "/.netlify/functions/file-info" "Failed" in
  let w1 := (fn w).2 in
  let v := Some (release_json 42) in
  let expiry := clock w + cacheTTL (github w1) in
  let w2 := set_cache (<["file:42" := {| value := v; expiresAt := expiry |}]>
                         (cache (github w1))) w1 in
  withCache "file:42" fn w = (Ok v, w2)
  /\ withCache "file:42" fn (set_clock (clock w + 1000) w2)
     = (Ok v, set_clock (clock w + 1000) w2)
  /\ withCache "file:42" fn (set_clock (clock w + 3600000) w2)
     = computed "file:42" fn (set_clock (clock w + 3600000) w2)
  /\ (exists w3,
        clearCache (Some "file:") (set_clock (clock w + 1000) w2) = (Ok tt, w3)
        /\ withCache "file:42" fn w3 = computed "file:42" fn w3)
  /\ (forall apiBaseUrl requestTimeout,
        cacheTTL (constructor apiBaseUrl requestTimeout) = 3600 * 1000).
Proof.
  intros w fn w1 v.
  apply (C3_withCache_ttl "file:42" "file:" fn fn w w1 v
           (clock w + 1000) (clock w + 3600000)).
  - vm_compute. reflexivity.
  - vm_compute. reflexivity.
  - vm_compute. reflexivity.
  - vm_compute. discriminate.
  - vm_compute. reflexivity.
Defined.

Lemma C9_witness :
  let w := start (calm [41]) in
  let fn := fetch_data (GetRelease 42) "/.netlify/functions/file-info" "Failed" in
  let w1 := (fn w).2 in
  withCache "file:42" fn w = (Throw "Not Found", w1)
  /\ cache (github (withCache "file:42" fn w).2) = cache (github w)
  /\ withCache "file:42" fn (set_clock (clock w + 5) w1)
     = computed "file:42" fn (set_clock (clock w + 5) w1).
Proof.
  intros w fn w1.
  apply (C9_withCache_failure_not_cached "file:42" fn fn w w1 "Not Found"
           (clock w + 5)).
  - vm_compute. reflexivity.
  - vm_compute. reflexivity.
  - vm_compute. reflexivity.
  - vm_compute. discriminate.
Defined.

End Runs.

(** * Properties of the whole pipeline *)

Section PipelineProperties.
Import Browser GitHubUploadManagerNetlify Display Scenario.

Lemma bind_returns {A B} (m : M A) (k : A -> M B) w b w1 :
  bind m k w = (Ok b, w1) ->
  exists a w0, m w = (Ok a, w0) /\ k a w0 = (Ok b, w1).
Proof.
  unfold bind. destruct (m w) as [[a|message] w0]; [eauto | discriminate].
Qed.

Lemma show_keeps_log s w : progress_log (page (show s w).2) = progress_log (page w).
Proof. reflexivity. Qed.

Lemma show_screen s w : screen (page (show s w).2) = s.
Proof. reflexivity. Qed.

(** A run of [handleFileSelect] in upload-netlify.js that ends on the
    success screen has 100 as the last percentage delivered, whatever the
    engine. *)
Lemma upload_netlify_success_ends_at_100 compress file w :
  let w1 := (UploadNetlify.handleFileSelect compress (Some file) w).2 in
  screen (page w1) = SuccessArea ->
  exists message, last (progress_log (page w1)) = Some ((100 # 1)%Q, message).
Proof.
  cbv zeta. unfold UploadNetlify.handleFileSelect.
  destruct (negb (String.prefix "video/" (blob_type file))); [discriminate|].
  rewrite bind_run. unfold showProcessing, try_catch.
  change (show ProcessingArea w) with (Ok tt, (show ProcessingArea w).2).
  cbv beta iota.
  match goal with
  | |- context [bind (compress file ?cb) ?k ?W] =>
      destruct (bind (compress file cb) k W) as [[u|message] w2] eqn:Hbody
  end; [|discriminate].
  intros _.
  repeat (apply bind_returns in Hbody as (? & ? & ? & Hbody)).
  match goal with
  | H : updateProgress (100 # 1)%Q ?m ?W = (Ok _, ?W1) |- _ =>
      exists m; unfold updateProgress, modify in H; inversion H; subst W1
  end.
  unfold showSuccess, show, modify in Hbody. inversion Hbody; subst.
  cbn [snd page set_page progress_log]. apply last_snoc.
Qed.

(** The same for index-fast.js. *)
Lemma index_fast_success_ends_at_100 compress file w :
  let w1 := (IndexFast.handleFileSelect compress (Some file) w).2 in
  screen (page w1) = SuccessArea ->
  exists message, last (progress_log (page w1)) = Some ((100 # 1)%Q, message).
Proof.
  cbv zeta. unfold IndexFast.handleFileSelect.
  destruct (negb (String.prefix "video/" (blob_type file))); [discriminate|].
  destruct (blob_size file >? 5 * 1024 * 1024 * 1024); [discriminate|].
  rewrite bind_run. unfold showProcessing, try_catch.
  change (show ProcessingArea w) with (Ok tt, (show ProcessingArea w).2).
  cbv beta iota.
  match goal with
  | |- context [bind (updateProgress ?p ?m) ?k ?W] =>
      destruct (bind (updateProgress p m) k W) as [[u|message] w2] eqn:Hbody
  end; [|discriminate].
  intros _.
  repeat (apply bind_returns in Hbody as (? & ? & ? & Hbody)).
  match goal with
  | H : updateProgress (100 # 1)%Q ?m ?W = (Ok _, ?W1) |- _ =>
      exists m; unfold updateProgress, modify in H; inversion H; subst W1
  end.
  unfold showSuccess, show, modify in Hbody. inversion Hbody; subst.
  cbn [snd page set_page progress_log]. apply last_snoc.
Qed.

(** ** What a run adds to the percentages delivered so far *)

Lemma delivers_nil {A} (m : M A) :
  (forall w, progress_log (page (m w).2) = progress_log (page w)) ->
  delivers [] m.
Proof. intros Hkeep w. exists []. rewrite Hkeep, !app_nil_r. reflexivity. Qed.

Lemma delivers_ret {A} (a : A) : delivers [] (ret a).
Proof. apply delivers_nil. reflexivity. Qed.

Lemma delivers_throw {A} message : delivers [] (@throw A message).
Proof. apply delivers_nil. reflexivity. Qed.

Lemma delivers_lift {A} (o : Outcome A) : delivers [] (lift o).
Proof. apply delivers_nil. reflexivity. Qed.

Lemma delivers_gets {A} (f : World -> A) : delivers [] (gets f).
Proof. apply delivers_nil. reflexivity. Qed.

Lemma delivers_modify f :
  (forall w, progress_log (page (f w)) = progress_log (page w)) ->
  delivers [] (modify f).
Proof. intros Hkeep. apply delivers_nil. exact Hkeep. Qed.

Lemma delivers_backend_step s : delivers [] (backend_step s).
Proof.
  apply delivers_nil. intros w. unfold backend_step.
  destruct (fault (outside w) s); reflexivity.
Qed.

Lemma delivers_fetch r : delivers [] (fetch r).
Proof. apply delivers_nil. reflexivity. Qed.

Lemma delivers_updateProgress percent message :
  delivers [] (updateProgress percent message).
Proof. intros w. exists [(percent, message)]. reflexivity. Qed.

Lemma delivers_bind {A B} first (m : M A) (k : A -> M B) :
  delivers first m -> (forall a, delivers [] (k a)) -> delivers first (bind m k).
Proof.
  intros Hm Hk w. destruct (Hm w) as [tail Htail]. unfold bind.
  destruct (m w) as [[a|message] w1]; cbn [snd] in *.
  - destruct (Hk a w1) as [tail1 Htail1]. exists (tail ++ tail1)%list.
    rewrite Htail1, Htail, !app_nil_l, <- !app_assoc. reflexivity.
  - exists tail. exact Htail.
Qed.

Lemma delivers_try_catch {A} first (body : M A) (handler : string -> M A) :
  delivers first body -> (forall message, delivers [] (handler message)) ->
  delivers first (try_catch body handler).
Proof.
  intros Hbody Hhandler w. destruct (Hbody w) as [tail Htail]. unfold try_catch.
  destruct (body w) as [[a|message] w1]; cbn [snd] in *.
  - exists tail. exact Htail.
  - destruct (Hhandler message w1) as [tail1 Htail1]. exists (tail ++ tail1)%list.
    rewrite Htail1, Htail, !app_nil_l, <- !app_assoc. reflexivity.
Qed.

(** A percentage delivered at the head of a computation. *)
Lemma delivers_head {A} percent message first (k : M A) :
  delivers first k ->
  delivers ((percent, message) :: first)
           (bind (updateProgress percent message) (fun _ => k)).
Proof.
  intros Hk w. unfold bind, updateProgress, modify.
  match goal with
  | |- context [k ?W] => destruct (Hk W) as [tail Htail]
  end.
  exists tail. rewrite Htail. cbn [page set_page progress_log].
  rewrite <- !app_assoc. reflexivity.
Qed.

(** Something that keeps the percentages, then a computation. *)
Lemma delivers_after {A} first f (k : M A) :
  (forall w, progress_log (page (f w)) = progress_log (page w)) ->
  delivers first k ->
  delivers first (bind (modify f) (fun _ => k)).
Proof.
  intros Hkeep Hk w. unfold bind, modify.
  destruct (Hk (f w)) as [tail Htail]. exists tail.
  rewrite Htail, Hkeep. reflexivity.
Qed.

(** The closed form of the steps above, for computations built from the
    operations of the pipeline. *)
Ltac delivers_more :=
  repeat (intros;
    first
      [ apply delivers_ret | apply delivers_throw | apply delivers_lift
      | apply delivers_gets | apply delivers_backend_step | apply delivers_fetch
      | apply delivers_updateProgress
      | apply delivers_modify; intros; reflexivity
      | apply delivers_bind
      | apply delivers_try_catch
      | match goal with
        | H : forall percent message, delivers [] (?cb percent message)
          |- delivers [] (?cb _ _) => apply H
        | |- delivers [] (match ?x with _ => _ end) => destruct x
        | |- delivers [] (let _ := _ in _) => cbv zeta
        end
      | progress unfold console_warn, show, showProcessing, showSuccess, showError,
          addUpload, make_metadata,
          FFmpeg.load, FFmpeg.FS_writeFile, FFmpeg.run, FFmpeg.FS_readFile,
          FFmpeg.FS_unlink, FFmpeg.readFile,
          callFunction, createRelease, uploadAsset ]).

Lemma delivers_fallbackCompress file onProgress :
  (forall percent message, delivers [] (onProgress percent message)) ->
  delivers [] (CompressSimple.fallbackCompress file onProgress).
Proof. intros Hcb. unfold CompressSimple.fallbackCompress. delivers_more. Qed.

Lemma delivers_compressWithFFmpeg file onProgress :
  (forall percent message, delivers [] (onProgress percent message)) ->
  delivers [] (CompressSimple.compressWithFFmpeg file onProgress).
Proof.
  intros Hcb. pose proof (delivers_fallbackCompress file onProgress Hcb).
  unfold CompressSimple.compressWithFFmpeg. delivers_more; assumption.
Qed.

Lemma delivers_uploadWithMetadata fileBlob metadata onProgress :
  (forall percent message, delivers [] (onProgress percent message)) ->
  delivers [] (uploadWithMetadata fileBlob metadata onProgress).
Proof. intros Hcb. unfold uploadWithMetadata. delivers_more. Qed.

(** In index-fast.js every run on an accepted video, with the engine of
    compress-simple.js, delivers 5 and then 4, whatever the surroundings
    do. *)
Lemma index_fast_always_steps_back file w :
  String.prefix "video/" (blob_type file) = true ->
  blob_size file <= 5 * 1024 * 1024 * 1024 ->
  exists tail,
    progress_log
      (page (IndexFast.handleFileSelect CompressSimple.compress (Some file) w).2)
    = (progress_log (page w)
       ++ [((5 # 1)%Q, "Compressing video...");
           (((10 # 1) * (4 # 10))%Q, "Preparing file...")]
       ++ tail)%list.
Proof.
  intros Hvideo Hsize. unfold IndexFast.handleFileSelect.
  rewrite Hvideo. cbn [negb].
  destruct (Z.gtb_spec (blob_size file) (5 * 1024 * 1024 * 1024)); [lia|].
  revert w.
  change (delivers [((5 # 1)%Q, "Compressing video...");
                    (((10 # 1) * (4 # 10))%Q, "Preparing file...")]
            (showProcessing ;;;
             try_catch
               (updateProgress (5 # 1)%Q "Compressing video..." ;;;
                compressedBlob <-
                  CompressSimple.compress file
                    (fun percent message =>
                       updateProgress (percent * (4 # 10))%Q message) ;;
                updateProgress (40 # 1)%Q "Uploading to cloud..." ;;;
                fileId <- gets (fun w => random_uuid (outside w)) ;;
                metadata <- make_metadata fileId file compressedBlob ;;
                uploadResult <-
                  uploadWithMetadata compressedBlob metadata
                    (fun percent message =>
                       updateProgress ((40 # 1) + percent * (6 # 10))%Q message) ;;
                addUpload fileId uploadResult ;;;
                updateProgress (100 # 1)%Q "Complete!" ;;;
                showSuccess)
               (fun message =>
                  console_warn ("❌ Error: " ++ message) ;;;
                  showError (getErrorMessage message)))).
  unfold showProcessing, show. apply delivers_after; [reflexivity|].
  apply delivers_try_catch; [|delivers_more].
  apply delivers_head. apply delivers_bind.
  - unfold CompressSimple.compress.
    apply delivers_try_catch.
    + apply (delivers_head ((10 # 1) * (4 # 10))%Q "Preparing file..." []).
      apply delivers_bind; [apply delivers_gets|].
      intros available. destruct available.
      * apply delivers_compressWithFFmpeg. intros; apply delivers_updateProgress.
      * apply delivers_bind; [delivers_more|]. intros _.
        apply delivers_fallbackCompress. intros; apply delivers_updateProgress.
    + intros message. delivers_more.
  - intros compressedBlob. apply delivers_bind; [apply delivers_updateProgress|].
    intros _. apply delivers_bind; [apply delivers_gets|]. intros fileId.
    apply delivers_bind; [delivers_more|]. intros metadata.
    apply delivers_bind.
    + apply delivers_uploadWithMetadata. intros; apply delivers_updateProgress.
    + delivers_more.
Qed.

(** upload-netlify.js with the engine of compress.js, nothing failing: the
    percentages never step back and end at 100. *)
Lemma upload_netlify_run_never_steps_back :
  let w := start (calm []) in
  let w1 := (UploadNetlify.handleFileSelect Compress.compress (Some clip) w).2 in
  screen (page w1) = SuccessArea
  /\ map Qred (percentages w1)
     = [(5 # 2); (15 # 2); 10; 15; (85 # 2); (95 # 2); 50; 50; (105 # 2);
        (125 # 2); (325 # 4); 100; 100; 100]%Q
  /\ non_decreasing (percentages w1) = true.
Proof. repeat split; vm_compute; reflexivity. Qed.

(** upload-netlify.js with the engine of compress-simple.js, the output of
    the encoder unreadable: the engine falls back after it has reported 80,
    and the percentage goes from 40 back to 25. *)
Lemma upload_netlify_fallback_steps_back :
  let w := start (failing_at ReadOutput "ENOENT" (calm [])) in
  let w1 := (UploadNetlify.handleFileSelect CompressSimple.compress (Some clip) w).2 in
  screen (page w1) = SuccessArea
  /\ map Qred (percentages w1)
     = [5; 10; 15; 20; 25; 40; 25; 50; 50; (105 # 2); (125 # 2); (325 # 4);
        100; 100; 100]%Q
  /\ non_decreasing (percentages w1) = false.
Proof. repeat split; vm_compute; reflexivity. Qed.

End PipelineProperties.

(** * Properties of generateUUID *)

Section UuidProperties.
Import Uuid.

Lemma random_nibble q : (0 <= q)%Q -> (q < 1)%Q -> 0 <= bitor0 (q * (16 # 1))%Q < 16.
Proof.
  intros H0 H1. unfold bitor0, truncate.
  assert (Hnonneg : (0 <= q * (16 # 1))%Q) by (apply Qmult_le_0_compat; [exact H0 | discriminate]).
  destruct (Qle_bool 0 (q * (16 # 1))) eqn:Hle.
  2:{ apply Qle_bool_iff in Hnonneg. congruence. }
  assert (Hfloor : 0 <= Qfloor (q * (16 # 1)) < 16).
  { split.
    - change 0 with (Qfloor 0). apply Qfloor_resp_le. exact Hnonneg.
    - apply Z.lt_nge. intros Hge.
      assert (Hup : (inject_Z 16 <= q * (16 # 1))%Q).
      { eapply Qle_trans; [|apply Qfloor_le].
        rewrite <- Zle_Qle. exact Hge. }
      assert (Hlt : (q * (16 # 1) < 1 * (16 # 1))%Q)
        by (apply Qmult_lt_compat_r; [reflexivity | exact H1]).
      change (inject_Z 16) with (16 # 1)%Q in Hup.
      rewrite Qmult_1_l in Hlt.
      exact (Qlt_irrefl _ (Qle_lt_trans _ _ _ Hup Hlt)). }
  unfold to_int32. rewrite Z.mod_small; lia.
Qed.

Lemma toString16_digit v : 0 <= v < 16 -> toString16 v = String (hex_char v) "".
Proof.
  intros Hv. unfold toString16.
  destruct (Z.ltb_spec v 0); [lia|]. cbn [toString16_go].
  destruct (Z.ltb_spec v 16); [reflexivity | lia].
Qed.

Lemma hex_char_is_hex v : 0 <= v < 16 -> is_hex (hex_char v) = true.
Proof.
  intros Hv.
  assert (v = 0 \/ v = 1 \/ v = 2 \/ v = 3 \/ v = 4 \/ v = 5 \/ v = 6 \/ v = 7
          \/ v = 8 \/ v = 9 \/ v = 10 \/ v = 11 \/ v = 12 \/ v = 13 \/ v = 14
          \/ v = 15) as Hcases by lia.
  repeat (destruct Hcases as [-> | Hcases]; [reflexivity|]). subst. reflexivity.
Qed.

Lemma variant_nibble r : 0 <= r < 16 -> 8 <= Z.lor (Z.land r 3) 8 < 12.
Proof.
  intros Hr.
  assert (r = 0 \/ r = 1 \/ r = 2 \/ r = 3 \/ r = 4 \/ r = 5 \/ r = 6 \/ r = 7
          \/ r = 8 \/ r = 9 \/ r = 10 \/ r = 11 \/ r = 12 \/ r = 13 \/ r = 14
          \/ r = 15) as Hcases by lia.
  repeat (destruct Hcases as [-> | Hcases];
          [split; [apply Z.leb_le | apply Z.ltb_lt]; reflexivity|]).
  subst. split; [apply Z.leb_le | apply Z.ltb_lt]; reflexivity.
Qed.

Lemma replacement_x q :
  (0 <= q)%Q -> (q < 1)%Q ->
  replacement "x" q = String (hex_char (bitor0 (q * (16 # 1))%Q)) "".
Proof.
  intros H0 H1. unfold replacement. cbn [Ascii.eqb Bool.eqb].
  apply toString16_digit, random_nibble; assumption.
Qed.

Lemma replacement_y q :
  (0 <= q)%Q -> (q < 1)%Q ->
  exists v, 8 <= v < 12 /\ replacement "y" q = String (hex_char v) "".
Proof.
  intros H0 H1. unfold replacement. cbn [Ascii.eqb Bool.eqb].
  pose proof (variant_nibble _ (random_nibble q H0 H1)) as Hv.
  eexists. split; [exact Hv|]. apply toString16_digit. lia.
Qed.

#[local] Arguments replacement : simpl never.

(** X1.  Whatever [Math.random()] returns (values in [0,1)), the identifier
    has 36 characters, hyphens at positions 8, 13, 18 and 23, the version
    digit 4 at position 14, one of 8, 9, a, b at position 19, and a
    lowercase hexadecimal digit at each of the 32 positions that hold no
    hyphen. *)
Theorem generateUUID_is_version_4 (random : nat -> Q) :
  (forall i, (0 <= random i)%Q /\ (random i < 1)%Q) ->
  let uuid := generateUUID random in
  String.length uuid = 36%nat
  /\ (forall i, In i [8; 13; 18; 23]%nat -> String.get i uuid = Some "-"%char)
  /\ String.get 14 uuid = Some "4"%char
  /\ (exists c, String.get 19 uuid = Some c /\ In c ["8"; "9"; "a"; "b"]%char)
  /\ (forall i, (i < 36)%nat -> ~ In i [8; 13; 18; 23]%nat ->
      exists c, String.get i uuid = Some c /\ is_hex c = true).
Proof.
  intros Hrandom uuid. subst uuid. unfold generateUUID. cbn.
  destruct (replacement_y (random 15%nat)) as (v & Hv & Hy);
    [apply Hrandom | apply Hrandom |].
  rewrite Hy.
  repeat rewrite replacement_x by apply Hrandom.
  cbn [String.append].
  pose proof (fun i => random_nibble (random i) (proj1 (Hrandom i)) (proj2 (Hrandom i)))
    as Hnibble.
  split; [reflexivity|]. split.
  { intros i Hi. cbn in Hi.
    destruct Hi as [<-|[<-|[<-|[<-|[]]]]]; reflexivity. }
  split; [reflexivity|]. split.
  { exists (hex_char v). split; [reflexivity|].
    assert (v = 8 \/ v = 9 \/ v = 10 \/ v = 11) as [->|[->|[->| ->]]] by lia;
      cbn; tauto. }
  intros i Hi Hdash.
  do 36 (destruct i as [|i];
         [first [ exfalso; apply Hdash; cbn; tauto
                | eexists; split; [reflexivity|];
                  first [ reflexivity
                        | apply hex_char_is_hex; first [apply Hnibble | lia] ] ] |]).
  lia.
Qed.

Lemma generateUUID_is_version_4_witness :
  let uuid := generateUUID (fun i => (Z.of_nat (i mod 16) # 17)%Q) in
  String.length uuid = 36%nat
  /\ (forall i, In i [8; 13; 18; 23]%nat -> String.get i uuid = Some "-"%char)
  /\ String.get 14 uuid = Some "4"%char
  /\ (exists c, String.get 19 uuid = Some c /\ In c ["8"; "9"; "a"; "b"]%char)
  /\ (forall i, (i < 36)%nat -> ~ In i [8; 13; 18; 23]%nat ->
      exists c, String.get i uuid = Some c /\ is_hex c = true).
Proof.
  apply (generateUUID_is_version_4 (fun i => (Z.of_nat (i mod 16) # 17)%Q)).
  intros i. pose proof (Nat.mod_upper_bound i 16 ltac:(lia)) as Hi.
  unfold Qle, Qlt. cbn. lia.
Defined.

End UuidProperties.

(** * Properties of escapeHtml *)

Section HtmlProperties.

Import Html.

Lemma append_cons c (a b : string) : String c a ++ b = String c (a ++ b).
Proof. reflexivity. Qed.

Lemma append_empty (b : string) : "" ++ b = b.
Proof. reflexivity. Qed.

Ltac push_append :=
  repeat first [rewrite append_cons | rewrite append_empty].

Ltac push_append_in H :=
  repeat first [rewrite append_cons in H | rewrite append_empty in H].

Lemma length_append (a b : string) :
  String.length (a ++ b) = (String.length a + String.length b)%nat.
Proof.
  induction a as [|c a IH]; push_append; cbn [String.length]; [reflexivity|].
  now rewrite IH.
Qed.

Lemma occurs_app c a b : occurs c (a ++ b) = occurs c a || occurs c b.
Proof.
  induction a as [|c1 a IH]; push_append; cbn [occurs]; [reflexivity|].
  rewrite IH. apply orb_assoc.
Qed.

(** What [entity] returns, by cases on the character. *)
Lemma entity_cases c :
  (c = "&"%char /\ entity c = "&amp;")
  \/ (c = "<"%char /\ entity c = "&lt;")
  \/ (c = ">"%char /\ entity c = "&gt;")
  \/ (c = double_quote /\ entity c = "&quot;")
  \/ (c = "'"%char /\ entity c = "&#039;")
  \/ (special c = false /\ entity c = String c "").
Proof.
  unfold entity.
  destruct (Ascii.eqb_spec c "&"); [tauto|].
  destruct (Ascii.eqb_spec c "<"); [tauto|].
  destruct (Ascii.eqb_spec c ">"); [tauto|].
  destruct (Ascii.eqb_spec c double_quote); [tauto|].
  destruct (Ascii.eqb_spec c "'"); [tauto|].
  do 5 right. split; [|reflexivity]. unfold special. cbn [existsb].
  repeat match goal with
         | H : c <> ?d |- context [Ascii.eqb c ?d] =>
             rewrite (proj2 (Ascii.eqb_neq c d) H)
         end.
  reflexivity.
Qed.

Lemma special_false c :
  special c = false ->
  c <> "&"%char /\ c <> "<"%char /\ c <> ">"%char /\ c <> double_quote
  /\ c <> "'"%char.
Proof.
  unfold special. cbn [existsb]. intros H.
  repeat (apply orb_false_elim in H; destruct H as [?%Ascii.eqb_neq H]).
  tauto.
Qed.

(** X2.  The text [escapeHtml] returns holds no angle bracket and no
    quote, single or double, whatever the input: it can be put between tags
    or inside a quoted attribute. *)
Theorem escapeHtml_leaves_no_markup (text : string) (c : ascii) :
  In c ["<"; ">"; double_quote; "'"]%char ->
  occurs c (escapeHtml text) = false.
Proof.
  intros Hc. induction text as [|c1 text IH]; [reflexivity|].
  cbn [escapeHtml]. rewrite occurs_app, IH, orb_false_r.
  destruct (entity_cases c1)
    as [[-> ->]|[[-> ->]|[[-> ->]|[[-> ->]|[[-> ->]|[Hplain ->]]]]]].
  1-5: cbn in Hc; destruct Hc as [<-|[<-|[<-|[<-|[]]]]]; reflexivity.
  apply special_false in Hplain. cbn [occurs]. rewrite orb_false_r.
  apply Ascii.eqb_neq.
  cbn in Hc; destruct Hc as [<-|[<-|[<-|[<-|[]]]]]; intros <-; tauto.
Qed.

Lemma escapeHtml_leaves_no_markup_witness :
  occurs "<" (escapeHtml "<img src=x onerror='alert(1)'>") = false.
Proof.
  apply (escapeHtml_leaves_no_markup "<img src=x onerror='alert(1)'>" "<").
  cbn. tauto.
Defined.

(** X3.  Escaping loses nothing: two texts with the same escaped form are
    the same text. *)
Theorem escapeHtml_injective (a b : string) :
  escapeHtml a = escapeHtml b -> a = b.
Proof.
  revert b. induction a as [|ca a IH]; intros [|cb b] H.
  - reflexivity.
  - exfalso. cbn [escapeHtml] in H.
    destruct (entity_cases cb)
      as [[_ E]|[[_ E]|[[_ E]|[[_ E]|[[_ E]|[_ E]]]]]];
      rewrite E in H; push_append_in H; discriminate H.
  - exfalso. cbn [escapeHtml] in H.
    destruct (entity_cases ca)
      as [[_ E]|[[_ E]|[[_ E]|[[_ E]|[[_ E]|[_ E]]]]]];
      rewrite E in H; push_append_in H; discriminate H.
  - cbn [escapeHtml] in H.
    destruct (entity_cases ca)
      as [[-> Ea]|[[-> Ea]|[[-> Ea]|[[-> Ea]|[[-> Ea]|[Ha Ea]]]]]];
      destruct (entity_cases cb)
        as [[-> Eb]|[[-> Eb]|[[-> Eb]|[[-> Eb]|[[-> Eb]|[Hb Eb]]]]]];
      rewrite ?Ea, ?Eb in H; clear Ea Eb;
      push_append_in H;
      try discriminate H;
      try (injection H as H; f_equal; apply IH; exact H).
    all: try (apply special_false in Hb; injection H as Hc _; exfalso;
              subst cb; tauto).
    all: try (apply special_false in Ha; injection H as Hc _; exfalso;
              subst ca; tauto).
    injection H as -> H. f_equal. apply IH. exact H.
Qed.

Lemma escapeHtml_injective_witness : "a<b" = "a<b".
Proof.
  apply (escapeHtml_injective "a<b" "a<b"). reflexivity.
Defined.

Lemma escapeHtml_length text :
  (String.length text <= String.length (escapeHtml text))%nat.
Proof.
  induction text as [|c text IH]; [cbn; lia|].
  cbn [escapeHtml]. rewrite length_append.
  destruct (entity_cases c)
    as [[_ ->]|[[_ ->]|[[_ ->]|[[_ ->]|[[_ ->]|[_ ->]]]]]];
    cbn [String.length]; lia.
Qed.

(** X4.  [escapeHtml] changes a text exactly when the text holds one of the
    five characters of the pattern; so an already escaped text that holds an
    ampersand is escaped again. *)
Theorem escapeHtml_fixes_exactly_plain_text (text : string) :
  escapeHtml text = text <-> has_special text = false.
Proof.
  split.
  - induction text as [|c text IH]; [reflexivity|].
    cbn [escapeHtml has_special]. intros H.
    destruct (entity_cases c)
      as [[-> E]|[[-> E]|[[-> E]|[[-> E]|[[-> E]|[Hplain E]]]]]];
      rewrite E in H; clear E.
    1-5: exfalso; apply (f_equal String.length) in H;
         push_append_in H; cbn [String.length] in H;
         pose proof (escapeHtml_length text); lia.
    rewrite Hplain. push_append_in H. injection H as H.
    cbn [orb]. apply IH, H.
  - induction text as [|c text IH]; [reflexivity|].
    cbn [escapeHtml has_special]. intros [Hc Hrest]%orb_false_elim.
    rewrite (IH Hrest). unfold entity.
    apply special_false in Hc. destruct Hc as (H1 & H2 & H3 & H4 & H5).
    rewrite (proj2 (Ascii.eqb_neq _ _) H1), (proj2 (Ascii.eqb_neq _ _) H2),
      (proj2 (Ascii.eqb_neq _ _) H3), (proj2 (Ascii.eqb_neq _ _) H4),
      (proj2 (Ascii.eqb_neq _ _) H5).
    reflexivity.
Qed.

End HtmlProperties.

(** * Properties of the share link and of getReleaseIdFromPath *)

Section ViewerProperties.

Import Viewer.

Lemma digits_prefix_all_digits s : all_digits (digits_prefix s) = true.
Proof.
  induction s as [|c s IH]; [reflexivity|].
  cbn [digits_prefix]. destruct (is_digit c) eqn:Hc; [|reflexivity].
  cbn [all_digits]. now rewrite Hc, IH.
Qed.

Lemma digits_prefix_id s : all_digits s = true -> digits_prefix s = s.
Proof.
  induction s as [|c s IH]; [reflexivity|].
  cbn [all_digits digits_prefix]. intros [Hc Hs]%andb_prop.
  now rewrite Hc, (IH Hs).
Qed.

Lemma pretty_N_char_is_digit x : is_digit (pretty_N_char x) = true.
Proof.
  unfold pretty_N_char. repeat case_match; reflexivity.
Qed.

Lemma pretty_N_go_digits x s :
  all_digits s = true -> all_digits (pretty_N_go x s) = true.
Proof.
  revert s. induction (N.lt_wf_0 x) as [x _ IH]. intros s Hs.
  assert (x = 0 \/ 0 < x)%N as [->|Hx] by lia.
  - now rewrite pretty_N_go_0.
  - rewrite pretty_N_go_step by exact Hx. apply IH.
    + now apply N.div_lt.
    + cbn [all_digits]. now rewrite pretty_N_char_is_digit, Hs.
Qed.

Lemma pretty_N_go_nonempty x s : s <> "" -> pretty_N_go x s <> "".
Proof.
  revert s. induction (N.lt_wf_0 x) as [x _ IH]. intros s Hs.
  assert (x = 0 \/ 0 < x)%N as [->|Hx] by lia.
  - now rewrite pretty_N_go_0.
  - rewrite pretty_N_go_step by exact Hx. apply IH.
    + now apply N.div_lt.
    + discriminate.
Qed.

Lemma pretty_nonneg_digits (n : Z) :
  0 <= n -> all_digits (pretty n) = true /\ pretty n <> "".
Proof.
  intros Hn. destruct n as [|p|p]; [split; [reflexivity|discriminate]| |lia].
  unfold pretty, pretty_Z, pretty, pretty_positive, pretty, pretty_N.
  destruct (decide (N.pos p = 0%N)) as [Hp|_]; [discriminate Hp|].
  rewrite pretty_N_go_step by lia. split.
  - apply pretty_N_go_digits. cbn [all_digits].
    now rewrite pretty_N_char_is_digit.
  - apply pretty_N_go_nonempty. discriminate.
Qed.

(** X5.  The share link of an upload leads back to it: for a release
    number [n] from 0 to 2^53 - 1 (the whole numbers that are written out in
    full) the viewer reads, from the path [/v/n] that [showSuccess] and
    [displayMyFiles] build, the decimal text of [n]. *)
Theorem share_link_round_trip (release_id : Z) :
  0 <= release_id <= 9007199254740991 ->
  getReleaseIdFromPath (share_path release_id) = Some (pretty release_id).
Proof.
  intros [Hn _]. destruct (pretty_nonneg_digits release_id Hn) as [Hdigits Hne].
  unfold share_path.
  destruct (pretty release_id) as [|d after] eqn:Hpretty; [congruence|].
  change ("/v/" ++ String d after)
    with (String "/" (String "v" (String "/" (String d after)))).
  cbn [getReleaseIdFromPath].
  pose proof Hdigits as Hall. cbn [all_digits] in Hdigits.
  apply andb_prop in Hdigits as [Hd _]. rewrite Hd.
  cbn [Ascii.eqb Bool.eqb andb]. f_equal. now apply digits_prefix_id.
Qed.

Lemma share_link_round_trip_witness :
  getReleaseIdFromPath (share_path 123456789) = Some (pretty 123456789).
Proof.
  apply (share_link_round_trip 123456789). lia.
Defined.

(** X6.  Whatever the path, an identifier that [getReleaseIdFromPath]
    returns is a non-empty run of decimal digits that stands in the path
    right after [/v/]. *)
Theorem getReleaseIdFromPath_returns_digits (pathname id : string) :
  getReleaseIdFromPath pathname = Some id ->
  id <> "" /\ all_digits id = true
  /\ exists before after, pathname = before ++ "/v/" ++ id ++ after.
Proof.
  revert id. induction pathname as [|c1 rest IH]; intros id H; [discriminate H|].
  assert (Hskip : getReleaseIdFromPath rest = Some id ->
                  id <> "" /\ all_digits id = true
                  /\ exists before after,
                       String c1 rest = before ++ "/v/" ++ id ++ after).
  { intros Hrest. destruct (IH id Hrest) as (Hne & Hall & before & after & ->).
    split; [exact Hne|]. split; [exact Hall|].
    exists (String c1 before), after. reflexivity. }
  cbn [getReleaseIdFromPath] in H.
  destruct rest as [|c2 [|c3 [|d after]]]; try (apply Hskip, H).
  destruct (Ascii.eqb c1 "/" && Ascii.eqb c2 "v" && Ascii.eqb c3 "/" && is_digit d)
    eqn:Hhere; [|apply Hskip, H].
  clear Hskip IH. injection H as <-.
  apply andb_prop in Hhere as [Hhere Hd].
  apply andb_prop in Hhere as [Hhere H3].
  apply andb_prop in Hhere as [H1 H2].
  apply Ascii.eqb_eq in H1, H2, H3. subst c1 c2 c3.
  change (if is_digit d then String d (digits_prefix after) else "")
    with (digits_prefix (String d after)).
  split; [cbn [digits_prefix]; rewrite Hd; discriminate|].
  split; [apply digits_prefix_all_digits|].
  exists "". 
  assert (Hsplit : forall s, exists tail, s = digits_prefix s ++ tail).
  { induction s as [|c s [tail IHs]]; [now exists ""|].
    cbn [digits_prefix]. destruct (is_digit c).
    - exists tail. now rewrite IHs at 1.
    - now exists (String c s). }
  destruct (Hsplit (String d after)) as [tail Htail].
  exists tail.
  change ("" ++ "/v/" ++ digits_prefix (String d after) ++ tail)
    with (String "/" (String "v" (String "/"
            (digits_prefix (String d after) ++ tail)))).
  now rewrite <- Htail.
Qed.

Lemma getReleaseIdFromPath_returns_digits_witness :
  "42" <> "" /\ all_digits "42" = true
  /\ exists before after, "/files/v/42/raw" = before ++ "/v/" ++ "42" ++ after.
Proof.
  apply (getReleaseIdFromPath_returns_digits "/files/v/42/raw" "42").
  reflexivity.
Defined.

End ViewerProperties.

(** * Properties of calculateCompressionParams *)

Section CompressParamsProperties.

Import CompressParams.

Lemma round_to_even_spec x : round_to_even x = x + x mod 2.
Proof.
  unfold round_to_even, Display.Math_round.
  assert (Heq : (inject_Z x / (2 # 1) + (1 # 2) == (x + 1) # 2)%Q).
  { unfold Qeq, Qdiv, Qmult, Qplus, Qinv, inject_Z. cbn. lia. }
  rewrite (Qfloor_comp _ _ Heq). unfold Qfloor.
  change (Z.pos 2) with 2.
  pose proof (Z.div_mod (x + 1) 2 ltac:(lia)) as Hdiv.
  pose proof (Z.mod_pos_bound (x + 1) 2 ltac:(lia)) as Hb1.
  pose proof (Z.mod_pos_bound x 2 ltac:(lia)) as Hb2.
  pose proof (Z.div_mod x 2 ltac:(lia)) as Hdiv2.
  assert (Hcases : x mod 2 = 0 \/ x mod 2 = 1) by lia.
  destruct Hcases as [H0 | H1].
  - assert ((x + 1) mod 2 = 1).
    { rewrite <- Z.add_mod_idemp_l by lia. now rewrite H0. }
    lia.
  - assert ((x + 1) mod 2 = 0).
    { rewrite <- Z.add_mod_idemp_l by lia. now rewrite H1. }
    lia.
Qed.

(** X7.  The frame size handed to the encoder is even on both axes (as
    the H.264 encoder needs): each axis is the smaller of the video's and
    the configured maximum, moved up by one when that is odd; so an odd
    configured maximum is exceeded by one.  The frame rate never exceeds the
    configured one. *)
Theorem calculateCompressionParams_even_frame
    (config : Config) (videoInfo : VideoInfo) (originalSize : Z) :
  let params := calculateCompressionParams config videoInfo originalSize in
  let w := Z.min (width videoInfo) (maxWidth config) in
  let h := Z.min (height videoInfo) (maxHeight config) in
  params_width params = w + w mod 2
  /\ params_height params = h + h mod 2
  /\ Z.even (params_width params) = true
  /\ Z.even (params_height params) = true
  /\ params_fps params <= fps config.
Proof.
  cbv zeta. unfold calculateCompressionParams.
  cbn [params_width params_height params_fps].
  rewrite !round_to_even_spec.
  assert (Heven : forall m, Z.even (m + m mod 2) = true).
  { intros m. rewrite Z.even_add, <- Z.bit0_mod, Z.bit0_odd.
    rewrite <- Z.negb_odd. now destruct (Z.odd m). }
  repeat split; try apply Heven. apply Z.le_min_r.
Qed.

Lemma bitrate_of_compress originalSize :
  bitrate_kbps default_config videoInfo_of_compress originalSize
  = Z.max 500 (Z.min 8388 (originalSize / 15625)).
Proof.
  unfold bitrate_kbps.
  cbn [maxOutputSize default_config duration videoInfo_of_compress].
  change (Qeq_bool (100 # 1) 0) with false. cbv iota.
  rewrite Z.max_comm. f_equal.
  destruct (Q.min_spec (inject_Z (100 * 1024 * 1024))
              (inject_Z originalSize * (8 # 10))%Q) as [[Hlt Hmin]|[Hle Hmin]].
  - rewrite (Qfloor_comp _ (8388608 # 1000)%Q).
    2:{ rewrite Hmin. reflexivity. }
    assert (131072000 < originalSize).
    { unfold Qlt, Qmult, inject_Z in Hlt. cbn in Hlt. lia. }
    change (Qfloor (8388608 # 1000)) with 8388.
    rewrite Z.min_l; [reflexivity|].
    apply Z.div_le_lower_bound; lia.
  - rewrite (Qfloor_comp _ (originalSize # 15625)%Q).
    2:{ rewrite Hmin. unfold Qeq, Qdiv, Qmult, Qinv, inject_Z. cbn. lia. }
    assert (originalSize <= 131072000).
    { unfold Qle, Qmult, inject_Z in Hle. cbn in Hle. lia. }
    unfold Qfloor. change (Z.pos 15625) with 15625.
    rewrite Z.min_r; [reflexivity|].
    assert (originalSize / 15625 < 8389); [|lia].
    apply Z.div_lt_upper_bound; lia.
Qed.

(** X9.  With the default configuration, [compress] (which describes every
    video as 1920x1080, 30 fps, 100 s) always encodes to 1280x720 at 30 fps
    with preset fast, at [originalSize / 15625] kbit/s kept between 500 and
    8388: files under 7 812 500 bytes get the floor of 500k, files over
    131 MB the ceiling. *)
Theorem compress_params_for_default_config (originalSize : Z) :
  calculateCompressionParams default_config videoInfo_of_compress originalSize
  = {| params_width := 1280; params_height := 720; params_fps := 30;
       params_bitrate :=
         pretty (Z.max 500 (Z.min 8388 (originalSize / 15625))) ++ "k";
       params_preset := "fast" |}.
Proof.
  unfold calculateCompressionParams.
  rewrite bitrate_of_compress. reflexivity.
Qed.

End CompressParamsProperties.

(** * The bitrate of calculateCompressionParams in the numbers of JavaScript *)

Section Binary64Properties.

Import Binary64 CompressBitrate.

Open Scope Q_scope.

Lemma pow2_pos e : 0 < pow2 e.
Proof. apply Qpower_0_lt. reflexivity. Qed.

Lemma pow2_add a b : pow2 (a + b)%Z == pow2 a * pow2 b.
Proof. apply Qpower_plus. discriminate. Qed.

Lemma pow2_Z (n : Z) : (0 <= n)%Z -> pow2 n == inject_Z (2 ^ n)%Z.
Proof. intros Hn. unfold pow2. now rewrite Zpower_Qpower. Qed.

Lemma pow2_lt a b : (a < b)%Z -> pow2 a < pow2 b.
Proof. intros Hab. apply Qpower_lt_compat_l; [exact Hab | reflexivity]. Qed.

Lemma pow2_le a b : (a <= b)%Z -> pow2 a <= pow2 b.
Proof. intros Hab. apply Qpower_le_compat_l; [exact Hab | discriminate]. Qed.

Lemma pow2_lt_inv a b : pow2 a < pow2 b -> (a < b)%Z.
Proof. intros Hab. apply (Qpower_lt_compat_l_inv (2 # 1)); [exact Hab | reflexivity]. Qed.

Lemma nearest_even_bounds s :
  s - (1 # 2) <= inject_Z (nearest_even s) <= s + (1 # 2).
Proof.
  unfold nearest_even.
  pose proof (Qfloor_le s) as Hlow. pose proof (Qlt_floor s) as Hhigh.
  rewrite inject_Z_plus in Hhigh. change (inject_Z 1%Z) with 1 in Hhigh.
  destruct (Qcompare (s - inject_Z (Qfloor s)) (1 # 2)) eqn:Hcmp.
  - apply Qeq_alt in Hcmp.
    destruct (Z.even (Qfloor s));
      [|rewrite inject_Z_plus; change (inject_Z 1%Z) with 1]; lra.
  - apply Qlt_alt in Hcmp. lra.
  - apply Qgt_alt in Hcmp. rewrite inject_Z_plus.
    change (inject_Z 1%Z) with 1. lra.
Qed.

(** The exponent found for a number that is not too small is the one of its
    significand of 53 bits. *)
Lemma exponent_normal a :
  pow2 (-1022) <= a ->
  pow2 (exponent a + 52)%Z <= a < pow2 (exponent a + 53)%Z.
Proof.
  intros Hnormal.
  assert (Hpos : 0 < a) by (pose proof (pow2_pos (-1022)); lra).
  destruct a as [n p]. unfold exponent. cbn [Qnum Qden].
  assert (Hn : (0 < n)%Z) by (unfold Qlt in Hpos; cbn in Hpos; lia).
  destruct (Z.log2_spec n Hn) as [Hn1 Hn2].
  destruct (Z.log2_spec (Z.pos p) ltac:(lia)) as [Hp1 Hp2].
  pose proof (Z.log2_nonneg n) as Hln. pose proof (Z.log2_nonneg (Z.pos p)) as Hlp.
  set (ln := Z.log2 n) in *. set (lp := Z.log2 (Z.pos p)) in *.
  assert (Hlower : pow2 (ln - lp - 1)%Z <= n # p).
  { assert (Heq : pow2 (ln - lp - 1)%Z * pow2 (lp + 1)%Z == pow2 ln).
    { rewrite <- pow2_add. apply Qpower_comp; [reflexivity | lia]. }
    rewrite (pow2_Z (lp + 1)%Z), (pow2_Z ln) in Heq by lia.
    apply (Qmult_le_r _ _ (inject_Z (2 ^ (lp + 1))%Z)).
    { change 0 with (inject_Z 0%Z). rewrite <- Zlt_Qlt. lia. }
    rewrite Heq. unfold Qle, Qmult, inject_Z. cbn [Qnum Qden].
    rewrite Z.add_1_r. nia. }
  assert (Hupper : n # p < pow2 (ln - lp + 1)%Z).
  { assert (Heq : pow2 (ln - lp + 1)%Z * pow2 lp == pow2 (ln + 1)%Z).
    { rewrite <- pow2_add. apply Qpower_comp; [reflexivity | lia]. }
    rewrite (pow2_Z lp), (pow2_Z (ln + 1)%Z) in Heq by lia.
    apply (Qmult_lt_r _ _ (inject_Z (2 ^ lp)%Z)).
    { change 0 with (inject_Z 0%Z). rewrite <- Zlt_Qlt. lia. }
    rewrite Heq. unfold Qlt, Qmult, inject_Z. cbn [Qnum Qden].
    rewrite Z.add_1_r. nia. }
  destruct (Qle_bool (pow2 (ln - lp)%Z) (n # p)) eqn:Htest.
  - apply Qle_bool_iff in Htest.
    assert (Hfloor : (-1074 <= ln - lp - 52)%Z).
    { assert (pow2 (-1022) < pow2 (ln - lp + 1)%Z) by lra.
      apply pow2_lt_inv in H. lia. }
    rewrite Z.max_l by exact Hfloor.
    replace (ln - lp - 52 + 52)%Z with (ln - lp)%Z by lia.
    replace (ln - lp - 52 + 53)%Z with (ln - lp + 1)%Z by lia.
    split; assumption.
  - assert (Hless : n # p < pow2 (ln - lp)%Z).
    { apply Qnot_le_lt. intros Hle. apply Qle_bool_iff in Hle. congruence. }
    assert (Hfloor : (-1074 <= ln - lp - 53)%Z).
    { assert (pow2 (-1022) < pow2 (ln - lp)%Z) by lra.
      apply pow2_lt_inv in H. lia. }
    rewrite Z.max_l by exact Hfloor.
    replace (ln - lp - 53 + 52)%Z with (ln - lp - 1)%Z by lia.
    replace (ln - lp - 53 + 53)%Z with (ln - lp)%Z by lia.
    split; assumption.
Qed.

(** Rounding a positive number that is neither too small nor too large moves
    it by no more than one part in 2^53. *)
Lemma round_normal x :
  pow2 (-1022) <= x <= pow2 1023 ->
  exists v,
    round x = Finite v
    /\ x * (1 - pow2 (-53)) <= v <= x * (1 + pow2 (-53)).
Proof.
  intros [Hlow Hhigh].
  assert (Hpos : 0 < x) by (pose proof (pow2_pos (-1022)); lra).
  unfold round.
  destruct (Qeq_bool x 0) eqn:Hzero;
    [apply Qeq_bool_iff in Hzero; lra|].
  assert (Hsign : is_negative x = false).
  { unfold is_negative. apply Z.ltb_ge. unfold Qlt in Hpos. cbn in Hpos. lia. }
  rewrite Hsign.
  destruct (exponent_normal x Hlow) as [He1 He2].
  set (e := exponent x) in *.
  pose proof (nearest_even_bounds (x / pow2 e)) as [Hm1 Hm2].
  set (m := inject_Z (nearest_even (x / pow2 e))) in *.
  pose proof (pow2_pos e) as Hpe.
  assert (Hscaled : x / pow2 e * pow2 e == x) by (field; lra).
  assert (Hhalf : pow2 e * (1 # 2) <= x * pow2 (-53)).
  { assert (Heq : pow2 (e + 52)%Z * pow2 (-53) == pow2 e * (1 # 2)).
    { rewrite pow2_add, <- Qmult_assoc, <- pow2_add. reflexivity. }
    rewrite <- Heq. apply Qmult_le_compat_r; [exact He1|].
    apply Qlt_le_weak, pow2_pos. }
  assert (Hv1 : x - pow2 e * (1 # 2) <= m * pow2 e).
  { pose proof (Qmult_le_compat_r _ _ (pow2 e) Hm1 (Qlt_le_weak _ _ Hpe)) as H.
    assert (Heq : (x / pow2 e - (1 # 2)) * pow2 e == x - pow2 e * (1 # 2))
      by (field; lra).
    rewrite Heq in H. exact H. }
  assert (Hv2 : m * pow2 e <= x + pow2 e * (1 # 2)).
  { pose proof (Qmult_le_compat_r _ _ (pow2 e) Hm2 (Qlt_le_weak _ _ Hpe)) as H.
    assert (Heq : (x / pow2 e + (1 # 2)) * pow2 e == x + pow2 e * (1 # 2))
      by (field; lra).
    rewrite Heq in H. exact H. }
  assert (Hfinite : Qle_bool (pow2 1024) (m * pow2 e) = false).
  { destruct (Qle_bool (pow2 1024) (m * pow2 e)) eqn:Hover; [|reflexivity].
    apply Qle_bool_iff in Hover. exfalso.
    assert (Hsmall : pow2 (-53) < 1) by reflexivity.
    assert (Hdouble : pow2 1024 == pow2 1023 * 2).
    { change 1024%Z with (1023 + 1)%Z. rewrite pow2_add. reflexivity. }
    assert (x * pow2 (-53) < x).
    { rewrite <- (Qmult_1_r x) at 2. apply Qmult_lt_l; assumption. }
    lra. }
  rewrite Hfinite. exists (m * pow2 e). split; [reflexivity|]. lra.
Qed.


(** The same for the numbers the bitrate meets, zero among them. *)
Lemma round_near x :
  x == 0 \/ (1 # 1000000000000000) <= x <= 1000000000000000000000 # 1 ->
  exists v,
    round x = Finite v
    /\ x * (1 - (1 # 9007199254740992)) <= v
    /\ v <= x * (1 + (1 # 9007199254740992)).
Proof.
  intros [Hzero | [Hlow Hhigh]].
  - exists 0. unfold round.
    destruct (Qeq_bool x 0) eqn:Htest.
    + split; [reflexivity|]. rewrite Hzero. split; discriminate.
    + apply Qeq_bool_neq in Htest. contradiction.
  - destruct (round_normal x) as (v & Hv & Hv1 & Hv2).
    + split.
      * apply Qle_trans with (pow2 (-60)); [apply pow2_le; lia|].
        apply Qle_trans with (1 # 1000000000000000);
          [discriminate | exact Hlow].
      * apply Qle_trans with (pow2 70); [|apply pow2_le; lia].
        apply Qle_trans with (1000000000000000000000 # 1);
          [exact Hhigh | discriminate].
    + exists v. split; [exact Hv|].
      change (pow2 (-53)) with (1 # 9007199254740992) in Hv1, Hv2.
      split; assumption.
Qed.

Lemma round_0_8 : round (8 # 10) = Finite (7205759403792794 # 9007199254740992).
Proof. vm_compute. reflexivity. Qed.

Lemma bitrate_value (maxOutputSize originalSize : Z) (duration : Q) :
  (0 <= maxOutputSize < 2 ^ 53)%Z ->
  (0 <= originalSize < 2 ^ 53)%Z ->
  let durationSeconds := if Qeq_bool duration 0 then 100 # 1 else duration in
  (1 # 1000) <= durationSeconds <= 1000000000 # 1 ->
  exists v,
    bitrate (Finite (inject_Z maxOutputSize)) (Finite (inject_Z originalSize))
      (Finite duration)
    = Finite (Qmax (inject_Z (Qfloor v)) (500 # 1))
    /\ 0 <= v <= 100000000000000000000 # 1
    /\ v * 1000 * durationSeconds
       <= 8 * Qmin (inject_Z maxOutputSize) (inject_Z originalSize * (8 # 10))
          * (1 + pow2 (-50)).
Proof.
  intros HM HS D [HD1 HD2]. unfold bitrate.
  assert (Hduration : or_else (Finite duration) (Finite (100 # 1)) = Finite D).
  { unfold or_else, D. now destruct (Qeq_bool duration 0). }
  rewrite Hduration, round_0_8. clear Hduration.
  set (M := inject_Z maxOutputSize). set (S := inject_Z originalSize).
  assert (HM0 : M == 0 \/ 1 <= M).
  { destruct (Z.eq_dec maxOutputSize 0%Z) as [->|]; [left; reflexivity|].
    right. change 1 with (inject_Z 1%Z). unfold M. rewrite <- Zle_Qle. lia. }
  assert (HM1 : 0 <= M <= 9007199254740992 # 1).
  { unfold M. change 0 with (inject_Z 0%Z).
    change (9007199254740992 # 1) with (inject_Z (2 ^ 53)%Z).
    rewrite <- !Zle_Qle. lia. }
  assert (HS0 : S == 0 \/ 1 <= S).
  { destruct (Z.eq_dec originalSize 0%Z) as [->|]; [left; reflexivity|].
    right. change 1 with (inject_Z 1%Z). unfold S. rewrite <- Zle_Qle. lia. }
  assert (HS1 : 0 <= S <= 9007199254740992 # 1).
  { unfold S. change 0 with (inject_Z 0%Z).
    change (9007199254740992 # 1) with (inject_Z (2 ^ 53)%Z).
    rewrite <- !Zle_Qle. lia. }
  clearbody M S.
  (* originalSize * 0.8 *)
  cbn [mul].
  destruct (round_near (S * (7205759403792794 # 9007199254740992)))
    as (v1 & -> & Hv1a & Hv1b).
  { destruct HS0 as [HS0|HS0]; [left; rewrite HS0; reflexivity | right; lra]. }
  (* targetSize *)
  cbn [Math_min].
  set (T := Qmin M v1).
  assert (HT : (T == 0 \/ (1 # 2) <= T) /\ 0 <= T /\ T <= M /\ T <= v1).
  { unfold T. destruct (Q.min_spec M v1) as [[Hlt ->] | [Hle ->]];
      (split; [destruct HM0, HS0; [left|left|left|right]; lra | lra]). }
  clearbody T. destruct HT as (HT0 & HT1 & HT2 & HT3).
  (* targetSize * 8 *)
  cbn [mul].
  destruct (round_near (T * (8 # 1))) as (v2 & -> & Hv2a & Hv2b).
  { destruct HT0 as [HT0|HT0]; [left; rewrite HT0; reflexivity | right; lra]. }
  (* / durationSeconds *)
  cbn [div].
  assert (HDpos : 0 < D) by lra.
  destruct (Qeq_bool D 0) eqn:HDzero;
    [apply Qeq_bool_iff in HDzero; lra | clear HDzero].
  set (y := v2 / D).
  assert (Hy : y * D == v2) by (unfold y; field; lra).
  assert (Hy0 : y == 0 \/ (1 # 1000000000) <= y).
  { destruct HT0 as [HT0|HT0].
    - left. unfold y. assert (v2 == 0) as -> by lra. field. lra.
    - right. unfold y. apply Qle_shift_div_l; [exact HDpos | lra]. }
  assert (Hy1 : 0 <= y <= 100000000000000000000 # 1).
  { unfold y. split.
    - apply Qle_shift_div_l; [exact HDpos | lra].
    - apply Qle_shift_div_r; [exact HDpos | lra]. }
  clearbody y.
  destruct (round_near y) as (v3 & -> & Hv3a & Hv3b).
  { destruct Hy0 as [Hy0|Hy0]; [left; exact Hy0 | right; lra]. }
  (* / 1000 *)
  cbn [div]. change (Qeq_bool (1000 # 1) 0) with false. cbv iota.
  destruct (round_near (v3 / (1000 # 1))) as (v4 & -> & Hv4a & Hv4b).
  { destruct Hy0 as [Hy0|Hy0]; [left | right].
    - assert (v3 == 0) as -> by lra. reflexivity.
    - unfold Qdiv. change (/ (1000 # 1)) with (1 # 1000). lra. }
  unfold Qdiv in Hv4a, Hv4b. change (/ (1000 # 1)) with (1 # 1000) in Hv4a, Hv4b.
  cbn [Math_floor Math_max].
  exists v4. split; [reflexivity|]. split; [lra|].
  change (pow2 (-50)) with (1 # 1125899906842624).
  assert (Hscaled : v4 * 1000 * D
                    <= v2 * (1 + (1 # 9007199254740992))
                          * (1 + (1 # 9007199254740992))).
  { assert (Hk : v4 * 1000
                  <= y * ((1 + (1 # 9007199254740992))
                          * (1 + (1 # 9007199254740992)))) by lra.
    pose proof (Qmult_le_compat_r _ _ D Hk (Qlt_le_weak _ _ HDpos)) as H.
    assert (Heq : y * ((1 + (1 # 9007199254740992))
                       * (1 + (1 # 9007199254740992))) * D
                  == v2 * (1 + (1 # 9007199254740992))
                        * (1 + (1 # 9007199254740992)))
      by (rewrite <- Hy; ring).
    rewrite <- Heq. exact H. }
  destruct (Q.min_spec M (S * (8 # 10))) as [[Hlt ->] | [Hle ->]]; lra.
Qed.

(** X8.  The bitrate handed to the encoder, computed as JavaScript computes
    it (every product and quotient rounded to a number of 64 bits): for
    sizes that are whole numbers under 2^53 and a duration between a
    millisecond and a billion seconds (a duration of zero counts as 100 s),
    it is a whole number of kbit/s followed by [k], never under 500; and
    unless it is 500, what it gives over the duration is no more than the
    smaller of the configured output limit and 80 % of the original size, up
    to one part in 2^50 that the rounding can add. *)
Theorem calculateCompressionParams_bitrate_bounds
    (maxOutputSize originalSize : Z) (duration : Q) :
  (0 <= maxOutputSize < 2 ^ 53)%Z ->
  (0 <= originalSize < 2 ^ 53)%Z ->
  let durationSeconds := if Qeq_bool duration 0 then 100 # 1 else duration in
  (1 # 1000) <= durationSeconds <= 1000000000 # 1 ->
  exists kbps : Z,
    bitrate_text (Finite (inject_Z maxOutputSize))
      (Finite (inject_Z originalSize)) (Finite duration)
    = Some (pretty kbps ++ "k")%string
    /\ (500 <= kbps)%Z
    /\ (kbps = 500%Z
        \/ inject_Z kbps * 1000 * durationSeconds
           <= 8 * Qmin (inject_Z maxOutputSize)
                    (inject_Z originalSize * (8 # 10))
              * (1 + pow2 (-50))).
Proof.
  intros HM HS D HD.
  destruct (bitrate_value maxOutputSize originalSize duration HM HS HD)
    as (v & Hbitrate & [Hv0 Hv1] & Hbound).
  fold D in Hbound.
  exists (Z.max (Qfloor v) 500%Z).
  assert (Hmax : Qmax (inject_Z (Qfloor v)) (500 # 1)
                 == inject_Z (Z.max (Qfloor v) 500%Z)).
  { destruct (Q.max_spec (inject_Z (Qfloor v)) (500 # 1)) as [[Hlt ->] | [Hle ->]].
    - change (500 # 1) with (inject_Z 500%Z) in Hlt |- *.
      rewrite <- Zlt_Qlt in Hlt. now rewrite Z.max_r by lia.
    - change (500 # 1) with (inject_Z 500%Z) in Hle.
      rewrite <- Zle_Qle in Hle. now rewrite Z.max_l by lia. }
  split; [|split; [lia|]].
  - unfold bitrate_text. rewrite Hbitrate. unfold to_text.
    rewrite (Qfloor_comp _ _ Hmax), Qfloor_Z.
    assert (Hwhole : Qeq_bool (Qmax (inject_Z (Qfloor v)) (500 # 1))
                       (inject_Z (Z.max (Qfloor v) 500%Z)) = true)
      by (apply Qeq_bool_iff, Hmax).
    rewrite Hwhole. cbn [andb].
    assert (Hsmall : (Z.abs (Z.max (Qfloor v) 500%Z) <? 10 ^ 21)%Z = true).
    { apply Z.ltb_lt.
      assert (Qfloor v <= 100000000000000000000)%Z.
      { rewrite <- (Qfloor_Z 100000000000000000000%Z).
        apply Qfloor_resp_le. exact Hv1. }
      lia. }
    rewrite Hsmall. reflexivity.
  - destruct (Z.max_spec (Qfloor v) 500) as [[Hlt ->] | [Hle ->]];
      [left; reflexivity | right].
    apply Qle_trans with (v * 1000 * D); [|exact Hbound].
    pose proof (Qfloor_le v) as Hfloor.
    assert (0 <= D) by (destruct HD; lra).
    apply Qmult_le_compat_r; [lra | assumption].
Qed.

Lemma calculateCompressionParams_bitrate_bounds_witness :
  exists kbps : Z,
    bitrate_text (Finite (inject_Z 6300%Z)) (Finite (inject_Z 50000000%Z))
      (Finite (3602879701896397 # 36028797018963968))
    = Some (pretty kbps ++ "k")%string
    /\ (500 <= kbps)%Z
    /\ (kbps = 500%Z
        \/ inject_Z kbps * 1000 * (3602879701896397 # 36028797018963968)
           <= 8 * Qmin (inject_Z 6300%Z) (inject_Z 50000000%Z * (8 # 10))
              * (1 + pow2 (-50))).
Proof.
  apply (calculateCompressionParams_bitrate_bounds 6300%Z 50000000%Z
           (3602879701896397 # 36028797018963968)).
  - lia.
  - lia.
  - split; discriminate.
Defined.

End Binary64Properties.

(** * Further properties of the report handler *)

Section ReportHandlerProperties.

Import ReportSubmit ReportSequence.

#[local] Arguments checkReportRateLimit : simpl never.
#[local] Arguments handle_report : simpl never.

Lemma handle_report_keeps_limits event env ip st :
  reportRateLimit (handle_report event env ip st).2 = reportRateLimit st.
Proof.
  unfold handle_report.
  destruct (event_body event) as [ | message | f x y a ]; cbn; try reflexivity.
  destruct (truthy_str f), (truthy_str x), (truthy_str y); cbn; try reflexivity.
  destruct (js_truthy (get_property REPORT_REASONS (default "" y))); cbn;
    [|reflexivity].
  unfold sendDiscordWebhook.
  destruct (env_webhook_url env); [destruct (env_webhook env)|]; reflexivity.
Qed.

Lemma handle_report_status event env ip st response :
  (handle_report event env ip st).1 = Ok response -> statusCode response = 200.
Proof.
  unfold handle_report.
  destruct (event_body event) as [ | message | f x y a ]; cbn; try discriminate.
  destruct (truthy_str f), (truthy_str x), (truthy_str y); cbn; try discriminate.
  destruct (js_truthy (get_property REPORT_REASONS (default "" y))); cbn;
    [|discriminate].
  unfold sendDiscordWebhook.
  destruct (env_webhook_url env); [destruct (env_webhook env)|]; cbn;
    try discriminate.
  intros [= <-]. reflexivity.
Qed.

Lemma handler_post event env st :
  httpMethod event = "POST" ->
  let check :=
    checkReportRateLimit (env_now env) (client_ip event) (reportRateLimit st) in
  reportRateLimit (handler event env st).2 = check.2
  /\ (statusCode (handler event env st).1 =? 429) = negb check.1.
Proof.
  intros Hpost check. unfold handler. rewrite Hpost.
  cbn [String.eqb Ascii.eqb Bool.eqb negb]. cbn beta iota zeta.
  subst check.
  destruct (checkReportRateLimit _ _ _) as [allowed limits]. cbn [fst snd].
  destruct allowed; cbn [negb]; [|split; reflexivity].
  match goal with
  | |- context [handle_report ?e ?v ?i ?s] =>
      pose proof (handle_report_keeps_limits e v i s) as Hkeep;
      pose proof (handle_report_status e v i s) as Hstatus;
      destruct (handle_report e v i s) as [[response|message] st1]
  end; cbn [fst snd] in *.
  - split; [exact Hkeep|]. now rewrite (Hstatus response eq_refl).
  - split; [exact Hkeep|reflexivity].
Qed.

(** X10.  Clients do not use up one another's chances: a call for one
    address leaves the record of every other address as it was, and the
    answer a later call for another address gets is the one it would have
    got without that call. *)
Theorem rate_limiter_addresses_are_independent
    (m : gmap string RateRecord) (ip other : string) (now later : Z) :
  ip <> other ->
  (checkReportRateLimit now ip m).2 !! other = m !! other
  /\ (checkReportRateLimit later other (checkReportRateLimit now ip m).2).1
     = (checkReportRateLimit later other m).1.
Proof.
  intros Hne.
  assert (Hother : (checkReportRateLimit now ip m).2 !! other = m !! other).
  { unfold checkReportRateLimit. cbn [snd]. now apply lookup_insert_ne. }
  split; [exact Hother|].
  unfold checkReportRateLimit at 1 3. cbn [fst]. now rewrite Hother.
Qed.

Lemma rate_limiter_addresses_are_independent_witness :
  let m : gmap string RateRecord :=
    {[ "203.0.113.9" := {| count := 10; resetTime := 5000 |} ]} in
  (checkReportRateLimit 1000 "198.51.100.7" m).2 !! "203.0.113.9"
  = m !! "203.0.113.9"
  /\ (checkReportRateLimit 2000 "203.0.113.9"
        (checkReportRateLimit 1000 "198.51.100.7" m).2).1
     = (checkReportRateLimit 2000 "203.0.113.9" m).1.
Proof.
  apply (rate_limiter_addresses_are_independent
           {[ "203.0.113.9" := {| count := 10; resetTime := 5000 |} ]}
           "198.51.100.7" "203.0.113.9" 1000 2000).
  discriminate.
Defined.

Lemma handler_calls_in_window ip (calls : list (Event * Env)) :
  forall st r,
    reportRateLimit st !! ip = Some r ->
    Forall (fun call => httpMethod call.1 = "POST" /\ client_ip call.1 = ip
                        /\ env_now call.2 <= resetTime r) calls ->
    map (fun response => statusCode response =? 429) (handler_calls calls st).1
    = map (fun k => 10 <? count r + Z.of_nat k) (seq 1 (length calls))
    /\ reportRateLimit (handler_calls calls st).2 !! ip
       = Some {| count := count r + Z.of_nat (length calls);
                 resetTime := resetTime r |}.
Proof.
  induction calls as [|[event env] rest IH]; intros st r Hsome Hall.
  - cbn. split; [reflexivity|]. rewrite Hsome. destruct r; cbn.
    do 2 f_equal. lia.
  - apply Forall_cons in Hall as [(Hpost & Hip & Hnow) Hrest].
    cbn [fst snd] in Hpost, Hip, Hnow.
    cbn [handler_calls].
    destruct (handler_post event env st Hpost) as [Hlimits Hstatus].
    rewrite Hip in Hlimits, Hstatus.
    rewrite (check_in_window _ _ _ r Hsome Hnow) in Hlimits, Hstatus.
    cbn [fst snd] in Hlimits, Hstatus.
    destruct (handler event env st) as [response st1]. cbn [fst snd] in *.
    destruct (IH st1 {| count := count r + 1; resetTime := resetTime r |})
      as [IHflags IHrecord].
    { rewrite Hlimits. apply lookup_insert_eq. }
    { exact Hrest. }
    destruct (handler_calls rest st1) as [more st2]. cbn [fst snd] in *.
    cbn [count resetTime] in IHflags, IHrecord.
    split.
    + cbn [map length seq]. f_equal.
      * rewrite Hstatus. 
        destruct (Z.leb_spec (count r + 1) 10), (Z.ltb_spec 10 (count r + Z.of_nat 1));
          cbn; try reflexivity; lia.
      * rewrite IHflags, <- (seq_shift (length rest) 1), map_map.
        apply map_ext. intros k. f_equal. lia.
    + rewrite IHrecord. do 2 f_equal. cbn [length]. lia.
Qed.

(** X11.  At the handler, the chances are counted per address whatever the
    requests hold: of the POSTs an address makes from its first one up to the
    reset instant, exactly those after the tenth are answered 429.  Requests
    without an address header all count for the address "unknown". *)
Theorem handler_answers_429_after_ten
    (ip : string) (event : Event) (env : Env) (later : list (Event * Env))
    (st : FnState) :
  reportRateLimit st !! ip = None ->
  Forall (fun call => httpMethod call.1 = "POST" /\ client_ip call.1 = ip
                      /\ env_now call.2 <= env_now env + window)
         ((event, env) :: later) ->
  map (fun response => statusCode response =? 429)
      (handler_calls ((event, env) :: later) st).1
  = map (fun k => 10 <? Z.of_nat k) (seq 1 (S (length later)))
  /\ (header_client_ip event = None -> header_x_forwarded_for event = None ->
      ip = "unknown").
Proof.
  intros Hfresh Hall.
  apply Forall_cons in Hall as [(Hpost & Hip & _) Hrest].
  cbn [fst snd] in Hpost, Hip.
  split.
  - cbn [handler_calls].
    destruct (handler_post event env st Hpost) as [Hlimits Hstatus].
    rewrite Hip in Hlimits, Hstatus.
    rewrite (check_fresh _ _ _ Hfresh) in Hlimits, Hstatus.
    cbn [fst snd negb] in Hlimits, Hstatus.
    destruct (handler event env st) as [response st1]. cbn [fst snd] in *.
    destruct (handler_calls_in_window ip later st1
                {| count := 1; resetTime := env_now env + window |})
      as [Hflags _].
    { rewrite Hlimits. apply lookup_insert_eq. }
    { exact Hrest. }
    destruct (handler_calls later st1) as [more st2]. cbn [fst snd] in *.
    cbn [map seq count]. f_equal; [exact Hstatus|].
    rewrite Hflags, <- (seq_shift (length later) 1), map_map.
    apply map_ext. intros k. f_equal. cbn [count]. lia.
  - intros H1 H2. rewrite <- Hip. unfold client_ip. rewrite H1, H2. reflexivity.
Qed.

Lemma handler_answers_429_after_ten_witness :
  let event :=
    {| httpMethod := "POST"; header_client_ip := None;
       header_x_forwarded_for := None; event_body := BodyAbsent |} in
  map (fun response => statusCode response =? 429)
      (handler_calls ((event, sample_env) :: repeat (event, sample_env) 11)
         fresh_state).1
  = map (fun k => 10 <? Z.of_nat k) (seq 1 (S (length (repeat (event, sample_env) 11))))
  /\ (header_client_ip event = None -> header_x_forwarded_for event = None ->
      "unknown" = "unknown").
Proof.
  apply (handler_answers_429_after_ten "unknown"
           {| httpMethod := "POST"; header_client_ip := None;
              header_x_forwarded_for := None; event_body := BodyAbsent |}
           sample_env
           (repeat ({| httpMethod := "POST"; header_client_ip := None;
                       header_x_forwarded_for := None; event_body := BodyAbsent |},
                    sample_env) 11)
           fresh_state).
  - reflexivity.
  - unfold window. repeat constructor; cbn; lia.
Defined.

Lemma handler_other_method (event : Event) (env : Env) (st : FnState) :
  String.eqb (httpMethod event) "POST" = false ->
  handler event env st = (other_method_response event, st).
Proof.
  intros Hmethod. unfold handler, other_method_response.
  destruct (String.eqb (httpMethod event) "OPTIONS"); [reflexivity|].
  rewrite Hmethod. reflexivity.
Qed.

(** X12.  Only a POST is counted.  In any sequence of invocations, the
    requests with another method are answered on the spot (200 without a body
    for OPTIONS, 405 for every other method, also for "post" in lower case)
    and leave no trace: without them the POSTs get the same answers and the
    limiter and the webhook end in the same state. *)
Theorem other_methods_leave_no_trace (calls : list (Event * Env)) (st : FnState) :
  let responses := (handler_calls calls st).1 in
  let posts := List.filter is_post calls in
  (handler_calls calls st).2 = (handler_calls posts st).2
  /\ map snd (List.filter (fun answered => is_post answered.1)
                          (combine calls responses))
     = (handler_calls posts st).1
  /\ Forall (fun answered =>
               is_post answered.1 = false ->
               answered.2 = other_method_response answered.1.1)
            (combine calls responses).
Proof.
  cbv zeta. revert st.
  induction calls as [|[event env] rest IH]; intros st.
  - cbn. repeat split. constructor.
  - cbn [handler_calls List.filter].
    destruct (is_post (event, env)) eqn:Hpost.
    + cbn [handler_calls].
      destruct (handler event env st) as [response st1].
      destruct (IH st1) as (Hstate & Hanswers & Hothers).
      destruct (handler_calls rest st1) as [more st2].
      destruct (handler_calls (List.filter is_post rest) st1) as [more1 st3].
      cbn [fst snd] in *. cbn [combine List.filter fst]. rewrite Hpost.
      cbn [map snd]. split; [exact Hstate|]. split; [now rewrite Hanswers|].
      constructor; [|exact Hothers]. cbn [fst]. congruence.
    + unfold is_post in Hpost. cbn [fst] in Hpost.
      rewrite (handler_other_method event env st Hpost).
      destruct (IH st) as (Hstate & Hanswers & Hothers).
      destruct (handler_calls rest st) as [more st2].
      destruct (handler_calls (List.filter is_post rest) st) as [more1 st3].
      cbn [fst snd] in *. cbn [combine List.filter fst].
      unfold is_post at 1. cbn [fst]. rewrite Hpost.
      split; [exact Hstate|]. split; [exact Hanswers|].
      constructor; [|exact Hothers]. intros _. reflexivity.
Qed.

Lemma js_truthy_found (name : string) :
  js_truthy (get_property REPORT_REASONS name) = found_in_REPORT_REASONS name.
Proof.
  unfold found_in_REPORT_REASONS, is_report_reason, get_property, REPORT_REASONS.
  cbn [own_property map fst existsb].
  rewrite !(String.eqb_sym name).
  repeat match goal with
         | |- context [String.eqb ?k name] =>
             lazymatch k with
             | name => fail
             | _ => destruct (String.eqb k name); [reflexivity|]
             end
         end.
  cbn [orb]. now destruct (existsb _ Object_prototype).
Qed.

Lemma report_forwarded
    (event : Event) (env : Env) (st : FnState)
    (file_url release_id reason : string) (info : option string) :
  httpMethod event = "POST" ->
  event_body event = BodyJson (Some file_url) (Some release_id) (Some reason) info ->
  file_url <> "" -> release_id <> "" -> reason <> "" ->
  found_in_REPORT_REASONS reason = true ->
  (checkReportRateLimit (env_now env) (client_ip event) (reportRateLimit st)).1 = true ->
  match env_webhook_url env with
  | Throw message =>
      webhook_requests (handler event env st).2 = webhook_requests st
      /\ (handler event env st).1
         = {| statusCode := 400; response_body := FailureBody message |}
  | Ok _ =>
      (exists shown,
         webhook_requests (handler event env st).2
         = (webhook_requests st
            ++ [ {| payload_report :=
                      reportData_of event env file_url release_id reason info;
                    payload_reason := shown |} ])%list)
      /\ (handler event env st).1
         = match env_webhook env with
           | Ok _ =>
               {| statusCode := 200;
                  response_body :=
                    SuccessBody (env_uuid env) (env_timestamp env)
                                "Report submitted successfully" |}
           | Throw message =>
               {| statusCode := 400; response_body := FailureBody message |}
           end
  end.
Proof.
  intros Hpost Hbody Hf Hr Hx Hfound Hallowed.
  unfold handler. rewrite Hpost. cbn [String.eqb Ascii.eqb Bool.eqb negb].
  cbn beta iota zeta.
  destruct (checkReportRateLimit _ _ _) as [allowed limits]. cbn [fst] in Hallowed.
  subst allowed. cbn [negb].
  unfold handle_report. rewrite Hbody. cbn [truthy_str default from_option].
  apply String.eqb_neq in Hf, Hr, Hx. rewrite Hf, Hr, Hx. cbn [negb orb].
  unfold id. rewrite js_truthy_found, Hfound. cbn [negb].
  unfold sendDiscordWebhook, reportData_of.
  destruct (env_webhook_url env) as [[]|message]; cbn.
  - destruct (env_webhook env); cbn; (split; [eexists; reflexivity | reflexivity]).
  - split; reflexivity.
Qed.

(** X13.  A POST within the quota whose three required fields are strings
    that are not empty and whose reason [REPORT_REASONS] finds reaches the
    webhook.  When the webhook URL of the function parses, the report is
    sent exactly once, with the address the limiter counted and the
    identifier and instant that the answer carries; the answer is 200 when
    the webhook accepts it and 400 with the webhook's message when it does
    not (the report has been sent all the same).  When [new URL] throws,
    nothing is sent and the answer is 400 with the message of that error. *)
Theorem accepted_report_is_forwarded_once
    (event : Event) (env : Env) (st : FnState)
    (file_url release_id reason : string) (info : option string) :
  httpMethod event = "POST" ->
  event_body event = BodyJson (Some file_url) (Some release_id) (Some reason) info ->
  file_url <> "" -> release_id <> "" -> reason <> "" ->
  found_in_REPORT_REASONS reason = true ->
  (checkReportRateLimit (env_now env) (client_ip event) (reportRateLimit st)).1 = true ->
  match env_webhook_url env with
  | Throw message =>
      webhook_requests (handler event env st).2 = webhook_requests st
      /\ (handler event env st).1
         = {| statusCode := 400; response_body := FailureBody message |}
  | Ok _ =>
      (exists shown,
         webhook_requests (handler event env st).2
         = (webhook_requests st
            ++ [ {| payload_report :=
                      reportData_of event env file_url release_id reason info;
                    payload_reason := shown |} ])%list)
      /\ (handler event env st).1
         = match env_webhook env with
           | Ok _ =>
               {| statusCode := 200;
                  response_body :=
                    SuccessBody (env_uuid env) (env_timestamp env)
                                "Report submitted successfully" |}
           | Throw message =>
               {| statusCode := 400; response_body := FailureBody message |}
           end
  end.
Proof.
  apply report_forwarded.
Qed.

Lemma accepted_report_is_forwarded_once_witness :
  let event :=
    {| httpMethod := "POST"; header_client_ip := Some "198.51.100.7";
       header_x_forwarded_for := None;
       event_body :=
         BodyJson (Some "https://example.com/v/123") (Some "123") (Some "malware")
                  None |} in
  let env := sample_env in
  let st := fresh_state in
  let file_url := "https://example.com/v/123" in
  let release_id := "123" in
  let reason := "malware" in
  let info : option string := None in
  match env_webhook_url env with
  | Throw message =>
      webhook_requests (handler event env st).2 = webhook_requests st
      /\ (handler event env st).1
         = {| statusCode := 400; response_body := FailureBody message |}
  | Ok _ =>
      (exists shown,
         webhook_requests (handler event env st).2
         = (webhook_requests st
            ++ [ {| payload_report :=
                      reportData_of event env file_url release_id reason info;
                    payload_reason := shown |} ])%list)
      /\ (handler event env st).1
         = match env_webhook env with
           | Ok _ =>
               {| statusCode := 200;
                  response_body :=
                    SuccessBody (env_uuid env) (env_timestamp env)
                                "Report submitted successfully" |}
           | Throw message =>
               {| statusCode := 400; response_body := FailureBody message |}
           end
  end.
Proof.
  apply (accepted_report_is_forwarded_once
           {| httpMethod := "POST"; header_client_ip := Some "198.51.100.7";
              header_x_forwarded_for := None;
              event_body :=
                BodyJson (Some "https://example.com/v/123") (Some "123")
                         (Some "malware") None |}
           sample_env fresh_state "https://example.com/v/123" "123" "malware" None);
    (reflexivity || discriminate).
Defined.

(** X14.  Of the POSTs within the quota whose three required fields are
    strings that are not empty, the ones whose reason is neither one of the
    six keys of [REPORT_REASONS] nor a name every object inherits are
    answered 400 with the reason named.  Nothing is sent to the webhook
    exactly for them and, when the webhook URL of the function does not
    parse, for the others as well. *)
Theorem refused_reasons_are_the_names_not_found
    (event : Event) (env : Env) (st : FnState)
    (file_url release_id reason : string) (info : option string) :
  httpMethod event = "POST" ->
  event_body event = BodyJson (Some file_url) (Some release_id) (Some reason) info ->
  file_url <> "" -> release_id <> "" -> reason <> "" ->
  (checkReportRateLimit (env_now env) (client_ip event) (reportRateLimit st)).1 = true ->
  (webhook_requests (handler event env st).2 = webhook_requests st
   <-> found_in_REPORT_REASONS reason = false
       \/ exists message, env_webhook_url env = Throw message)
  /\ (found_in_REPORT_REASONS reason = false ->
      (handler event env st).1
      = {| statusCode := 400;
           response_body := FailureBody ("Invalid reason: " ++ reason) |}).
Proof.
  intros Hpost Hbody Hf Hr Hx Hallowed.
  destruct (found_in_REPORT_REASONS reason) eqn:Hfound.
  - pose proof (report_forwarded event env st file_url
                  release_id reason info Hpost Hbody Hf Hr Hx Hfound Hallowed)
      as Hrun.
    destruct (env_webhook_url env) as [[]|message].
    + destruct Hrun as [[shown Hsent] Hanswer].
      assert (Hgrows :
        webhook_requests (handler event env st).2 <> webhook_requests st).
      { intros Hsame. rewrite Hsent in Hsame.
        apply (f_equal length) in Hsame. rewrite length_app in Hsame.
        cbn [length] in Hsame. lia. }
      split; [split|discriminate].
      * intros Hsame. contradiction.
      * intros [Hno | [message Hno]]; discriminate Hno.
    + destruct Hrun as [Hsent Hanswer].
      split; [split|discriminate].
      * intros _. right. exists message. reflexivity.
      * intros _. exact Hsent.
  - assert (Hnone : get_property REPORT_REASONS reason = None).
    { pose proof (js_truthy_found reason) as Ht. rewrite Hfound in Ht.
      destruct (get_property REPORT_REASONS reason) as [[s|p]|] eqn:Hget;
        [ | discriminate Ht | reflexivity ].
      exfalso. revert Hget. unfold get_property, REPORT_REASONS.
      cbn [own_property].
      repeat match goal with
             | |- context [String.eqb ?k reason] =>
                 destruct (String.eqb k reason);
                 [intros [= <-]; discriminate Ht|]
             end.
      destruct (existsb _ _); discriminate. }
    destruct (unknown_reason_rejected event env st file_url release_id reason info
                Hpost Hbody Hf Hr Hx Hnone Hallowed) as [Hresponse Hsent].
    split; [split|intros _; exact Hresponse].
    + intros _. left. reflexivity.
    + intros _. exact Hsent.
Qed.

Lemma refused_reasons_are_the_names_not_found_witness :
  let event :=
    {| httpMethod := "POST"; header_client_ip := Some "198.51.100.7";
       header_x_forwarded_for := None;
       event_body :=
         BodyJson (Some "https://example.com/v/123") (Some "123")
                  (Some "not-a-real-reason") None |} in
  let env := sample_env in
  let st := fresh_state in
  let reason := "not-a-real-reason" in
  (webhook_requests (handler event env st).2 = webhook_requests st
   <-> found_in_REPORT_REASONS reason = false
       \/ exists message, env_webhook_url env = Throw message)
  /\ (found_in_REPORT_REASONS reason = false ->
      (handler event env st).1
      = {| statusCode := 400;
           response_body := FailureBody ("Invalid reason: " ++ reason) |}).
Proof.
  apply (refused_reasons_are_the_names_not_found
           {| httpMethod := "POST"; header_client_ip := Some "198.51.100.7";
              header_x_forwarded_for := None;
              event_body :=
                BodyJson (Some "https://example.com/v/123") (Some "123")
                         (Some "not-a-real-reason") None |}
           sample_env fresh_state "https://example.com/v/123" "123"
           "not-a-real-reason" None);
    (reflexivity || discriminate).
Defined.

End ReportHandlerProperties.

(** * Further properties of the manager *)

Section ManagerProperties.

Import Browser GitHubUploadManagerNetlify Frame Delivery.

(** Run the computation at the head of the goal along every branch; a
    callback that writes the page only is run by its hypothesis. *)
Ltac run_goal Hcb :=
  repeat (cbn;
    match goal with
    | |- context [match ?x with _ => _ end] =>
        lazymatch x with
        | context [match _ with _ => _ end] => fail
        | _ =>
            first
              [ match x with
                | ?cb ?p ?m ?w =>
                    match type of Hcb with page_only cb => idtac end;
                    let pg := fresh "pg" in
                    destruct (Hcb p m w) as [pg ->]
                end
              | destruct x eqn:? ]
        end
    end).

(** X15.  [clearCache] without a pattern, or with the empty one, empties
    the cache; with a pattern it drops exactly the keys that contain the
    pattern and keeps every other entry as it was.  It never throws and sends
    nothing. *)
Theorem clearCache_drops_the_matching_keys
    (pattern : option string) (key : string) (w : World) :
  let w1 := (clearCache pattern w).2 in
  (clearCache pattern w).1 = Ok tt
  /\ cache (github w1) !! key
     = (if truthy_str pattern && negb (includes key (default "" pattern))
        then cache (github w) !! key
        else None)
  /\ requests w1 = requests w.
Proof.
  cbv zeta. unfold clearCache, modify.
  destruct (truthy_str pattern); cbn [negb andb fst snd].
  - split; [reflexivity|]. split; [|reflexivity].
    cbn [github set_cache set_github cache].
    destruct (includes key (default "" pattern)) eqn:Hincl; cbn [negb].
    + apply map_lookup_filter_None. right. intros entry _. cbn. congruence.
    + destruct (cache (github w) !! key) as [entry|] eqn:Hentry.
      * apply map_lookup_filter_Some. split; [exact Hentry | exact Hincl].
      * apply map_lookup_filter_None. left. exact Hentry.
  - split; [reflexivity|]. split; [|reflexivity].
    cbn [github set_cache set_github cache]. apply lookup_empty.
Qed.

(** X16.  [deleteRelease] sends one request, the delete for that release;
    the cached file record of the release is dropped when the delete went
    through, and when it did not (the request failed, or the function
    answered without [success]) the cache is left as it was. *)
Theorem deleteRelease_invalidates_only_on_success (releaseId : Z) (w : World) :
  let w1 := (deleteRelease releaseId w).2 in
  requests w1 = (requests w ++ [github_upload w (DeleteRelease releaseId)])%list
  /\ cache (github w1)
     = match (deleteRelease releaseId w).1 with
       | Ok _ => delete ("file:" ++ pretty releaseId) (cache (github w))
       | Throw _ => cache (github w)
       end.
Proof.
  cbv zeta.
  unfold deleteRelease, callFunction, github_upload, bind, gets, fetch, lift,
    throw, modify, ret.
  run_goal I; split; reflexivity.
Qed.

Lemma file_key_inj (a b : Z) : "file:" ++ pretty a = "file:" ++ pretty b -> a = b.
Proof.
  intros Heq. injection Heq as Heq. now apply (inj pretty).
Qed.

Lemma fetch_data_keeps_cache a url fallback w :
  github (fetch_data a url fallback w).2 = github w.
Proof.
  unfold fetch_data, bind, gets, fetch, lift, throw, ret.
  run_goal I; reflexivity.
Qed.

Lemma withCache_touches_one_key key other fn w :
  other <> key ->
  (forall w0, github (fn w0).2 = github w0) ->
  cache (github (withCache key fn w).2) !! other = cache (github w) !! other.
Proof.
  intros Hne Hfn. unfold withCache, bind, gets, ret, modify.
  cbn beta iota zeta. cbn [fst snd].
  assert (Hmiss :
    cache (github
      (match fn w with
       | (Ok a, w1) =>
           (Ok a,
            set_cache (<[key := {| value := a;
                                  expiresAt := clock w + cacheTTL (github w1) |}]>
                         (cache (github w1))) w1)
       | (Throw message, w1) => (Throw message, w1)
       end).2) !! other = cache (github w) !! other).
  { pose proof (Hfn w) as Hkeep.
    destruct (fn w) as [[a|message] w1]; cbn [snd] in *.
    - cbn [github set_cache set_github cache].
      rewrite lookup_insert_ne by congruence. now rewrite Hkeep.
    - now rewrite Hkeep. }
  destruct (cache (github w) !! key) as [entry|] eqn:Hentry.
  - destruct (clock w <? expiresAt entry); [reflexivity|exact Hmiss].
  - exact Hmiss.
Qed.

(** X17.  Each release has a cache key of its own, and a file lookup
    writes no other key: looking up release [a] leaves what is cached for
    any other release [b], and for any listing, as it was. *)
Theorem getFileInfo_touches_one_release (a b limit : Z) (w : World) :
  a <> b ->
  let w1 := (getFileInfo a w).2 in
  cache (github w1) !! ("file:" ++ pretty b)
  = cache (github w) !! ("file:" ++ pretty b)
  /\ cache (github w1) !! ("releases:latest:" ++ pretty limit)
     = cache (github w) !! ("releases:latest:" ++ pretty limit).
Proof.
  intros Hne. cbv zeta. unfold getFileInfo.
  assert (Hfn : forall w0,
    github ((base <- gets (fun w => apiBaseUrl (github w)) ;;
             fetch_data (GetRelease a)
               (base ++ "/file-info?action=get-release&releaseId=" ++ pretty a)
               "Failed to get file info") w0).2 = github w0).
  { intros w0. unfold bind at 1, gets at 1. apply fetch_data_keeps_cache. }
  split; apply withCache_touches_one_key; try exact Hfn.
  - intros Heq. apply file_key_inj in Heq. congruence.
  - intros Heq. discriminate Heq.
Qed.

Lemma getFileInfo_touches_one_release_witness :
  let w := Scenario.start (Scenario.calm [1000; 1001]) in
  let w1 := (getFileInfo 1000 w).2 in
  cache (github w1) !! ("file:" ++ pretty 1001)
  = cache (github w) !! ("file:" ++ pretty 1001)
  /\ cache (github w1) !! ("releases:latest:" ++ pretty 10)
     = cache (github w) !! ("releases:latest:" ++ pretty 10).
Proof.
  apply (getFileInfo_touches_one_release 1000 1001 10
           (Scenario.start (Scenario.calm [1000; 1001]))).
  discriminate.
Defined.

(** X18.  [uploadWithMetadata] sends the request that creates the release
    first, and the request that attaches the file only after that one has
    been answered with success; it sends nothing else (no delete when the
    attachment fails, so the release stays).  When it returns, both requests
    have been sent; when it throws, the failure is the last line of the
    console. *)
Theorem uploadWithMetadata_sends_create_then_asset
    (fileBlob : Blob) (metadata : Metadata) (onProgress : Callback) (w : World) :
  page_only onProgress ->
  let outcome := (uploadWithMetadata fileBlob metadata onProgress w).1 in
  let w1 := (uploadWithMetadata fileBlob metadata onProgress w).2 in
  (requests w1 = (requests w ++ [create_request w metadata])%list
   \/ exists uploadUrl,
        requests w1
        = (requests w ++ [create_request w metadata;
                          asset_request w fileBlob metadata uploadUrl])%list)
  /\ (forall result, outcome = Ok result ->
      exists uploadUrl,
        requests w1
        = (requests w ++ [create_request w metadata;
                          asset_request w fileBlob metadata uploadUrl])%list)
  /\ (forall message, outcome = Throw message ->
      last (console w1) = Some ("❌ Upload failed: " ++ message)).
Proof.
  intros Hcb. cbv zeta.
  unfold uploadWithMetadata, try_catch, createRelease, uploadAsset, callFunction,
    create_request, asset_request, github_upload, console_warn,
    bind, gets, fetch, lift, throw, modify, ret.
  run_goal Hcb.
  all: cbn [fst snd requests console set_requests set_console set_page
            github apiBaseUrl].
  all: rewrite <- ?app_assoc; cbn [app].
  all: split; [ first [ left; reflexivity | right; eexists; reflexivity ] | ].
  all: split; intros ? Hout; try discriminate Hout.
  all: first [ eexists; reflexivity
             | injection Hout as <-; apply last_snoc ].
Qed.

Lemma uploadWithMetadata_sends_create_then_asset_witness :
  let w := Scenario.start (Scenario.calm []) in
  let metadata :=
    {| file_id := "9b2f6c1a"; original_filename := Some "clip.mp4";
       original_size := 8; compressed_size := 4; resolution := "720p"; fps := 30;
       upload_time := "2023-11-14T22:13:20.000Z"; uploader_id := "user-1" |} in
  let outcome :=
    (uploadWithMetadata Scenario.clip metadata (fun _ _ => ret tt) w).1 in
  let w1 := (uploadWithMetadata Scenario.clip metadata (fun _ _ => ret tt) w).2 in
  (requests w1 = (requests w ++ [create_request w metadata])%list
   \/ exists uploadUrl,
        requests w1
        = (requests w ++ [create_request w metadata;
                          asset_request w Scenario.clip metadata uploadUrl])%list)
  /\ (forall result, outcome = Ok result ->
      exists uploadUrl,
        requests w1
        = (requests w ++ [create_request w metadata;
                          asset_request w Scenario.clip metadata uploadUrl])%list)
  /\ (forall message, outcome = Throw message ->
      last (console w1) = Some ("❌ Upload failed: " ++ message)).
Proof.
  apply (uploadWithMetadata_sends_create_then_asset Scenario.clip
           {| file_id := "9b2f6c1a"; original_filename := Some "clip.mp4";
              original_size := 8; compressed_size := 4; resolution := "720p";
              fps := 30; upload_time := "2023-11-14T22:13:20.000Z";
              uploader_id := "user-1" |}
           (fun _ _ => ret tt) (Scenario.start (Scenario.calm []))).
  intros percent message w. exists (page w). destruct w; reflexivity.
Defined.

End ManagerProperties.

(** * Further properties of the engine of compress.js *)

(** The first of the indices 0..n at which [stop] holds, if it holds at
    [n]. *)
Lemma first_index (stop : nat -> bool) (n : nat) :
  stop n = true ->
  exists k : nat, (k <= n)%nat
    /\ (forall j : nat, (j < k)%nat -> stop j = false)
    /\ stop k = true.
Proof.
  induction n as [n IH] using lt_wf_ind. intros Hstop.
  destruct (List.existsb stop (seq 0 n)) eqn:Hbefore.
  - apply List.existsb_exists in Hbefore as (m & Hin & Hm).
    apply in_seq in Hin.
    destruct (IH m ltac:(lia) Hm) as (k & Hk & Hfirst & Hat).
    exists k. split; [lia|]. split; assumption.
  - exists n. split; [lia|]. split; [|exact Hstop].
    intros j Hj. destruct (stop j) eqn:Hj1; [|reflexivity].
    rewrite <- Hbefore. symmetry. apply List.existsb_exists.
    exists j. split; [apply in_seq; lia | exact Hj1].
Qed.

Section EngineTiming.

Import Browser.

Lemma set_clock_twice a b w : set_clock a (set_clock b w) = set_clock a w.
Proof. reflexivity. Qed.

Lemma late_round late rounds startTime maxWait w :
  LateTimers.waitUntilReady_loop late (S rounds) startTime maxWait w
  = if isReady_at (outside w) (clock w) then (Ok true, w)
    else if clock w - startTime >? maxWait
         then (Throw "FFmpeg initialization timeout", w)
         else LateTimers.waitUntilReady_loop late rounds startTime maxWait
                (set_clock (clock w + 500 + Z.of_N (late (clock w))) w).
Proof.
  cbn [LateTimers.waitUntilReady_loop]. unfold bind, gets, ret, throw, modify.
  destruct (isReady_at (outside w) (clock w)); [reflexivity|].
  destruct (clock w - startTime >? maxWait); reflexivity.
Qed.

(** Looks are at least 500 ms apart. *)
Lemma look_lower late start k :
  start + 500 * Z.of_nat k <= LateTimers.look late start k.
Proof.
  induction k as [|k IH]; cbn [LateTimers.look]; lia.
Qed.

Lemma look_on_time late start k :
  (forall t, late t = 0%N) ->
  LateTimers.look late start k = start + 500 * Z.of_nat k.
Proof.
  intros Hzero. induction k as [|k IH]; cbn [LateTimers.look]; [lia|].
  rewrite Hzero, IH. lia.
Qed.

Lemma look_shift late start k :
  LateTimers.look late (start + 500 + Z.of_N (late start)) k
  = LateTimers.look late start (S k).
Proof.
  induction k as [|k IH]; [reflexivity|].
  cbn [LateTimers.look] in *. now rewrite IH.
Qed.

Lemma late_looks late (k : nat) :
  forall rounds startTime maxWait w,
    (forall j : nat, (j < k)%nat ->
       isReady_at (outside w) (LateTimers.look late (clock w) j) = false
       /\ LateTimers.look late (clock w) j - startTime <= maxWait) ->
    LateTimers.waitUntilReady_loop late (k + rounds) startTime maxWait w
    = LateTimers.waitUntilReady_loop late rounds startTime maxWait
        (set_clock (LateTimers.look late (clock w) k) w).
Proof.
  induction k as [|k IH]; intros rounds startTime maxWait w Hlooks.
  - cbn [Nat.add LateTimers.look]. destruct w; reflexivity.
  - cbn [Nat.add]. rewrite late_round.
    destruct (Hlooks 0%nat ltac:(lia)) as [Hnot Hwithin].
    cbn [LateTimers.look] in Hnot, Hwithin. rewrite Hnot.
    destruct (Z.gtb_spec (clock w - startTime) maxWait); [lia|].
    rewrite IH.
    + rewrite set_clock_twice. cbn [clock set_clock]. now rewrite look_shift.
    + intros j Hj. cbn [clock set_clock outside]. rewrite look_shift.
      apply Hlooks. lia.
Qed.

Lemma waitUntilReady_at_look
    (late : Z -> N) (maxWait : Z) (k : nat) (w : World) :
  0 <= maxWait ->
  (forall j : nat, (j < k)%nat ->
     isReady_at (outside w) (LateTimers.look late (clock w) j) = false
     /\ LateTimers.look late (clock w) j - clock w <= maxWait) ->
  let t := LateTimers.look late (clock w) k in
  (isReady_at (outside w) t = true ->
   LateTimers.waitUntilReady late maxWait w = (Ok true, set_clock t w))
  /\ (isReady_at (outside w) t = false -> maxWait < t - clock w ->
      LateTimers.waitUntilReady late maxWait w
      = (Throw "FFmpeg initialization timeout", set_clock t w)).
Proof.
  intros Hwait Hlooks t.
  assert (Hk : Z.of_nat k <= maxWait / 500 + 1).
  { destruct k as [|k]; [pose proof (Z.div_pos maxWait 500 Hwait); lia|].
    destruct (Hlooks k ltac:(lia)) as [_ Hwithin].
    pose proof (look_lower late (clock w) k).
    assert (Z.of_nat k <= maxWait / 500)
      by (apply Z.div_le_lower_bound; lia).
    lia. }
  pose proof (Z.div_pos maxWait 500 Hwait ltac:(lia)) as Hdiv.
  split; [intros Hready | intros Hready Hpast].
  all: unfold LateTimers.waitUntilReady, bind at 1, gets at 1.
  all: replace (Z.to_nat (maxWait / 500) + 2)%nat
         with (k + S (Z.to_nat (maxWait / 500) + 1 - k))%nat by lia.
  all: rewrite late_looks by exact Hlooks.
  all: rewrite late_round; cbn [clock set_clock outside]; fold t; rewrite Hready.
  - reflexivity.
  - destruct (Z.gtb_spec (t - clock w) maxWait); [reflexivity|lia].
Qed.

(** X19.  [waitUntilReady] looks at the engine when it is called and then
    after every sleep of 500 ms, each of which may last longer.  It always
    ends, at one of its first [maxWait / 500 + 2] looks: at the first look
    that finds the engine ready, where it returns true, or that comes more
    than [maxWait] ms after the call and finds it not ready, where it throws;
    all looks before found the engine not ready, no more than [maxWait] ms
    after the call.  So the timeout never comes before [maxWait] has passed,
    and a look that comes after [maxWait] can still succeed.  Looks are
    500 ms apart or more, and exactly that with timers that fire on time:
    the timeout of the 30 000 ms that [compress] asks for then comes after
    30 500 ms.  Only the clock has moved. *)
Theorem waitUntilReady_ends_at_a_look
    (late : Z -> N) (maxWait : Z) (w : World) :
  0 <= maxWait ->
  exists k : nat,
    Z.of_nat k <= maxWait / 500 + 1
    /\ (forall j : nat, (j < k)%nat ->
          isReady_at (outside w) (LateTimers.look late (clock w) j) = false
          /\ LateTimers.look late (clock w) j - clock w <= maxWait)
    /\ let t := LateTimers.look late (clock w) k in
       clock w + 500 * Z.of_nat k <= t
       /\ ((forall instant, late instant = 0%N) ->
           t = clock w + 500 * Z.of_nat k)
       /\ ((isReady_at (outside w) t = true
            /\ LateTimers.waitUntilReady late maxWait w
               = (Ok true, set_clock t w))
           \/ (isReady_at (outside w) t = false
               /\ maxWait < t - clock w
               /\ LateTimers.waitUntilReady late maxWait w
                  = (Throw "FFmpeg initialization timeout", set_clock t w))).
Proof.
  intros Hwait.
  pose proof (Z.div_pos maxWait 500 Hwait ltac:(lia)) as Hdiv.
  destruct (first_index
              (fun j => isReady_at (outside w) (LateTimers.look late (clock w) j)
                        || (LateTimers.look late (clock w) j - clock w >? maxWait))
              (Z.to_nat (maxWait / 500) + 1))
    as (k & Hk & Hbefore & Hat).
  { pose proof (look_lower late (clock w) (Z.to_nat (maxWait / 500) + 1)).
    pose proof (Z.mod_pos_bound maxWait 500 ltac:(lia)).
    pose proof (Z.div_mod maxWait 500 ltac:(lia)).
    match goal with
    | |- _ || (?a >? ?b) = true => destruct (Z.gtb_spec a b); [|lia]
    end.
    apply orb_true_r. }
  assert (Hlooks : forall j : nat, (j < k)%nat ->
            isReady_at (outside w) (LateTimers.look late (clock w) j) = false
            /\ LateTimers.look late (clock w) j - clock w <= maxWait).
  { intros j Hj. specialize (Hbefore j Hj). cbn beta in Hbefore.
    apply orb_false_elim in Hbefore as [Hnot Hwithin].
    split; [exact Hnot|].
    destruct (Z.gtb_spec (LateTimers.look late (clock w) j - clock w) maxWait);
      [discriminate | lia]. }
  exists k. split; [lia|]. split; [exact Hlooks|]. cbv zeta.
  split; [apply look_lower|].
  split; [intros Hzero; apply look_on_time, Hzero|].
  destruct (waitUntilReady_at_look late maxWait k w Hwait Hlooks)
    as [Hready Htimeout].
  cbn beta in Hat.
  destruct (isReady_at (outside w) (LateTimers.look late (clock w) k)).
  - left. split; [reflexivity | apply Hready; reflexivity].
  - right. cbn [orb] in Hat.
    destruct (Z.gtb_spec (LateTimers.look late (clock w) k - clock w) maxWait);
      [|discriminate].
    split; [reflexivity|]. split; [assumption|].
    apply Htimeout; [reflexivity | assumption].
Qed.

Lemma waitUntilReady_ends_at_a_look_witness :
  let late : Z -> N := fun t => if t =? 1700000000000 then 250%N else 0%N in
  let maxWait := 30000 in
  let w := Scenario.start (Scenario.never_ready (Scenario.calm [])) in
  exists k : nat,
    Z.of_nat k <= maxWait / 500 + 1
    /\ (forall j : nat, (j < k)%nat ->
          isReady_at (outside w) (LateTimers.look late (clock w) j) = false
          /\ LateTimers.look late (clock w) j - clock w <= maxWait)
    /\ let t := LateTimers.look late (clock w) k in
       clock w + 500 * Z.of_nat k <= t
       /\ ((forall instant, late instant = 0%N) ->
           t = clock w + 500 * Z.of_nat k)
       /\ ((isReady_at (outside w) t = true
            /\ LateTimers.waitUntilReady late maxWait w
               = (Ok true, set_clock t w))
           \/ (isReady_at (outside w) t = false
               /\ maxWait < t - clock w
               /\ LateTimers.waitUntilReady late maxWait w
                  = (Throw "FFmpeg initialization timeout", set_clock t w))).
Proof.
  apply (waitUntilReady_ends_at_a_look
           (fun t => if t =? 1700000000000 then 250%N else 0%N) 30000
           (Scenario.start (Scenario.never_ready (Scenario.calm [])))).
  lia.
Defined.

Lemma late_loop_never late maxWait startTime rounds :
  forall w,
    startTime <= clock w ->
    (forall t, startTime <= t -> isReady_at (outside w) t = false) ->
    maxWait - (clock w - startTime) < 500 * Z.of_nat rounds ->
    exists t,
      clock w <= t /\ maxWait < t - startTime
      /\ LateTimers.waitUntilReady_loop late (S rounds) startTime maxWait w
         = (Throw "FFmpeg initialization timeout", set_clock t w).
Proof.
  induction rounds as [|rounds IH]; intros w Hclock Hnever Hrounds;
    rewrite late_round, (Hnever (clock w) Hclock).
  - destruct (Z.gtb_spec (clock w - startTime) maxWait); [|lia].
    exists (clock w). rewrite set_clock_same. repeat split; lia.
  - destruct (Z.gtb_spec (clock w - startTime) maxWait).
    + exists (clock w). rewrite set_clock_same. repeat split; lia.
    + destruct (IH (set_clock (clock w + 500 + Z.of_N (late (clock w))) w))
        as (t & Hle & Hpast & Ht).
      * cbn [clock set_clock]. lia.
      * intros t. apply Hnever.
      * cbn [clock set_clock]. lia.
      * exists t. cbn [clock set_clock] in Hle. rewrite Ht.
        repeat split; lia.
Qed.

(** An engine that never becomes ready makes the wait time out, more than
    [maxWait] ms after the call, however late the timers fire. *)
Lemma late_never late maxWait w :
  0 <= maxWait ->
  (forall t, clock w <= t -> isReady_at (outside w) t = false) ->
  exists t,
    maxWait < t - clock w
    /\ LateTimers.waitUntilReady late maxWait w
       = (Throw "FFmpeg initialization timeout", set_clock t w).
Proof.
  intros Hwait Hnever. unfold LateTimers.waitUntilReady, bind at 1, gets at 1.
  replace (Z.to_nat (maxWait / 500) + 2)%nat
    with (S (S (Z.to_nat (maxWait / 500)))) by lia.
  destruct (late_loop_never late maxWait (clock w) (S (Z.to_nat (maxWait / 500))) w)
    as (t & _ & Hpast & Ht).
  - lia.
  - exact Hnever.
  - pose proof (Z.div_pos maxWait 500 Hwait ltac:(lia)).
    pose proof (Z.mod_pos_bound maxWait 500 ltac:(lia)).
    pose proof (Z.div_mod maxWait 500 ltac:(lia)).
    lia.
  - exists t. split; [exact Hpast | exact Ht].
Qed.

End EngineTiming.

Section EngineCleanup.

Import Browser.

Ltac call Hcb :=
  rewrite bind_run;
  match goal with
  | |- context [?cb ?p ?m ?w] =>
      match type of Hcb with page_only cb => idtac end;
      let pg := fresh "pg" in
      let E := fresh "Hcall" in
      destruct (Hcb p m w) as [pg E]; rewrite E
  end.

Ltac backend H :=
  rewrite bind_run, backend_step_run;
  cbn [outside set_page set_FS set_console set_clock];
  rewrite H.

(** X20.  The two transient files are removed one after the other inside
    one [try]: when removing the input throws, the output is not removed
    either.  [compress] still returns the encoded blob, and both files stay
    in the encoder's memory. *)
Theorem failed_release_leaves_both_files
    (file : Blob) (onProgress : Callback) (w : World) (message : string) :
  page_only onProgress ->
  isReady_at (outside w) (clock w) = true ->
  (forall s, In s Compress.encode_steps -> fault (outside w) s = None) ->
  fault (outside w) UnlinkInput = Some message ->
  exists w1,
    Compress.compress file onProgress w = (Ok (Compress.encoded file w), w1)
    /\ FS w1 !! "input.mp4" = Some (blob_bytes file)
    /\ FS w1 !! "output.mp4" = Some (transcode (outside w) (blob_bytes file)).
Proof.
  intros Hcb Hready Hnone Hunlink. unfold Compress.compress, try_catch at 1.
  assert (Hread : fault (outside w) ReadFile = None) by (apply Hnone; cbn; tauto).
  assert (Hwrite : fault (outside w) WriteInput = None) by (apply Hnone; cbn; tauto).
  assert (Hrun : fault (outside w) Run = None) by (apply Hnone; cbn; tauto).
  assert (Hout : fault (outside w) ReadOutput = None) by (apply Hnone; cbn; tauto).
  rewrite bind_run, (waitUntilReady_ready 30000 w Hready).
  call Hcb.
  rewrite bind_run. unfold FFmpeg.readFile. backend Hread.
  unfold ret at 1.
  rewrite bind_run. unfold FFmpeg.FS_writeFile. backend Hwrite.
  unfold modify at 1.
  call Hcb. call Hcb.
  rewrite bind_run. unfold Compress.runCompression.
  call Hcb. unfold try_catch at 1.
  rewrite bind_run. unfold FFmpeg.run. backend Hrun.
  rewrite bind_run. unfold gets at 1. cbn [FS set_page set_FS].
  rewrite lookup_insert_eq. unfold modify at 1.
  cbn [FS set_page set_FS outside].
  match goal with
  | |- context [onProgress ?p ?m ?W] =>
      let pg := fresh "pg" in
      destruct (Hcb p m W) as [pg ->]
  end.
  call Hcb.
  rewrite bind_run. unfold FFmpeg.FS_readFile. backend Hout.
  rewrite bind_run. unfold gets at 1. cbn [FS set_page set_FS].
  rewrite lookup_insert_eq. unfold ret at 1.
  rewrite bind_run. unfold try_catch at 1, FFmpeg.FS_unlink.
  rewrite bind_run. backend Hunlink.
  unfold console_warn at 1, modify at 1.
  call Hcb. unfold ret.
  eexists. split; [reflexivity|].
  cbn [FS set_page set_FS set_console]. split.
  - rewrite lookup_insert_ne by discriminate. apply lookup_insert_eq.
  - apply lookup_insert_eq.
Qed.

Lemma failed_release_leaves_both_files_witness :
  let w :=
    Scenario.start
      (Scenario.failing_at UnlinkInput "FS error" (Scenario.calm [])) in
  exists w1,
    Compress.compress Scenario.clip (fun _ _ => ret tt) w
    = (Ok (Compress.encoded Scenario.clip w), w1)
    /\ FS w1 !! "input.mp4" = Some (blob_bytes Scenario.clip)
    /\ FS w1 !! "output.mp4"
       = Some (transcode (outside w) (blob_bytes Scenario.clip)).
Proof.
  apply (failed_release_leaves_both_files Scenario.clip (fun _ _ => ret tt)
           (Scenario.start
              (Scenario.failing_at UnlinkInput "FS error" (Scenario.calm [])))
           "FS error").
  - intros percent message w. exists (page w). destruct w; reflexivity.
  - reflexivity.
  - intros s Hs. cbn in Hs.
    destruct Hs as [<-|[<-|[<-|[<-|[]]]]]; reflexivity.
  - reflexivity.
Defined.

End EngineCleanup.

(** * What the engines and the delivery leave as it is *)

Section FrameProperties.

Import Browser Frame.

Section Always.

Context (R : World -> World -> Prop).
Context (R_refl : forall w, R w w).
Context (R_trans : forall a b c, R a b -> R b c -> R a c).

Lemma always_ret {A} (a : A) : always R (ret a).
Proof. intros w. apply R_refl. Qed.

Lemma always_throw {A} message : always R (@throw A message).
Proof. intros w. apply R_refl. Qed.

Lemma always_lift {A} (o : Outcome A) : always R (lift o).
Proof. intros w. apply R_refl. Qed.

Lemma always_gets {A} (f : World -> A) : always R (gets f).
Proof. intros w. apply R_refl. Qed.

Lemma always_modify f : (forall w, R w (f w)) -> always R (modify f).
Proof. intros Hf w. apply Hf. Qed.

Lemma always_backend_step s : always R (backend_step s).
Proof.
  intros w. unfold backend_step. destruct (fault (outside w) s); apply R_refl.
Qed.

Lemma always_fetch r :
  (forall w, R w (set_requests (requests w ++ [r]) w)) -> always R (fetch r).
Proof. intros Hr w. apply Hr. Qed.

Lemma always_bind {A B} (m : M A) (k : A -> M B) :
  always R m -> (forall a, always R (k a)) -> always R (bind m k).
Proof.
  intros Hm Hk w. unfold bind. pose proof (Hm w) as Hstep.
  destruct (m w) as [[a|message] w1]; cbn [snd] in *; [|exact Hstep].
  eapply R_trans; [exact Hstep | apply Hk].
Qed.

Lemma always_try_catch {A} (body : M A) (handler : string -> M A) :
  always R body -> (forall message, always R (handler message)) ->
  always R (try_catch body handler).
Proof.
  intros Hbody Hhandler w. unfold try_catch. pose proof (Hbody w) as Hstep.
  destruct (body w) as [[a|message] w1]; cbn [snd] in *; [exact Hstep|].
  eapply R_trans; [exact Hstep | apply Hhandler].
Qed.

End Always.

Lemma unchanged_refl {B} (f : World -> B) w : unchanged f w w.
Proof. reflexivity. Qed.

Lemma unchanged_trans {B} (f : World -> B) a b c :
  unchanged f a b -> unchanged f b c -> unchanged f a c.
Proof. unfold unchanged. congruence. Qed.

(** A callback that writes the page only leaves everything else. *)
Lemma page_only_unchanged {B} (f : World -> B) (onProgress : Callback) :
  page_only onProgress ->
  (forall p w, f (set_page p w) = f w) ->
  forall percent message, always (unchanged f) (onProgress percent message).
Proof.
  intros Hcb Hf percent message w. destruct (Hcb percent message w) as [p ->].
  apply Hf.
Qed.

(** The closed form of the steps above for [unchanged f], for computations
    built from the operations of the pipeline. *)
Ltac unchanged_more :=
  repeat (intros;
    first
      [ apply always_ret; apply unchanged_refl
      | apply always_throw; apply unchanged_refl
      | apply always_lift; apply unchanged_refl
      | apply always_gets; apply unchanged_refl
      | apply always_backend_step; apply unchanged_refl
      | apply always_fetch; intros; reflexivity
      | apply always_modify; intros; reflexivity
      | apply always_bind; [apply unchanged_trans | | ]
      | apply always_try_catch; [apply unchanged_trans | | ]
      | match goal with
        | H : forall percent message, always _ (?cb percent message)
          |- always _ (?cb _ _) => apply H
        | |- always _ (match ?x with _ => _ end) => destruct x
        | |- always _ (if ?x then _ else _) => destruct x
        | |- always _ (let _ := _ in _) => cbv zeta
        end
      | progress unfold console_warn, Display.updateProgress, Display.show,
          Display.showProcessing, Display.showSuccess, Display.showError,
          Display.make_metadata,
          FFmpeg.load, FFmpeg.FS_writeFile, FFmpeg.run, FFmpeg.FS_readFile,
          FFmpeg.FS_unlink, FFmpeg.readFile, Compress.runCompression,
          CompressSimple.fallbackCompress,
          GitHubUploadManagerNetlify.callFunction,
          GitHubUploadManagerNetlify.createRelease,
          GitHubUploadManagerNetlify.uploadAsset ]).

Lemma waitUntilReady_loop_local rounds startTime maxWait :
  always (unchanged beyond_encoder)
         (Compress.waitUntilReady_loop rounds startTime maxWait).
Proof.
  induction rounds as [|rounds IH]; cbn [Compress.waitUntilReady_loop];
    unchanged_more. intros; exact IH.
Qed.

Lemma waitUntilReady_local maxWait :
  always (unchanged beyond_encoder) (Compress.waitUntilReady maxWait).
Proof.
  unfold Compress.waitUntilReady.
  apply always_bind; [apply unchanged_trans | apply always_gets, unchanged_refl|].
  intros startTime. apply waitUntilReady_loop_local.
Qed.

Lemma compress_simple_local file onProgress :
  page_only onProgress ->
  always (unchanged beyond_encoder) (CompressSimple.compress file onProgress).
Proof.
  intros Hcb.
  pose proof (page_only_unchanged beyond_encoder onProgress Hcb
                ltac:(reflexivity)) as Hcall.
  unfold CompressSimple.compress, CompressSimple.compressWithFFmpeg.
  unchanged_more.
Qed.

Lemma compress_local file onProgress :
  page_only onProgress ->
  always (unchanged beyond_encoder) (Compress.compress file onProgress).
Proof.
  intros Hcb.
  pose proof (page_only_unchanged beyond_encoder onProgress Hcb
                ltac:(reflexivity)) as Hcall.
  unfold Compress.compress.
  apply always_try_catch; [apply unchanged_trans | | unchanged_more].
  apply always_bind; [apply unchanged_trans | apply waitUntilReady_local | ].
  unchanged_more.
Qed.

(** X21.  Transcoding never calls the function layer: neither engine
    sends a request to github-upload or file-info (no release is created,
    attached to or deleted), writes the cache of the manager or the upload
    history, whether it returns or throws (given a progress callback that
    only writes the page, as the ones the orchestrators pass).  The download
    of the encoder's core by the encoder library is not a request of this
    kind. *)
Theorem transcoding_calls_no_function
    (file : Blob) (onProgress : Callback) (w : World) :
  page_only onProgress ->
  beyond_encoder (CompressSimple.compress file onProgress w).2 = beyond_encoder w
  /\ beyond_encoder (Compress.compress file onProgress w).2 = beyond_encoder w.
Proof.
  intros Hcb. split.
  - apply (compress_simple_local file onProgress Hcb w).
  - apply (compress_local file onProgress Hcb w).
Qed.

Lemma transcoding_calls_no_function_witness :
  let w := Scenario.start (Scenario.failing_at Run "out of memory" (Scenario.calm [])) in
  beyond_encoder (CompressSimple.compress Scenario.clip (fun _ _ => ret tt) w).2
  = beyond_encoder w
  /\ beyond_encoder (Compress.compress Scenario.clip (fun _ _ => ret tt) w).2
     = beyond_encoder w.
Proof.
  apply (transcoding_calls_no_function Scenario.clip (fun _ _ => ret tt)
           (Scenario.start
              (Scenario.failing_at Run "out of memory" (Scenario.calm [])))).
  intros percent message w. exists (page w). destruct w; reflexivity.
Defined.

Lemma uploadWithMetadata_local fileBlob metadata onProgress :
  page_only onProgress ->
  always (unchanged beyond_delivery)
         (GitHubUploadManagerNetlify.uploadWithMetadata fileBlob metadata onProgress).
Proof.
  intros Hcb.
  pose proof (page_only_unchanged beyond_delivery onProgress Hcb
                ltac:(reflexivity)) as Hcall.
  unfold GitHubUploadManagerNetlify.uploadWithMetadata.
  unchanged_more.
Qed.

(** X22.  The delivery writes neither the cache nor the history nor the
    encoder's files: [uploadWithMetadata] leaves the manager (so nothing it
    receives is cached), the upload history and the files of the encoder as
    they were, whether it returns or throws. *)
Theorem delivery_writes_no_cache_and_no_history
    (fileBlob : Blob) (metadata : Metadata) (onProgress : Callback) (w : World) :
  page_only onProgress ->
  beyond_delivery
    (GitHubUploadManagerNetlify.uploadWithMetadata fileBlob metadata onProgress w).2
  = beyond_delivery w.
Proof.
  intros Hcb. apply (uploadWithMetadata_local fileBlob metadata onProgress Hcb w).
Qed.

Lemma delivery_writes_no_cache_and_no_history_witness :
  let w := Scenario.start (Scenario.calm []) in
  let metadata :=
    {| file_id := "9b2f6c1a"; original_filename := Some "clip.mp4";
       original_size := 8; compressed_size := 4; resolution := "720p"; fps := 30;
       upload_time := "2023-11-14T22:13:20.000Z"; uploader_id := "user-1" |} in
  beyond_delivery
    (GitHubUploadManagerNetlify.uploadWithMetadata Scenario.clip metadata
       (fun _ _ => ret tt) w).2
  = beyond_delivery w.
Proof.
  apply (delivery_writes_no_cache_and_no_history Scenario.clip
           {| file_id := "9b2f6c1a"; original_filename := Some "clip.mp4";
              original_size := 8; compressed_size := 4; resolution := "720p";
              fps := 30; upload_time := "2023-11-14T22:13:20.000Z";
              uploader_id := "user-1" |}
           (fun _ _ => ret tt) (Scenario.start (Scenario.calm []))).
  intros percent message w. exists (page w). destruct w; reflexivity.
Defined.

End FrameProperties.

(** * Properties of the orchestrators *)

Section OrchestratorProperties.

Import Browser Frame Display.

Lemma bind_step {A B} (m : M A) (k : A -> M B) w :
  bind m k w
  = match m w with
    | (Ok a, w1) => k a w1
    | (Throw message, w1) => (Throw message, w1)
    end.
Proof. reflexivity. Qed.

Lemma bind_modify {B} f (k : unit -> M B) w : bind (modify f) k w = k tt (f w).
Proof. reflexivity. Qed.

Lemma bind_gets {A B} (f : World -> A) (k : A -> M B) w :
  bind (gets f) k w = k (f w) w.
Proof. reflexivity. Qed.

Lemma getErrorMessage_nonempty message :
  GitHubUploadManagerNetlify.getErrorMessage message <> "".
Proof.
  unfold GitHubUploadManagerNetlify.getErrorMessage.
  repeat match goal with
         | |- (if ?c then _ else _) <> _ => destruct c eqn:?; try discriminate
         end.
  now apply String.eqb_neq.
Qed.

Lemma uploadWithMetadata_keeps_storage fileBlob metadata onProgress w :
  page_only onProgress ->
  storage (GitHubUploadManagerNetlify.uploadWithMetadata
             fileBlob metadata onProgress w).2 = storage w.
Proof.
  intros Hcb.
  pose proof (uploadWithMetadata_local fileBlob metadata
                onProgress Hcb w) as Hkeep.
  unfold unchanged, beyond_delivery in Hkeep. congruence.
Qed.

(** The tail of both orchestrators after the delivery has returned. *)
Lemma recorded_then_success fileId uploadResult percent message w :
  exists w1,
    (addUpload fileId uploadResult ;;;
     updateProgress percent message ;;;
     showSuccess) w = (Ok tt, w1)
    /\ screen (page w1) = SuccessArea
    /\ exists record, storage w1 = (storage w ++ [record])%list.
Proof.
  eexists. split; [reflexivity|]. split; [reflexivity|].
  eexists. reflexivity.
Qed.

(** The handler of both orchestrators. *)
Lemma failure_then_error line message w :
  exists w1,
    (console_warn line ;;;
     showError (GitHubUploadManagerNetlify.getErrorMessage message)) w
    = (Ok tt, w1)
    /\ screen (page w1)
       = ErrorArea (GitHubUploadManagerNetlify.getErrorMessage message)
    /\ storage w1 = storage w.
Proof.
  eexists. split; [reflexivity|]. split; reflexivity.
Qed.

Lemma upload_netlify_outcome
    (compress : Blob -> Callback -> M Blob) (file : Blob) (w : World) :
  (forall onProgress w0, page_only onProgress ->
     storage (compress file onProgress w0).2 = storage w0) ->
  exists w9,
    UploadNetlify.handleFileSelect compress (Some file) w = (Ok tt, w9)
    /\ ((screen (page w9) = SuccessArea
         /\ exists record, storage w9 = (storage w ++ [record])%list)
        \/ (exists message,
              screen (page w9) = ErrorArea message
              /\ message <> ""
              /\ storage w9 = storage w)).
Proof.
  intros Hlocal. unfold UploadNetlify.handleFileSelect.
  destruct (negb (String.prefix "video/" (blob_type file))).
  { eexists. split; [reflexivity|]. right. eexists. split; [reflexivity|].
    split; [discriminate|reflexivity]. }
  unfold showProcessing, show at 1. rewrite bind_modify.
  match goal with
  | |- context [try_catch _ _ ?W] =>
      assert (Hstart : storage W = storage w) by reflexivity;
      generalize dependent W; intros w0 Hstart
  end.
  unfold try_catch. rewrite bind_step.
  match goal with
  | |- context [compress file ?cb w0] =>
      pose proof (Hlocal cb w0 (updateProgress_page_only _)) as Hkept;
      destruct (compress file cb w0) as [[compressedBlob|message] w1]
  end; cbn [snd] in Hkept.
  2:{ destruct (failure_then_error ("❌ エラー: " ++ message) message w1)
        as (w2 & -> & Hscreen & Hsame).
      eexists. split; [reflexivity|]. right. eexists. split; [exact Hscreen|].
      split; [apply getErrorMessage_nonempty | congruence]. }
  unfold updateProgress at 1. rewrite bind_modify, bind_gets.
  unfold make_metadata. rewrite bind_gets, bind_step.
  match goal with
  | |- context [GitHubUploadManagerNetlify.uploadWithMetadata ?b ?m ?cb ?W] =>
      pose proof (uploadWithMetadata_keeps_storage b m cb W
                    (updateProgress_page_only _)) as Hkept2;
      destruct (GitHubUploadManagerNetlify.uploadWithMetadata b m cb W)
        as [[uploadResult|message] w2]
  end; cbn [snd storage set_page] in Hkept2.
  - match goal with
    | |- context [bind (addUpload ?i ?r) ?k ?W] =>
        destruct (recorded_then_success i r (100 # 1)%Q "アップロード完了！" W)
          as (w3 & -> & Hscreen & record & Hrecord)
    end.
    eexists. split; [reflexivity|]. left. split; [exact Hscreen|].
    exists record. rewrite Hrecord. congruence.
  - destruct (failure_then_error ("❌ エラー: " ++ message) message w2)
      as (w3 & -> & Hscreen & Hsame).
    eexists. split; [reflexivity|]. right. eexists. split; [exact Hscreen|].
    split; [apply getErrorMessage_nonempty | congruence].
Qed.

Lemma index_fast_outcome
    (compress : Blob -> Callback -> M Blob) (file : Blob) (w : World) :
  (forall onProgress w0, page_only onProgress ->
     storage (compress file onProgress w0).2 = storage w0) ->
  exists w9,
    IndexFast.handleFileSelect compress (Some file) w = (Ok tt, w9)
    /\ ((screen (page w9) = SuccessArea
         /\ exists record, storage w9 = (storage w ++ [record])%list)
        \/ (exists message,
              screen (page w9) = ErrorArea message
              /\ message <> ""
              /\ storage w9 = storage w)).
Proof.
  intros Hlocal. unfold IndexFast.handleFileSelect.
  destruct (negb (String.prefix "video/" (blob_type file))).
  { eexists. split; [reflexivity|]. right. eexists. split; [reflexivity|].
    split; [discriminate|reflexivity]. }
  destruct (blob_size file >? 5 * 1024 * 1024 * 1024).
  { eexists. split; [reflexivity|]. right. eexists. split; [reflexivity|].
    split; [discriminate|reflexivity]. }
  unfold showProcessing, show at 1. rewrite bind_modify.
  unfold try_catch. unfold updateProgress at 1. rewrite bind_modify.
  match goal with
  | |- context [bind (compress file ?cb) ?k ?W] =>
      assert (Hstart : storage W = storage w) by reflexivity;
      generalize dependent W; intros w0 Hstart
  end.
  rewrite bind_step.
  match goal with
  | |- context [compress file ?cb w0] =>
      pose proof (Hlocal cb w0 (updateProgress_page_only _)) as Hkept;
      destruct (compress file cb w0) as [[compressedBlob|message] w1]
  end; cbn [snd] in Hkept.
  2:{ destruct (failure_then_error ("❌ Error: " ++ message) message w1)
        as (w2 & -> & Hscreen & Hsame).
      eexists. split; [reflexivity|]. right. eexists. split; [exact Hscreen|].
      split; [apply getErrorMessage_nonempty | congruence]. }
  unfold updateProgress at 1. rewrite bind_modify, bind_gets.
  unfold make_metadata. rewrite bind_gets, bind_step.
  match goal with
  | |- context [GitHubUploadManagerNetlify.uploadWithMetadata ?b ?m ?cb ?W] =>
      pose proof (uploadWithMetadata_keeps_storage b m cb W
                    (updateProgress_page_only _)) as Hkept2;
      destruct (GitHubUploadManagerNetlify.uploadWithMetadata b m cb W)
        as [[uploadResult|message] w2]
  end; cbn [snd storage set_page] in Hkept2.
  - match goal with
    | |- context [bind (addUpload ?i ?r) ?k ?W] =>
        destruct (recorded_then_success i r (100 # 1)%Q "Complete!" W)
          as (w3 & -> & Hscreen & record & Hrecord)
    end.
    eexists. split; [reflexivity|]. left. split; [exact Hscreen|].
    exists record. rewrite Hrecord. congruence.
  - destruct (failure_then_error ("❌ Error: " ++ message) message w2)
      as (w3 & -> & Hscreen & Hsame).
    eexists. split; [reflexivity|]. right. eexists. split; [exact Hscreen|].
    split; [apply getErrorMessage_nonempty | congruence].
Qed.

(** X23.  [handleFileSelect] never rejects, and a run on a file ends in
    one of two ways: on the success screen with exactly one record added to
    the upload history, or on the error screen with a message that is not
    empty and the history as it was.  So an upload is recorded exactly when
    it is shown as succeeded.  This holds in upload-netlify.js and in
    index-fast.js, for any engine that leaves the history alone (as both
    engines do). *)
Theorem upload_is_recorded_exactly_when_it_succeeds
    (compress : Blob -> Callback -> M Blob) (file : Blob) (w : World) :
  (forall onProgress w0, page_only onProgress ->
     storage (compress file onProgress w0).2 = storage w0) ->
  Orchestration.recorded_or_failed
    (UploadNetlify.handleFileSelect compress (Some file) w) w
  /\ Orchestration.recorded_or_failed
       (IndexFast.handleFileSelect compress (Some file) w) w.
Proof.
  intros Hlocal. unfold Orchestration.recorded_or_failed. split.
  - destruct (upload_netlify_outcome compress file w Hlocal) as (w9 & -> & Hends).
    split; [reflexivity | exact Hends].
  - destruct (index_fast_outcome compress file w Hlocal) as (w9 & -> & Hends).
    split; [reflexivity | exact Hends].
Qed.

Lemma upload_is_recorded_exactly_when_it_succeeds_witness :
  Orchestration.recorded_or_failed
    (UploadNetlify.handleFileSelect CompressSimple.compress (Some Scenario.clip)
       (Scenario.start (Scenario.calm [])))
    (Scenario.start (Scenario.calm []))
  /\ Orchestration.recorded_or_failed
       (IndexFast.handleFileSelect CompressSimple.compress (Some Scenario.clip)
          (Scenario.start (Scenario.calm [])))
       (Scenario.start (Scenario.calm [])).
Proof.
  apply (upload_is_recorded_exactly_when_it_succeeds CompressSimple.compress
           Scenario.clip (Scenario.start (Scenario.calm []))).
  intros onProgress w0 Hcb.
  pose proof (compress_simple_local Scenario.clip onProgress Hcb w0) as Hkeep.
  unfold unchanged, beyond_encoder in Hkeep. congruence.
Defined.

Lemma compress_gives_up late file onProgress w :
  (forall t, clock w <= t -> isReady_at (outside w) t = false) ->
  exists t,
    30000 < t - clock w
    /\ LateTimers.compress late file onProgress w
       = (Throw "Compression failed: FFmpeg initialization timeout",
          set_console
            (console w
             ++ ["❌ Compression failed: FFmpeg initialization timeout"])
            (set_clock t w)).
Proof.
  intros Hnever.
  destruct (late_never late 30000 w ltac:(lia) Hnever) as (t & Hpast & Htimeout).
  exists t. split; [exact Hpast|].
  unfold LateTimers.compress, try_catch. rewrite bind_step, Htimeout.
  reflexivity.
Qed.

(** X24.  An engine that never becomes ready is reported as a network
    problem: more than 30 s after the file was chosen (how much more depends
    on how late the timers of the wait fire), with no percentage ever shown,
    nothing sent and nothing recorded, the error screen tells the user that
    the request timed out and to check the connection (the message of the
    engine contains the word that [getErrorMessage] takes for a request
    timeout). *)
Theorem engine_never_ready_is_shown_as_request_timeout
    (late : Z -> N) (file : Blob) (w : World) :
  String.prefix "video/" (blob_type file) = true ->
  (forall t, clock w <= t -> isReady_at (outside w) t = false) ->
  let w1 :=
    (UploadNetlify.handleFileSelect (LateTimers.compress late) (Some file) w).2 in
  screen (page w1)
  = ErrorArea "リクエストがタイムアウトしました。接続を確認してください。"
  /\ clock w + 30000 < clock w1
  /\ progress_log (page w1) = progress_log (page w)
  /\ requests w1 = requests w
  /\ storage w1 = storage w.
Proof.
  intros Hvideo Hnever. cbv zeta.
  assert (Hrun : exists w9,
    UploadNetlify.handleFileSelect (LateTimers.compress late) (Some file) w
    = (Ok tt, w9)
    /\ screen (page w9)
       = ErrorArea "リクエストがタイムアウトしました。接続を確認してください。"
    /\ clock w + 30000 < clock w9
    /\ progress_log (page w9) = progress_log (page w)
    /\ requests w9 = requests w
    /\ storage w9 = storage w).
  { unfold UploadNetlify.handleFileSelect.
    rewrite Hvideo. cbn [negb].
    unfold showProcessing, show at 1. rewrite bind_modify.
    unfold try_catch. rewrite bind_step.
    match goal with
    | |- context [LateTimers.compress late file ?cb ?W] =>
        destruct (compress_gives_up late file cb W Hnever)
          as (t & Hpast & ->)
    end.
    eexists. split; [reflexivity|]. cbn [clock set_page] in Hpast.
    repeat split. cbn. lia. }
  destruct Hrun as (w9 & -> & Hends). exact Hends.
Qed.

Lemma engine_never_ready_is_shown_as_request_timeout_witness :
  let late : Z -> N := fun t => if t =? 1700000000000 then 250%N else 0%N in
  let w := Scenario.start (Scenario.never_ready (Scenario.calm [])) in
  let w1 :=
    (UploadNetlify.handleFileSelect (LateTimers.compress late)
       (Some Scenario.clip) w).2 in
  screen (page w1)
  = ErrorArea "リクエストがタイムアウトしました。接続を確認してください。"
  /\ clock w + 30000 < clock w1
  /\ progress_log (page w1) = progress_log (page w)
  /\ requests w1 = requests w
  /\ storage w1 = storage w.
Proof.
  apply (engine_never_ready_is_shown_as_request_timeout
           (fun t => if t =? 1700000000000 then 250%N else 0%N) Scenario.clip
           (Scenario.start (Scenario.never_ready (Scenario.calm [])))).
  - reflexivity.
  - reflexivity.
Defined.

End OrchestratorProperties.

(** * Properties of the initialisation of the engine *)

Section EngineInitProperties.

Import EngineInit.

Lemma tick_tick a b e : tick a (tick b e) = tick (b + a) e.
Proof. unfold tick. cbn. f_equal. lia. Qed.

Lemma tick_0 e : tick 0 e = e.
Proof. destruct e. unfold tick. cbn. f_equal. lia. Qed.

Lemma script_loop_round env rounds startTime maxWait e :
  waitForFFmpegScript_loop env (S rounds) startTime maxWait e
  = if script_at env (now e) then (Ok tt, e)
    else if now e - startTime >? maxWait
         then (Throw "FFmpeg script failed to load within timeout", e)
         else waitForFFmpegScript_loop env rounds startTime maxWait
                (tick (fires_at env (now e + 100) - now e) e).
Proof. reflexivity. Qed.

(** Looks are at least 100 ms apart, and exactly that with timers that fire
    on time. *)
Lemma poll_lower env start k : start + 100 * Z.of_nat k <= poll env start k.
Proof.
  induction k as [|k IH]; cbn [poll]; unfold fires_at; lia.
Qed.

Lemma poll_on_time env start k :
  (forall t, late_at env t = 0%N) ->
  poll env start k = start + 100 * Z.of_nat k.
Proof.
  intros Hzero. induction k as [|k IH]; cbn [poll]; [lia|].
  unfold fires_at. rewrite Hzero, IH. lia.
Qed.

Lemma poll_shift env start k :
  poll env (fires_at env (start + 100)) k = poll env start (S k).
Proof.
  induction k as [|k IH]; [reflexivity|].
  cbn [poll] in *. now rewrite IH.
Qed.

Lemma script_loop_polls env (k : nat) :
  forall rounds startTime maxWait e,
    (forall j : nat, (j < k)%nat ->
       script_at env (poll env (now e) j) = false
       /\ poll env (now e) j - startTime <= maxWait) ->
    waitForFFmpegScript_loop env (k + rounds) startTime maxWait e
    = waitForFFmpegScript_loop env rounds startTime maxWait
        (tick (poll env (now e) k - now e) e).
Proof.
  induction k as [|k IH]; intros rounds startTime maxWait e Hpolls.
  - cbn [Nat.add poll]. now rewrite Z.sub_diag, tick_0.
  - cbn [Nat.add]. rewrite script_loop_round.
    destruct (Hpolls 0%nat ltac:(lia)) as [Hnot Hwithin].
    cbn [poll] in Hnot, Hwithin. rewrite Hnot.
    destruct (Z.gtb_spec (now e - startTime) maxWait); [lia|].
    assert (Hnow : now (tick (fires_at env (now e + 100) - now e) e)
                   = fires_at env (now e + 100)) by (cbn [now tick]; lia).
    rewrite IH.
    + rewrite tick_tick, Hnow, poll_shift. do 2 f_equal. lia.
    + intros j Hj. rewrite Hnow, poll_shift. apply Hpolls. lia.
Qed.

(** [waitForFFmpegScript] ends at a look: at the first one that finds the
    script, or at the first one that comes more than 10 s after the call and
    finds it missing. *)
Lemma waitForFFmpegScript_outcome env e :
  exists k : nat, (k <= 101)%nat
    /\ (forall j : nat, (j < k)%nat ->
          script_at env (poll env (now e) j) = false)
    /\ let t := poll env (now e) k in
       (script_at env t = true
        /\ waitForFFmpegScript env 10000 e = (Ok tt, tick (t - now e) e))
       \/ (script_at env t = false /\ 10000 < t - now e
           /\ waitForFFmpegScript env 10000 e
              = (Throw "FFmpeg script failed to load within timeout",
                 tick (t - now e) e)).
Proof.
  unfold waitForFFmpegScript.
  change (Z.to_nat (10000 / 100) + 2)%nat with 102%nat.
  destruct (first_index
              (fun j => script_at env (poll env (now e) j)
                        || (poll env (now e) j - now e >? 10000)) 101)
    as (k & Hk & Hbefore & Hat).
  { pose proof (poll_lower env (now e) 101).
    destruct (Z.gtb_spec (poll env (now e) 101 - now e) 10000); [|lia].
    apply orb_true_r. }
  assert (Hpolls : forall j : nat, (j < k)%nat ->
            script_at env (poll env (now e) j) = false
            /\ poll env (now e) j - now e <= 10000).
  { intros j Hj. specialize (Hbefore j Hj). cbn beta in Hbefore.
    apply orb_false_elim in Hbefore as [Hnot Hwithin].
    split; [exact Hnot|].
    destruct (Z.gtb_spec (poll env (now e) j - now e) 10000);
      [discriminate | lia]. }
  exists k. split; [exact Hk|]. split; [intros j Hj; apply Hpolls, Hj|].
  cbv zeta. replace 102%nat with (k + S (101 - k))%nat by lia.
  rewrite script_loop_polls by exact Hpolls.
  rewrite script_loop_round.
  replace (now (tick (poll env (now e) k - now e) e))
    with (poll env (now e) k) by (cbn [now tick]; lia).
  cbn beta in Hat.
  destruct (script_at env (poll env (now e) k)); [left; split; reflexivity|].
  cbn [orb] in Hat. rewrite Hat. right.
  destruct (Z.gtb_spec (poll env (now e) k - now e) 10000); [|discriminate].
  repeat split. assumption.
Qed.

Lemma create_and_load_keeps env e :
  retries (create_and_load env e).2 = retries e
  /\ now e <= now (create_and_load env e).2
  /\ ((create_and_load env e).1 = Ok tt ->
      isReady (create_and_load env e).2 = true
      /\ isInitializing (create_and_load env e).2 = false
      /\ ffmpeg (create_and_load env e).2 = true).
Proof.
  unfold create_and_load.
  destruct (negb (script_at env (now e)));
    [cbn; repeat split; try lia; discriminate|].
  destruct (negb (class_at env (now e)));
    [cbn; repeat split; try lia; discriminate|].
  destruct (construct_at env (now e));
    [cbn; repeat split; try lia; discriminate|].
  cbn [now]. destruct (load_at env (now e)) as [duration [message|]];
    cbn; repeat split; try lia; discriminate.
Qed.

Lemma create_and_load_failure env e message :
  script_at env (now e) = true ->
  (create_and_load env e).1 = Throw message ->
  (message = "FFmpeg.FFmpeg class not found" /\ class_at env (now e) = false)
  \/ construct_at env (now e) = Some message
  \/ (load_at env (now e)).2 = Some message.
Proof.
  intros Hscript. unfold create_and_load. rewrite Hscript. cbn [negb].
  destruct (class_at env (now e)); cbn [negb].
  - destruct (construct_at env (now e)) as [m|]; cbn [fst].
    + intros [= ->]. right. left. reflexivity.
    + cbn [now]. destruct (load_at env (now e)) as [duration [m|]]; cbn.
      * intros [= ->]. right. right. reflexivity.
      * discriminate.
  - cbn. intros [= <-]. left. split; reflexivity.
Qed.

Lemma attempt_keeps env e :
  retries (attempt env e).2 = retries e
  /\ now e <= now (attempt env e).2
  /\ ((attempt env e).1 = Ok tt ->
      isReady (attempt env e).2 = true
      /\ isInitializing (attempt env e).2 = false
      /\ ffmpeg (attempt env e).2 = true).
Proof.
  unfold attempt.
  destruct (script_at env (now e)); cbn [negb].
  - apply create_and_load_keeps.
  - destruct (waitForFFmpegScript_outcome env e)
      as (k & Hk & _ & [[Hat ->] | (Hnot & Hpast & ->)]).
    + pose proof (poll_lower env (now e) k) as Hlower.
      destruct (create_and_load_keeps env (tick (poll env (now e) k - now e) e))
        as (Hretries & Hnow & Hok).
      cbn [retries now tick] in Hretries, Hnow.
      split; [exact Hretries|]. split; [lia | exact Hok].
    + cbn. repeat split; try lia; discriminate.
Qed.

(** X25.  An attempt to initialise the engine fails in one of four ways:
    the wait for the script gives up, at the first look that comes more than
    10 s after the attempt began and still finds the script missing, as all
    looks before it did (looks are 100 ms apart or more; with timers that
    fire on time this is the 102nd look, after 10.1 s); the script is there
    without the class; the constructor throws; or [load] rejects.  The check
    that follows the wait (with the message that the script did not load)
    never fires: when the wait returns, the script is there. *)
Theorem attempt_fails_in_four_ways
    (env : Surroundings) (e : Engine) (message : string) :
  (attempt env e).1 = Throw message ->
  let e1 := (attempt env e).2 in
  (message = "FFmpeg script failed to load within timeout"
   /\ now e + 10000 < now e1
   /\ ((forall t, late_at env t = 0%N) -> now e1 = now e + 10100)
   /\ exists k : nat,
        (k <= 101)%nat /\ now e1 = poll env (now e) k
        /\ forall j : nat, (j <= k)%nat ->
             script_at env (poll env (now e) j) = false)
  \/ (message = "FFmpeg.FFmpeg class not found"
      /\ script_at env (now e1) = true /\ class_at env (now e1) = false)
  \/ (exists t, now e <= t /\ script_at env t = true
                /\ construct_at env t = Some message)
  \/ (exists t, now e <= t /\ script_at env t = true
                /\ (load_at env t).2 = Some message).
Proof.
  assert (Hloaded : forall e0,
    now e <= now e0 ->
    script_at env (now e0) = true ->
    (create_and_load env e0).1 = Throw message ->
    (message = "FFmpeg.FFmpeg class not found"
     /\ script_at env (now (create_and_load env e0).2) = true
     /\ class_at env (now (create_and_load env e0).2) = false)
    \/ (exists t, now e <= t /\ script_at env t = true
                  /\ construct_at env t = Some message)
    \/ (exists t, now e <= t /\ script_at env t = true
                  /\ (load_at env t).2 = Some message)).
  { intros e0 Hle Hscript Hthrow.
    destruct (create_and_load_failure env e0 message Hscript Hthrow)
      as [[-> Hclass] | [Hconstruct | Hload]].
    - left. unfold create_and_load. rewrite Hscript, Hclass. cbn.
      repeat split; assumption.
    - right. left. exists (now e0). repeat split; assumption.
    - right. right. exists (now e0). repeat split; assumption. }
  unfold attempt. destruct (script_at env (now e)) eqn:Hscript; cbn [negb].
  - intros Hthrow. cbv zeta. right. apply Hloaded; [lia | exact Hscript | exact Hthrow].
  - destruct (waitForFFmpegScript_outcome env e)
      as (k & Hk & Hbefore & [[Hat ->] | (Hnot & Hpast & ->)]).
    + intros Hthrow. cbv zeta. right.
      pose proof (poll_lower env (now e) k).
      apply Hloaded; [cbn [now tick]; lia | | exact Hthrow].
      replace (now (tick (poll env (now e) k - now e) e))
        with (poll env (now e) k) by (cbn [now tick]; lia).
      exact Hat.
    + cbn [fst snd]. intros [= <-]. left.
      replace (now (tick (poll env (now e) k - now e) e))
        with (poll env (now e) k) by (cbn [now tick]; lia).
      split; [reflexivity|]. split; [lia|]. split.
      * intros Hzero. rewrite (poll_on_time env (now e) k Hzero) in Hpast |- *.
        lia.
      * exists k. split; [exact Hk|]. split; [reflexivity|].
        intros j Hj. destruct (Nat.eq_dec j k) as [->|];
          [exact Hnot | apply Hbefore; lia].
Qed.

Lemma attempt_fails_in_four_ways_witness :
  let env :=
    {| script_at := fun t => 5000 <=? t; class_at := fun _ => true;
       construct_at := fun _ => None;
       load_at := fun _ => (2000%N, Some "failed to fetch the core");
       late_at := fun t => if t =? 100 then 40%N else 0%N |} in
  let e :=
    {| ffmpeg := false; isReady := false; isInitializing := true; now := 0;
       retries := [] |} in
  let message := "failed to fetch the core" in
  let e1 := (attempt env e).2 in
  (message = "FFmpeg script failed to load within timeout"
   /\ now e + 10000 < now e1
   /\ ((forall t, late_at env t = 0%N) -> now e1 = now e + 10100)
   /\ exists k : nat,
        (k <= 101)%nat /\ now e1 = poll env (now e) k
        /\ forall j : nat, (j <= k)%nat ->
             script_at env (poll env (now e) j) = false)
  \/ (message = "FFmpeg.FFmpeg class not found"
      /\ script_at env (now e1) = true /\ class_at env (now e1) = false)
  \/ (exists t, now e <= t /\ script_at env t = true
                /\ construct_at env t = Some message)
  \/ (exists t, now e <= t /\ script_at env t = true
                /\ (load_at env t).2 = Some message).
Proof.
  apply (attempt_fails_in_four_ways
           {| script_at := fun t => 5000 <=? t; class_at := fun _ => true;
              construct_at := fun _ => None;
              load_at := fun _ => (2000%N, Some "failed to fetch the core");
              late_at := fun t => if t =? 100 then 40%N else 0%N |}
           {| ffmpeg := false; isReady := false; isInitializing := true; now := 0;
              retries := [] |}
           "failed to fetch the core").
  vm_compute. reflexivity.
Defined.

Lemma initFFmpeg_step env e :
  isInitializing e = false ->
  let e1 := initFFmpeg env e in
  isInitializing e1 = false
  /\ now e <= now e1
  /\ (if isReady e1 then retries e1 = retries e /\ ffmpeg e1 = true
      else retries e1 = (retries e ++ [now e1 + 1000])%list).
Proof.
  intros Hidle. cbv zeta. unfold initFFmpeg. rewrite Hidle.
  match goal with
  | |- context [attempt env ?E] =>
      destruct (attempt_keeps env E) as (Hretries & Hnow & Hok);
      destruct (attempt env E) as [[[]|message] e1]
  end; cbn [fst snd retries now] in *.
  - destruct (Hok eq_refl) as (-> & -> & ->). repeat split; assumption.
  - cbn. rewrite Hretries. repeat split. exact Hnow.
Qed.

(** X26.  The initialisation goes on until the engine is ready, one attempt
    at a time: after the constructor and any number of retries, no attempt is
    under way; if the engine is ready it holds an instance, no retry is due
    and nothing changes any more (it stays ready); if it is not, exactly one
    retry is due, one second after the last attempt failed. *)
Theorem initFFmpeg_retries_until_ready (env : Surroundings) (t : Z) (n : nat) :
  let e := fire_times n env (constructor env t) in
  isInitializing e = false
  /\ (if isReady e
      then ffmpeg e = true /\ retries e = [] /\ fire env e = e
      else retries e = [now e + 1000]).
Proof.
  cbv zeta.
  assert (Hinv : forall e,
    isInitializing e = false ->
    (if isReady e then ffmpeg e = true /\ retries e = []
     else retries e = [now e + 1000]) ->
    isInitializing (fire env e) = false
    /\ (if isReady (fire env e)
        then ffmpeg (fire env e) = true /\ retries (fire env e) = []
        else retries (fire env e) = [now (fire env e) + 1000])).
  { intros e Hidle Hstate. unfold fire.
    destruct (isReady e) eqn:Hready.
    - destruct Hstate as [Hffmpeg Hnone]. rewrite Hnone, Hready. auto.
    - rewrite Hstate.
      match goal with
      | |- context [initFFmpeg env ?E] =>
          destruct (initFFmpeg_step env E Hidle) as (Hidle1 & _ & Hstate1)
      end.
      cbv zeta in Hidle1, Hstate1. cbn [retries] in Hstate1.
      split; [exact Hidle1|].
      destruct (isReady (initFFmpeg env _)); [tauto | exact Hstate1]. }
  assert (Hall : forall m e,
    isInitializing e = false ->
    (if isReady e then ffmpeg e = true /\ retries e = []
     else retries e = [now e + 1000]) ->
    isInitializing (fire_times m env e) = false
    /\ (if isReady (fire_times m env e)
        then ffmpeg (fire_times m env e) = true /\ retries (fire_times m env e) = []
        else retries (fire_times m env e) = [now (fire_times m env e) + 1000])).
  { induction m as [|m IH]; intros e Hidle Hstate; cbn [fire_times].
    - split; assumption.
    - destruct (Hinv e Hidle Hstate) as [Hidle1 Hstate1]. apply IH; assumption. }
  destruct (Hall n (constructor env t)) as [Hidle Hstate].
  - apply (initFFmpeg_step env
             {| ffmpeg := false; isReady := false; isInitializing := false;
                now := t; retries := [] |} eq_refl).
  - pose proof (initFFmpeg_step env
                  {| ffmpeg := false; isReady := false; isInitializing := false;
                     now := t; retries := [] |} eq_refl) as (_ & _ & Hstate).
    cbv zeta in Hstate. cbn [retries app] in Hstate.
    fold (constructor env t) in Hstate.
    destruct (isReady (constructor env t)); [tauto | exact Hstate].
  - split; [exact Hidle|].
    destruct (isReady (fire_times n env (constructor env t))); [|exact Hstate].
    destruct Hstate as [Hffmpeg Hnone]. repeat split; try assumption.
    unfold fire. now rewrite Hnone.
Qed.

Lemma missing_script_attempt env e :
  (forall t, script_at env t = false) ->
  isInitializing e = false ->
  exists t1,
    now e + 10000 < t1
    /\ ((forall t, late_at env t = 0%N) -> t1 = now e + 10100)
    /\ initFFmpeg env e
       = {| ffmpeg := ffmpeg e; isReady := false; isInitializing := false;
            now := t1; retries := (retries e ++ [t1 + 1000])%list |}.
Proof.
  intros Hmissing Hidle. unfold initFFmpeg, attempt. rewrite Hidle.
  cbn [now]. rewrite Hmissing. cbn [negb].
  match goal with
  | |- context [waitForFFmpegScript env 10000 ?E] =>
      destruct (waitForFFmpegScript_outcome env E)
        as (k & Hk & Hbefore & [[Hat _] | (_ & Hpast & ->)])
  end.
  - rewrite Hmissing in Hat. discriminate Hat.
  - cbn [now] in Hpast, Hbefore |- *.
    exists (now e + (poll env (now e) k - now e)).
    split; [lia|]. split; [|reflexivity].
    intros Hzero. rewrite (poll_on_time env (now e) k Hzero) in Hpast |- *.
    lia.
Qed.

Lemma missing_script_retries env (m : nat) :
  (forall t, script_at env t = false) ->
  forall e,
    ffmpeg e = false -> isReady e = false -> isInitializing e = false ->
    retries e = [now e + 1000] ->
    let e1 := fire_times m env e in
    ffmpeg e1 = false /\ isReady e1 = false /\ isInitializing e1 = false
    /\ retries e1 = [now e1 + 1000]
    /\ now e + 11000 * Z.of_nat m <= now e1
    /\ ((forall t, late_at env t = 0%N) ->
        now e1 = now e + 11100 * Z.of_nat m).
Proof.
  intros Hmissing.
  induction m as [|m IH]; intros e Hffmpeg Hready Hidle Hretries;
    cbn [fire_times].
  - cbv zeta. repeat split; try assumption; lia.
  - unfold fire. rewrite Hretries.
    match goal with
    | |- context [initFFmpeg env ?E] =>
        destruct (missing_script_attempt env E Hmissing Hidle)
          as (t1 & Hpast & Hexact & ->)
    end.
    cbn [now retries ffmpeg app] in Hpast, Hexact |- *.
    match goal with
    | |- context [fire_times m env ?E] =>
        destruct (IH E Hffmpeg eq_refl eq_refl eq_refl)
          as (H1 & H2 & H3 & H4 & Hlower & Hon_time)
    end.
    cbn [now] in Hlower, Hon_time. unfold fires_at in Hpast, Hexact.
    repeat split; try assumption; [lia|].
    intros Hzero. specialize (Hexact Hzero). specialize (Hon_time Hzero).
    rewrite Hzero in Hexact. lia.
Qed.

(** X27.  While the script of the encoder is missing the engine tries again
    for ever: after the constructor at [t] and [n] retries no attempt is
    under way, the engine is not ready and holds no instance, and the next
    retry is due one second after the last attempt gave up.  Each attempt
    gives up more than 10 s after it began, so the last one has given up
    more than [10 + 11 n] s after [t]; with timers that fire on time the
    attempts are 11.1 s apart and the last one has given up at
    [t + 10100 + 11100 n]. *)
Theorem missing_script_is_retried_for_ever
    (env : Surroundings) (t : Z) (n : nat) :
  (forall instant, script_at env instant = false) ->
  let e := fire_times n env (constructor env t) in
  ffmpeg e = false /\ isReady e = false /\ isInitializing e = false
  /\ retries e = [now e + 1000]
  /\ t + 10000 + 11000 * Z.of_nat n < now e
  /\ ((forall instant, late_at env instant = 0%N) ->
      now e = t + 10100 + 11100 * Z.of_nat n).
Proof.
  intros Hmissing. cbv zeta. unfold constructor.
  match goal with
  | |- context [initFFmpeg env ?E] =>
      destruct (missing_script_attempt env E Hmissing eq_refl)
        as (t1 & Hpast & Hexact & ->)
  end.
  cbn [now retries ffmpeg app] in Hpast, Hexact |- *.
  match goal with
  | |- context [fire_times n env ?E] =>
      destruct (missing_script_retries env n Hmissing E
                  eq_refl eq_refl eq_refl eq_refl)
        as (H1 & H2 & H3 & H4 & Hlower & Hon_time)
  end.
  cbn [now] in Hlower, Hon_time.
  repeat split; try assumption; [lia|].
  intros Hzero. specialize (Hexact Hzero). specialize (Hon_time Hzero). lia.
Qed.

Lemma missing_script_is_retried_for_ever_witness :
  let env :=
    {| script_at := fun _ => false; class_at := fun _ => true;
       construct_at := fun _ => None; load_at := fun _ => (0%N, None);
       late_at := fun t => if t =? 11100 then 7%N else 0%N |} in
  let e := fire_times 3 env (constructor env 0) in
  ffmpeg e = false /\ isReady e = false /\ isInitializing e = false
  /\ retries e = [now e + 1000]
  /\ 0 + 10000 + 11000 * Z.of_nat 3 < now e
  /\ ((forall instant, late_at env instant = 0%N) ->
      now e = 0 + 10100 + 11100 * Z.of_nat 3).
Proof.
  apply (missing_script_is_retried_for_ever
           {| script_at := fun _ => false; class_at := fun _ => true;
              construct_at := fun _ => None; load_at := fun _ => (0%N, None);
              late_at := fun t => if t =? 11100 then 7%N else 0%N |}
           0 3).
  reflexivity.
Defined.

End EngineInitProperties.

(** * Properties of the quotation proxy *)

Section StockProxyProperties.

Import Browser StockProxy.

#[local] Arguments field : simpl never.
#[local] Arguments nonempty_string : simpl never.
#[local] Arguments truthy : simpl never.
#[local] Arguments truthy_str : simpl never.
#[local] Arguments error_message : simpl never.
#[local] Arguments find_rate : simpl never.
#[local] Arguments String.eqb : simpl never.
#[local] Arguments Z.ltb : simpl never.
#[local] Arguments Z.geb : simpl never.

(** Case analysis on every branch of the handler. *)
Ltac proxy_cases :=
  repeat (cbn;
    match goal with
    | |- context [match ?x with _ => _ end] =>
        lazymatch x with
        | context [match _ with _ => _ end] => fail
        | _ => destruct x eqn:?
        end
    end).


(** X28.  The proxy answers with one of five status codes and sends at
    most one request upstream per invocation: none when it answers 400 or
    405 (the request is refused before anything is sent), exactly one when it
    answers 200 or 502. *)
Theorem proxy_status_and_requests (env : Surroundings) (event : Event) :
  let answer := (handler env event).1 in
  let sent := (handler env event).2 in
  In (statusCode answer) [200; 400; 405; 500; 502]
  /\ (length sent <= 1)%nat
  /\ (statusCode answer = 400 \/ statusCode answer = 405 -> sent = [])
  /\ (statusCode answer = 200 \/ statusCode answer = 502 -> length sent = 1%nat).
Proof.
  cbv zeta. destruct (handler env event) as [answer sent] eqn:Hrun.
  cbn [fst snd]. revert Hrun.
  unfold handler, handle, parseEventBody, getStockQuote, getCompanyProfile,
    getStockCandles, getExchangeRate, with_symbol, requireKey, data_of, fetchJSON.
  proxy_cases.
  all: intros [= <- <-]; cbn.
  all: repeat split; try tauto; try lia; try (intros [H|H]; discriminate H).
Qed.



(** X30.  The rate of a currency is looked up by name in the object the
    upstream service sent, and a name that every object inherits is found
    there: asked for the rate of a "currency" that the service does not list
    but whose name is a property of [Object.prototype], the proxy answers
    200 with a rate that is no number, where for any other unlisted name it
    answers 502 with the name. *)
Theorem inherited_name_passes_for_a_currency
    (env : Surroundings) (event : Event) (parsed data : Json)
    (base target : string) (rates : list (string * Json)) (status : Z) :
  httpMethod event = "POST" ->
  body event = Parsed parsed ->
  field parsed "action" = Some (JStr "exchange") ->
  field parsed "fromCurrency" = Some (JStr base) ->
  field parsed "toCurrency" = Some (JStr target) ->
  base <> "" -> target <> "" ->
  truthy_str (EXCHANGE_RATE_KEY env) = true ->
  upstream env (Latest (default "" (EXCHANGE_RATE_KEY env)) base)
  = Response status (Value data) ->
  200 <= status < 300 ->
  field data "conversion_rates" = Some (JObj rates) ->
  assoc rates target = None ->
  (handler env event).1
  = if existsb (String.eqb target) ReportSubmit.Object_prototype
    then {| statusCode := 200;
            answer_body := ResultBody (Exchange base target (InheritedRate target)) |}
    else {| statusCode := 502;
            answer_body := ErrorBody ("Rate not found: " ++ target) |}.
Proof.
  intros Hpost Hbody Haction Hfrom Hto Hbase Htarget Hkey Hreply Hstatus
    Hrates Hunlisted.
  unfold handler, handle, parseEventBody. rewrite Hpost, Hbody.
  change (negb ("POST" =? "POST")%string) with false. cbv iota.
  destruct parsed; try (unfold field in Haction; discriminate Haction).
  rewrite Haction. unfold nonempty_string at 1.
  change ("exchange" =? "")%string with false. cbv iota.
  change ("exchange" =? "quote")%string with false.
  change ("exchange" =? "candles")%string with false.
  change ("exchange" =? "profile")%string with false.
  change ("exchange" =? "exchange")%string with true. cbv iota.
  unfold getExchangeRate, requireKey. rewrite Hkey. cbn [negb].
  rewrite Hfrom, Hto. unfold nonempty_string.
  apply String.eqb_neq in Hbase, Htarget. rewrite Hbase, Htarget.
  unfold fetchJSON. rewrite Hreply.
  replace ((status <? 200) || (status >=? 300)) with false
    by (symmetry; apply orb_false_intro;
        [apply Z.ltb_ge | rewrite Z.geb_leb; apply Z.leb_gt]; lia).
  unfold find_rate. rewrite Hrates, Hunlisted.
  destruct (existsb (String.eqb target) ReportSubmit.Object_prototype); reflexivity.
Qed.

Lemma inherited_name_passes_for_a_currency_witness :
  (handler rates_env (exchange_event "constructor")).1
  = if existsb (String.eqb "constructor") ReportSubmit.Object_prototype
    then {| statusCode := 200;
            answer_body :=
              ResultBody (Exchange "USD" "constructor" (InheritedRate "constructor")) |}
    else {| statusCode := 502;
            answer_body := ErrorBody ("Rate not found: " ++ "constructor") |}.
Proof.
  apply (inherited_name_passes_for_a_currency rates_env
           (exchange_event "constructor")
           (JObj [("action", JStr "exchange"); ("fromCurrency", JStr "USD");
                  ("toCurrency", JStr "constructor")])
           (JObj [("result", JStr "success");
                  ("conversion_rates", JObj [("USD", JNum 1); ("JPY", JNum 151)])])
           "USD" "constructor" [("USD", JNum 1); ("JPY", JNum 151)] 200);
    first [reflexivity | discriminate | lia].
Defined.

End StockProxyProperties.
